(** * film-crew-ai: screenplay segmentation and shot derivation

    A shallow embedding of the three screenplay parsers of the repository

    - [ScriptParser]          ([film_crew_ai.py]),
    - [EnhancedScriptParser]  ([archive/film_crew_ai_enhanced.py]),
    - [AdvancedScriptParser]  ([film_crew_ai_advanced.py]),

    together with the parts of Python they rest on: the [str] methods they
    call, the backtracking matcher of the [re] module for the constructs that
    occur in their patterns, [KeyError] on a missing dictionary key, and the
    iteration order of a [set].

    Text is a Rocq [string]: a character is one of the 256 values of [ascii],
    and the character classes ([str.isupper], [str.isspace], [\s], [\b], the
    IGNORECASE flag) are the ASCII ones.  The dashes U+2013 and U+2014 of the
    heading patterns lie outside this alphabet, so a heading is separated by
    the ASCII hyphen here. *)

From Stdlib Require Import String Ascii List Arith Bool Lia Permutation.
From Stdlib Require Import Sorted DecimalString.
From Stdlib Require DecimalNat.
Import ListNotations.
Open Scope list_scope.
Open Scope string_scope.

(* ================================================================== *)
(** * Python strings *)
(* ================================================================== *)

Module Py.

Definition LF : ascii := ascii_of_nat 10.

(** ['\n'.join(ls)], used to write scripts down line by line. *)
Definition text (ls : list string) : string := String.concat (String LF "") ls.

Definition in_range (lo hi : nat) (c : ascii) : bool :=
  let n := nat_of_ascii c in Nat.leb lo n && Nat.leb n hi.

(** [str.isspace] on one character: TAB, LF, VT, FF, CR, the separators
    0x1c..0x1f and the space. *)
Definition isspace_c (c : ascii) : bool := in_range 9 13 c || in_range 28 32 c.
Definition isupper_c (c : ascii) : bool := in_range 65 90 c.
Definition islower_c (c : ascii) : bool := in_range 97 122 c.
Definition isdigit_c (c : ascii) : bool := in_range 48 57 c.
Definition isalpha_c (c : ascii) : bool := isupper_c c || islower_c c.
(** [\w] of the [re] module. *)
Definition isword_c (c : ascii) : bool :=
  isalpha_c c || isdigit_c c || Ascii.eqb c "_".

Definition lower_c (c : ascii) : ascii :=
  if isupper_c c then ascii_of_nat (nat_of_ascii c + 32) else c.
Definition upper_c (c : ascii) : ascii :=
  if islower_c c then ascii_of_nat (nat_of_ascii c - 32) else c.

Fixpoint smap (f : ascii -> ascii) (s : string) : string :=
  match s with
  | EmptyString => EmptyString
  | String c s' => String (f c) (smap f s')
  end.

Fixpoint sall (p : ascii -> bool) (s : string) : bool :=
  match s with
  | EmptyString => true
  | String c s' => p c && sall p s'
  end.

Fixpoint sany (p : ascii -> bool) (s : string) : bool :=
  match s with
  | EmptyString => false
  | String c s' => p c || sany p s'
  end.

Definition is_empty (s : string) : bool :=
  match s with EmptyString => true | _ => false end.

(** [s.upper()], [s.lower()]. *)
Definition upper (s : string) : string := smap upper_c s.
Definition lower (s : string) : string := smap lower_c s.

(** [s.isupper()]: at least one cased character and no lowercase one. *)
Definition isupper (s : string) : bool :=
  sany isupper_c s && negb (sany islower_c s).

(** [s.isalpha()]: non-empty and letters only. *)
Definition isalpha (s : string) : bool :=
  negb (is_empty s) && sall isalpha_c s.

(** [s.lstrip(chars)], [s.rstrip(chars)] for a class of characters. *)
Fixpoint lstrip_by (p : ascii -> bool) (s : string) : string :=
  match s with
  | EmptyString => EmptyString
  | String c s' => if p c then lstrip_by p s' else s
  end.

Fixpoint rstrip_by (p : ascii -> bool) (s : string) : string :=
  match s with
  | EmptyString => EmptyString
  | String c s' =>
      let r := rstrip_by p s' in
      if is_empty r && p c then EmptyString else String c r
  end.

(** [s.strip()]. *)
Definition strip (s : string) : string :=
  rstrip_by isspace_c (lstrip_by isspace_c s).

(** [s.rstrip(':')]. *)
Definition rstrip_colon (s : string) : string :=
  rstrip_by (Ascii.eqb ":") s.

(** [s.split(sep)] for a one-character separator. *)
Fixpoint split_on (sep : ascii) (s : string) : list string :=
  match s with
  | EmptyString => [EmptyString]
  | String c s' =>
      match split_on sep s' with
      | hd :: tl =>
          if Ascii.eqb c sep then EmptyString :: hd :: tl
          else String c hd :: tl
      | [] => [String c EmptyString]
      end
  end.

(** [s.split()]: the maximal runs of non-space characters. *)
Fixpoint split_ws_from (cur : string) (s : string) : list string :=
  match s with
  | EmptyString => if is_empty cur then [] else [cur]
  | String c s' =>
      if isspace_c c
      then (if is_empty cur then split_ws_from EmptyString s'
            else cur :: split_ws_from EmptyString s')
      else split_ws_from (cur ++ String c EmptyString) s'
  end.

Definition split_ws (s : string) : list string := split_ws_from EmptyString s.

(** [sep.join(ls)]. *)
Definition join (sep : string) (ls : list string) : string :=
  String.concat sep ls.

(** [s[:n]] and [s[n:]] for [n >= 0]. *)
Fixpoint take (n : nat) (s : string) : string :=
  match n, s with
  | S n', String c s' => String c (take n' s')
  | _, _ => EmptyString
  end.

Fixpoint drop (n : nat) (s : string) : string :=
  match n, s with
  | S n', String _ s' => drop n' s'
  | _, _ => s
  end.

(** [s[a:b]] for [0 <= a], [0 <= b]. *)
Definition slice (a b : nat) (s : string) : string := take (b - a) (drop a s).

(** [s[-n:]] for [n > 0]. *)
Definition last_n (n : nat) (s : string) : string :=
  drop (String.length s - n) s.

(** [needle in hay]. *)
Fixpoint contains (needle hay : string) : bool :=
  String.prefix needle hay ||
  match hay with
  | EmptyString => false
  | String _ hay' => contains needle hay'
  end.

(** [s.replace(old, new)] for a non-empty [old]: occurrences are replaced
    from the left and do not overlap; [skip] counts the characters of an
    occurrence still to be passed over. *)
Fixpoint replace_from (skip : nat) (old new s : string) : string :=
  match s with
  | EmptyString => EmptyString
  | String c s' =>
      match skip with
      | S k => replace_from k old new s'
      | O =>
          if String.prefix old s
          then new ++ replace_from (String.length old - 1) old new s'
          else String c (replace_from 0 old new s')
      end
  end.

Definition replace (old new s : string) : string := replace_from 0 old new s.

(** [str(n)] for a natural number. *)
Definition str (n : nat) : string := NilEmpty.string_of_uint (Nat.to_uint n).

Fixpoint zeros (n : nat) : string :=
  match n with O => EmptyString | S n' => String "0" (zeros n') end.

(** [f"{n:03d}"]. *)
Definition fmt03d (n : nat) : string :=
  let s := str n in zeros (3 - String.length s) ++ s.

(** [chr(n)]. *)
Definition chr (n : nat) : string := String (ascii_of_nat n) EmptyString.

(** Truth value of an optional string ([None] and [''] are false). *)
Definition truthy (o : option string) : bool :=
  match o with
  | Some s => negb (is_empty s)
  | None => false
  end.

(** [list(set(l))].  The elements are those of [l] without repetition; the
    order in which a set of strings is iterated follows the hashes of the
    strings, which the interpreter seeds anew for each process.  The order is
    therefore a parameter of the model: any rearrangement of the distinct
    elements. *)
Record SetOrder : Type := {
  list_of_set : list string -> list string;
  list_of_set_perm :
    forall l, Permutation (list_of_set l) (nodup string_dec l)
}.

(** Exceptions the parsers can raise, and results of calls that may raise. *)
Inductive exn : Type :=
| KeyError (key : string).

Inductive result (A : Type) : Type :=
| Ok (a : A)
| Raise (e : exn).
Arguments Ok {A} a.
Arguments Raise {A} e.

Definition bind {A B : Type} (r : result A) (f : A -> result B) : result B :=
  match r with
  | Ok a => f a
  | Raise e => Raise e
  end.

(** [d[key]] on a dictionary whose entry may be missing. *)
Definition getitem (key : string) (o : option string) : result string :=
  match o with
  | Some v => Ok v
  | None => Raise (KeyError key)
  end.

(** [d.get(key, default)]. *)
Definition get_default (o : option string) (default : string) : string :=
  match o with
  | Some v => v
  | None => default
  end.

(** The calls of a loop body in order, stopping at the first that raises. *)
Fixpoint mapM {A B : Type} (f : A -> result B) (l : list A) : result (list B) :=
  match l with
  | [] => Ok []
  | a :: l' => bind (f a) (fun b => bind (mapM f l') (fun bs => Ok (b :: bs)))
  end.

(** [enumerate(l)] counting from [i]. *)
Fixpoint enumerate_from {A : Type} (i : nat) (l : list A) : list (nat * A) :=
  match l with
  | [] => []
  | a :: l' => (i, a) :: enumerate_from (S i) l'
  end.

End Py.

Notation "x <- c1 ;; c2" := (Py.bind c1 (fun x => c2))
  (at level 61, c1 at next level, right associativity).

(* ================================================================== *)
(** * The [re] module *)
(* ================================================================== *)

(** Patterns are syntax trees over the constructs the parsers use; matching
    is the ordered backtracking search of [re]: alternatives are tried from
    the left, greedy repetitions take the longest run first, lazy ones the
    shortest, and the first success is the match. *)

Module Re.

Inductive regex : Type :=
| Eps                                   (* the empty pattern *)
| Cls (p : ascii -> bool)               (* one character of a class *)
| Seq (a b : regex)                     (* ab *)
| Alt (a b : regex)                     (* a|b *)
| Star (p : ascii -> bool)              (* [class]* *)
| StarLazy (p : ascii -> bool)          (* [class]*? *)
| Opt (a : regex)                       (* a? and (?:a)? *)
| Grp (i : nat) (a : regex)             (* the i-th capturing group *)
| Bol (multiline : bool)                (* ^ *)
| Eol (multiline : bool)                (* $ *)
| WordB.                                (* \b *)

(** A position in the subject: the character before it, its index, and the
    text from it on. *)
Record cursor : Type := mkCursor {
  prev : option ascii;
  pos : nat;
  rest : string
}.

(** Spans [(start, end)] of the groups that took part, latest first. *)
Definition captures : Type := list (nat * (nat * nat)).

Definition outcome : Type := option (nat * captures).

Definition cont : Type := cursor -> captures -> outcome.

Definition orelse (a : outcome) (b : unit -> outcome) : outcome :=
  match a with
  | Some x => Some x
  | None => b tt
  end.

Fixpoint star_greedy (p : ascii -> bool) (k : cont)
    (pv : option ascii) (ps : nat) (s : string) (cs : captures) : outcome :=
  match s with
  | String c s' =>
      if p c
      then orelse (star_greedy p k (Some c) (S ps) s' cs)
                  (fun _ => k (mkCursor pv ps s) cs)
      else k (mkCursor pv ps s) cs
  | EmptyString => k (mkCursor pv ps s) cs
  end.

Fixpoint star_lazy (p : ascii -> bool) (k : cont)
    (pv : option ascii) (ps : nat) (s : string) (cs : captures) : outcome :=
  orelse (k (mkCursor pv ps s) cs)
    (fun _ =>
       match s with
       | String c s' =>
           if p c then star_lazy p k (Some c) (S ps) s' cs else None
       | EmptyString => None
       end).

Definition at_bol (multiline : bool) (cu : cursor) : bool :=
  match prev cu with
  | None => true
  | Some c => multiline && Ascii.eqb c Py.LF
  end.

Definition at_eol (multiline : bool) (cu : cursor) : bool :=
  match rest cu with
  | EmptyString => true
  | String c s' =>
      Ascii.eqb c Py.LF && (multiline || Py.is_empty s')
  end.

Definition at_wordb (cu : cursor) : bool :=
  let before := match prev cu with Some c => Py.isword_c c | None => false end in
  let after :=
    match rest cu with String c _ => Py.isword_c c | EmptyString => false end in
  xorb before after.

Fixpoint run (r : regex) (k : cont) (cu : cursor) (cs : captures) : outcome :=
  match r with
  | Eps => k cu cs
  | Cls p =>
      match rest cu with
      | String c s' =>
          if p c then k (mkCursor (Some c) (S (pos cu)) s') cs else None
      | EmptyString => None
      end
  | Seq a b => run a (run b k) cu cs
  | Alt a b => orelse (run a k cu cs) (fun _ => run b k cu cs)
  | Star p => star_greedy p k (prev cu) (pos cu) (rest cu) cs
  | StarLazy p => star_lazy p k (prev cu) (pos cu) (rest cu) cs
  | Opt a => orelse (run a k cu cs) (fun _ => k cu cs)
  | Grp i a =>
      run a (fun cu' cs' => k cu' ((i, (pos cu, pos cu')) :: cs')) cu cs
  | Bol ml => if at_bol ml cu then k cu cs else None
  | Eol ml => if at_eol ml cu then k cu cs else None
  | WordB => if at_wordb cu then k cu cs else None
  end.

(** A match object: the subject, the span of the match and of its groups. *)
Record rmatch : Type := mkMatch {
  subject : string;
  m_start : nat;
  m_end : nat;
  m_groups : captures
}.

Definition match_here (r : regex) (cu : cursor) : outcome :=
  run r (fun cu' cs => Some (pos cu', cs)) cu [].

(** [pattern.match(s)]. *)
Definition rematch (r : regex) (s : string) : option rmatch :=
  match match_here r (mkCursor None 0 s) with
  | Some (e, cs) => Some (mkMatch s 0 e cs)
  | None => None
  end.

Fixpoint search_from (r : regex) (whole : string)
    (pv : option ascii) (ps : nat) (s : string) : option rmatch :=
  match match_here r (mkCursor pv ps s) with
  | Some (e, cs) => Some (mkMatch whole ps e cs)
  | None =>
      match s with
      | String c s' => search_from r whole (Some c) (S ps) s'
      | EmptyString => None
      end
  end.

(** [pattern.search(s)]. *)
Definition search (r : regex) (s : string) : option rmatch :=
  search_from r s None 0 s.

(** The scan of [finditer]: after a match the search resumes at its end;
    [skip] counts the characters of the last match still to be passed. *)
Fixpoint finditer_from (r : regex) (whole : string) (skip : nat)
    (pv : option ascii) (ps : nat) (s : string) : list rmatch :=
  match skip with
  | S j =>
      match s with
      | String c s' => finditer_from r whole j (Some c) (S ps) s'
      | EmptyString => []
      end
  | O =>
      match match_here r (mkCursor pv ps s) with
      | Some (e, cs) =>
          mkMatch whole ps e cs ::
          match s with
          | String c s' => finditer_from r whole (e - ps - 1) (Some c) (S ps) s'
          | EmptyString => []
          end
      | None =>
          match s with
          | String c s' => finditer_from r whole 0 (Some c) (S ps) s'
          | EmptyString => []
          end
      end
  end.

(** [list(pattern.finditer(s))]. *)
Definition finditer (r : regex) (s : string) : list rmatch :=
  finditer_from r s 0 None 0 s.

Fixpoint lookup (i : nat) (cs : captures) : option (nat * nat) :=
  match cs with
  | [] => None
  | (j, span) :: cs' => if Nat.eqb i j then Some span else lookup i cs'
  end.

(** [m.group(i)]: [None] when the group took no part in the match. *)
Definition group (i : nat) (m : rmatch) : option string :=
  match lookup i (m_groups m) with
  | Some (a, b) => Some (Py.slice a b (subject m))
  | None => None
  end.

(** [m.group(i)] for a group that every match of the pattern goes through. *)
Definition group_str (i : nat) (m : rmatch) : string :=
  match group i m with
  | Some s => s
  | None => EmptyString
  end.

(** [m.lastindex] for patterns whose groups are not nested: the largest
    index among the groups that took part (0 stands for [None]). *)
Definition lastindex (m : rmatch) : nat :=
  fold_right (fun e acc => Nat.max (fst e) acc) 0 (m_groups m).

Definition is_some {A : Type} (o : option A) : bool :=
  match o with Some _ => true | None => false end.

(** ** Building patterns *)

Definition chr_is (c : ascii) : ascii -> bool := Ascii.eqb c.
(** A literal character under IGNORECASE. *)
Definition chr_ci (c : ascii) : ascii -> bool :=
  fun x => Ascii.eqb (Py.lower_c x) (Py.lower_c c).
(** [.]: anything but a newline. *)
Definition dot : ascii -> bool := fun c => negb (Ascii.eqb c Py.LF).
Definition space : ascii -> bool := Py.isspace_c.

Fixpoint lit (s : string) : regex :=
  match s with
  | EmptyString => Eps
  | String c EmptyString => Cls (chr_is c)
  | String c s' => Seq (Cls (chr_is c)) (lit s')
  end.

Fixpoint lit_ci (s : string) : regex :=
  match s with
  | EmptyString => Eps
  | String c EmptyString => Cls (chr_ci c)
  | String c s' => Seq (Cls (chr_ci c)) (lit_ci s')
  end.

Definition plus (p : ascii -> bool) : regex := Seq (Cls p) (Star p).
Definition plus_lazy (p : ascii -> bool) : regex := Seq (Cls p) (StarLazy p).

Fixpoint seqs (rs : list regex) : regex :=
  match rs with
  | [] => Eps
  | [r] => r
  | r :: rs' => Seq r (seqs rs')
  end.

Fixpoint alts (rs : list regex) : regex :=
  match rs with
  | [] => Eps
  | [r] => r
  | r :: rs' => Alt r (alts rs')
  end.

End Re.

(* ================================================================== *)
(** * [film_crew_ai_advanced.py]: AdvancedScriptParser *)
(* ================================================================== *)

Module AdvancedScriptParser.
Import Re.

(** ** Data models *)

Record VoiceOver : Type := mkVoiceOver {
  vo_character : string;
  vo_text : string;
  vo_scene_context : string;
  vo_timing : string;               (* "during_scene" or "transitional" *)
  vo_emotional_tone : string
}.

Record Transition : Type := mkTransition {
  tr_type : string;
  tr_from_scene : string;
  tr_to_scene : string
}.

Record VideoShot : Type := mkVideoShot {
  shot_id : string;
  shot_scene_number : string;
  shot_number : string;
  shot_type : string;
  shot_description : string;
  duration : string;
  camera_movement : string;
  characters_in_frame : list string;
  dialogue : list string;
  shot_voice_overs : list VoiceOver;
  is_flashback : bool;
  is_montage : bool;
  visual_effects : string
}.

(** An entry of [dialogue_blocks]: [{'character': ..., 'lines': [...]}]. *)
Record DialogueBlock : Type := mkDialogueBlock {
  character : string;
  lines : list string
}.

Record EnhancedScene : Type := mkEnhancedScene {
  scene_number : string;
  heading : string;
  location : string;
  time_of_day : string;
  scene_type : string;
  description : string;
  action_blocks : list string;
  dialogue_blocks : list DialogueBlock;
  voice_overs : list VoiceOver;
  shots : list VideoShot;
  transitions_in : option Transition;
  transitions_out : option Transition
}.

(** The dictionary [_extract_scenes] builds for a scene.  The keys
    ['location'], ['time'] and ['type'] are set for a scene found by its
    heading and absent from the scene that stands for a script without
    headings. *)
Record SceneData : Type := mkSceneData {
  d_start : nat;
  d_end : nat;
  d_heading : string;
  d_location : option string;
  d_time : option string;
  d_type : option string;
  d_text : string
}.

(** An entry of the list [_extract_voice_overs] returns. *)
Record VoiceOverEntry : Type := mkVoiceOverEntry {
  e_character : string;
  e_text : string;
  e_position : nat;
  e_type : string
}.

(** ** The patterns of [__init__] *)

Definition upper_c : ascii -> bool := Py.isupper_c.
(** [[A-Z\s\.]] *)
Definition name_c (c : ascii) : bool :=
  Py.isupper_c c || Py.isspace_c c || Ascii.eqb c ".".
(** [[^)]] *)
Definition not_rparen (c : ascii) : bool := negb (Ascii.eqb c ")").
(** [[-–—]] *)
Definition dash (c : ascii) : bool := Ascii.eqb c "-".

(** [^(INT\.|EXT\.|INT/EXT\.|I/E\.)\s+(.+?)\s*[-–—]\s*(.+?)(?:\s*[-–—]\s*(.+))?$]
    with MULTILINE and IGNORECASE. *)
Definition scene_pattern : regex :=
  seqs [ Bol true;
         Grp 1 (alts [lit_ci "INT."; lit_ci "EXT."; lit_ci "INT/EXT.";
                      lit_ci "I/E."]);
         plus space;
         Grp 2 (plus_lazy dot);
         Star space; Cls dash; Star space;
         Grp 3 (plus_lazy dot);
         Opt (seqs [Star space; Cls dash; Star space; Grp 4 (plus dot)]);
         Eol true ].

(** [^(A:?|B:?|...)$] with MULTILINE and IGNORECASE. *)
Definition transition_of (phrases : list string) : regex :=
  seqs [ Bol true;
         Grp 1 (alts (map (fun p => Seq (lit_ci p) (Opt (Cls (chr_is ":"))))
                          phrases));
         Eol true ].

Definition transition_patterns : list regex :=
  [ transition_of ["FADE IN"; "FADE OUT"; "FADE TO"];
    transition_of ["CUT TO"; "DISSOLVE TO"; "MATCH CUT TO"; "SMASH CUT TO"];
    transition_of ["INTERCUT WITH"; "BACK TO"; "ANGLE ON"; "CLOSE ON"] ].

(** [^([A-Z][A-Z\s\.]+)\s*\(V\.O\.\)$] with MULTILINE. *)
Definition vo_pattern : regex :=
  seqs [ Bol true; Grp 1 (Seq (Cls upper_c) (plus name_c));
         Star space; lit "(V.O.)"; Eol true ].

(** [^([A-Z][A-Z\s\.]+)\s*\(O\.S\.\)$] with MULTILINE. *)
Definition os_pattern : regex :=
  seqs [ Bol true; Grp 1 (Seq (Cls upper_c) (plus name_c));
         Star space; lit "(O.S.)"; Eol true ].

(** [^([A-Z][A-Z\s\.]+)(?:\s*\([^)]+\))?$] *)
Definition character_pattern : regex :=
  seqs [ Bol false; Grp 1 (Seq (Cls upper_c) (plus name_c));
         Opt (seqs [Star space; Cls (chr_is "("); plus not_rparen;
                    Cls (chr_is ")")]);
         Eol false ].

(** [^\s*\([^)]+\)\s*$] *)
Definition parenthetical_pattern : regex :=
  seqs [ Bol false; Star space; Cls (chr_is "("); plus not_rparen;
         Cls (chr_is ")"); Star space; Eol false ].

(** [\b(A|B|...)\b] with IGNORECASE. *)
Definition keyword_of (alternatives : list regex) : regex :=
  seqs [ WordB; Grp 1 (alts alternatives); WordB ].

Definition words_of (ws : list string) : regex := keyword_of (map lit_ci ws).

(** [shot_patterns], in the order of the dictionary. *)
Definition shot_patterns : list (string * regex) :=
  [ ("WIDE", words_of ["WIDE"; "ESTABLISHING"; "EXTREME WIDE"; "FULL"]);
    ("MEDIUM", words_of ["MEDIUM"; "MED"; "TWO-SHOT"; "THREE-SHOT"]);
    ("CLOSE-UP", words_of ["CLOSE-UP"; "CLOSE UP"; "CU"; "TIGHT"]);
    ("EXTREME CLOSE-UP", words_of ["EXTREME CLOSE-UP"; "ECU"; "MACRO"]);
    ("OVER-THE-SHOULDER",
       words_of ["OVER THE SHOULDER"; "OTS"; "OVER SHOULDER"]);
    ("POV", words_of ["POV"; "POINT OF VIEW"; "P.O.V."]);
    ("INSERT", words_of ["INSERT"; "CUTAWAY"]) ].

(** [movement_patterns], in the order of the dictionary. *)
Definition movement_patterns : list (string * regex) :=
  [ ("PAN", words_of ["PAN"; "PANNING"; "PANS"]);
    ("TILT", words_of ["TILT"; "TILTING"; "TILTS"]);
    ("DOLLY", words_of ["DOLLY"; "DOLLYING"; "DOLLIES"; "TRACK"; "TRACKING"]);
    ("CRANE", words_of ["CRANE"; "CRANING"; "BOOM"]);
    ("HANDHELD", words_of ["HANDHELD"; "HAND-HELD"; "SHAKY"]);
    ("STEADICAM", words_of ["STEADICAM"; "STEADY CAM"; "SMOOTH"]);
    ("ZOOM", words_of ["ZOOM"; "ZOOMING"; "ZOOMS"]);
    ("STATIC", words_of ["STATIC"; "LOCKED OFF"; "FIXED"]) ].

(** [\b(FLASHBACK|FLASH BACK|YEARS? AGO|EARLIER)\b] with IGNORECASE. *)
Definition flashback_pattern : regex :=
  keyword_of [ lit_ci "FLASHBACK"; lit_ci "FLASH BACK";
               seqs [lit_ci "YEAR"; Opt (Cls (chr_ci "S")); lit_ci " AGO"];
               lit_ci "EARLIER" ].
Definition montage_pattern : regex :=
  words_of ["MONTAGE"; "SERIES OF SHOTS"; "SEQUENCE"].
Definition dream_pattern : regex :=
  words_of ["DREAM"; "NIGHTMARE"; "FANTASY"; "IMAGINATION"].

Definition matches (r : regex) (s : string) : bool := is_some (rematch r s).
Definition found (r : regex) (s : string) : bool := is_some (search r s).

(** ** [_extract_scenes] *)

Definition synthetic_scene (content : string) : SceneData :=
  {| d_start := 0;
     d_end := String.length content;
     d_heading := "INT. LOCATION - DAY";
     d_location := None;
     d_time := None;
     d_type := None;
     d_text := content |}.

Definition scene_of_match (content : string) (m : rmatch) (scene_end : nat)
    : SceneData :=
  let scene_start := m_start m in
  let int_ext := group_str 1 m in
  let location := group_str 2 m in
  let time := group_str 3 m in
  let extra := if Nat.leb 4 (lastindex m) then group_str 4 m else "" in
  let scene_type :=
    if negb (Py.is_empty extra) && found flashback_pattern extra
    then "FLASHBACK" else "PRESENT" in
  let heading := int_ext ++ " " ++ location ++ " - " ++ time in
  let heading :=
    if negb (Py.is_empty extra) then heading ++ " - " ++ extra else heading in
  {| d_start := scene_start;
     d_end := scene_end;
     d_heading := heading;
     d_location := Some location;
     d_time := Some time;
     d_type := Some scene_type;
     d_text := Py.slice scene_start scene_end content |}.

(** The loop over [enumerate(scene_matches)]: a scene ends where the next
    match starts, the last one at the end of the text. *)
Fixpoint scenes_of_matches (content : string) (ms : list rmatch)
    : list SceneData :=
  match ms with
  | [] => []
  | m :: ms' =>
      let scene_end :=
        match ms' with
        | m' :: _ => m_start m'
        | [] => String.length content
        end in
      scene_of_match content m scene_end :: scenes_of_matches content ms'
  end.

Definition _extract_scenes (content : string) : list SceneData :=
  match finditer scene_pattern content with
  | [] => [synthetic_scene content]
  | ms => scenes_of_matches content ms
  end.

(** ** [_extract_transitions] *)

Definition _extract_transitions (content : string) : list Transition :=
  flat_map
    (fun pattern =>
       map (fun m => mkTransition (Py.rstrip_colon (group_str 1 m)) "" "")
           (finditer pattern content))
    transition_patterns.

(** ** [_extract_voice_overs] *)

(** The loop over the lines after a cue, up to the first [break]. *)
Fixpoint spoken_lines (content_lines : list string) : list string :=
  match content_lines with
  | [] => []
  | line :: more =>
      let line := Py.strip line in
      if Py.is_empty line then []
      else if matches character_pattern line then []
      else if negb (matches parenthetical_pattern line)
           then line :: spoken_lines more
           else spoken_lines more
  end.

Definition entries_of (pattern : regex) (kind : string) (content : string)
    : list VoiceOverEntry :=
  flat_map
    (fun m =>
       let character := Py.strip (group_str 1 m) in
       let position := m_end m in
       let lines :=
         spoken_lines (Py.split_on Py.LF (Py.drop position content)) in
       match lines with
       | [] => []
       | _ => [mkVoiceOverEntry character (Py.join " " lines) position kind]
       end)
    (finditer pattern content).

Definition _extract_voice_overs (content : string) : list VoiceOverEntry :=
  entries_of vo_pattern "voice_over" content ++
  entries_of os_pattern "off_screen" content.

(** ** [_process_scene]: the loop over the lines of a scene *)

(** The local variables of the loop. *)
Record LoopState : Type := mkLoopState {
  l_action_blocks : list string;
  l_dialogue_blocks : list DialogueBlock;
  l_scene_voice_overs : list VoiceOver;
  l_current_block : list string;
  l_current_character : option string
}.

Definition loop_start : LoopState := mkLoopState [] [] [] [] None.

(** [action_blocks.append(' '.join(current_block))] when [current_block]
    is not empty. *)
Definition flush (action_blocks current_block : list string) : list string :=
  match current_block with
  | [] => action_blocks
  | _ => (action_blocks ++ [Py.join " " current_block])%list
  end.

(** [dialogue_blocks[-1]['lines'].append(line)] *)
Fixpoint append_to_last (line : string) (bs : list DialogueBlock)
    : list DialogueBlock :=
  match bs with
  | [] => []
  | [b] => [mkDialogueBlock (character b) (lines b ++ [line])%list]
  | b :: bs' => b :: append_to_last line bs'
  end.

Definition line_step (heading : string) (st : LoopState) (line : string)
    : LoopState :=
  let line_stripped := Py.strip line in
  if Py.is_empty line_stripped then
    mkLoopState (flush (l_action_blocks st) (l_current_block st))
                (l_dialogue_blocks st) (l_scene_voice_overs st) [] None
  else
    match rematch vo_pattern line_stripped with
    | Some char_match =>
        (* Voice-over *)
        mkLoopState (l_action_blocks st) (l_dialogue_blocks st)
                    (l_scene_voice_overs st) (l_current_block st)
                    (Some (Py.strip (group_str 1 char_match) ++ " (V.O.)"))
    | None =>
        if matches character_pattern line_stripped && Py.isupper line_stripped
        then
          (* Regular character *)
          mkLoopState (l_action_blocks st)
                      (l_dialogue_blocks st ++
                         [mkDialogueBlock line_stripped []])%list
                      (l_scene_voice_overs st) (l_current_block st)
                      (Some line_stripped)
        else if Py.truthy (l_current_character st)
                && negb (matches parenthetical_pattern line_stripped)
        then
          (* Dialogue line *)
          let current_character :=
            Py.get_default (l_current_character st) "" in
          if Py.contains "(V.O.)" current_character then
            mkLoopState (l_action_blocks st) (l_dialogue_blocks st)
              (l_scene_voice_overs st ++
                 [mkVoiceOver (Py.replace " (V.O.)" "" current_character)
                              line_stripped heading "during_scene" ""])%list
              (l_current_block st) (l_current_character st)
          else
            (* [elif dialogue_blocks:] -- nothing happens when it is empty *)
            mkLoopState (l_action_blocks st)
                        (append_to_last line_stripped (l_dialogue_blocks st))
                        (l_scene_voice_overs st) (l_current_block st)
                        (l_current_character st)
        else
          (* Action line *)
          mkLoopState (l_action_blocks st) (l_dialogue_blocks st)
                      (l_scene_voice_overs st)
                      (l_current_block st ++ [line_stripped])%list
                      (l_current_character st)
    end.

(** The loop [for line in lines[1:]] and the flush that follows it. *)
Definition scan_lines (heading scene_text : string) : LoopState :=
  let st := fold_left (line_step heading)
                      (tl (Py.split_on Py.LF scene_text)) loop_start in
  mkLoopState (flush (l_action_blocks st) (l_current_block st))
              (l_dialogue_blocks st) (l_scene_voice_overs st)
              (l_current_block st) (l_current_character st).

(** ** [_detect_scene_type] *)

Definition _detect_scene_type (scene_text default_type : string) : string :=
  let text_lower := Py.lower scene_text in
  if found flashback_pattern text_lower then "FLASHBACK"
  else if found dream_pattern text_lower then "DREAM"
  else if found montage_pattern text_lower then "MONTAGE"
  else default_type.

(** ** The helpers of [_generate_video_shots] *)

Fixpoint first_found (patterns : list (string * regex)) (text : string)
    : option string :=
  match patterns with
  | [] => None
  | (name, pattern) :: more =>
      if found pattern text then Some name else first_found more text
  end.

Definition _detect_shot_type (text : string) : option string :=
  first_found shot_patterns text.

Definition _detect_camera_movement (text : string) : option string :=
  let movements :=
    map (fun np => Py.lower (fst np))
        (filter (fun np => found (snd np) text) movement_patterns) in
  match movements with
  | [] => None
  | _ => Some (Py.join " " movements)
  end.

Definition opt_is (o : option string) (s : string) : bool :=
  match o with
  | Some v => String.eqb v s
  | None => false
  end.

Definition _estimate_duration (text : string) (shot_type : option string)
    : string :=
  let word_count := List.length (Py.split_ws text) in
  if opt_is shot_type "WIDE" || opt_is shot_type "ESTABLISHING"
  then "5-8 seconds"
  else if Nat.ltb 50 word_count then "5-7 seconds"
  else if Nat.ltb 20 word_count then "3-5 seconds"
  else "2-3 seconds".

Definition stop_words : list string :=
  ["THE"; "AND"; "BUT"; "FOR"; "WITH"; "INTO"; "OVER"].

Definition mem (s : string) (l : list string) : bool :=
  existsb (String.eqb s) l.

(** The test a word of an action block passes to count as a character. *)
Definition is_character_word (word : string) : bool :=
  Py.isupper word && Nat.ltb 2 (String.length word) && Py.isalpha word
  && negb (mem word stop_words).

Definition _needs_new_shot (current_shot : option VideoShot)
    (new_character : string) : bool :=
  match current_shot with
  | None => true
  | Some shot =>
      if Nat.leb 2 (List.length (characters_in_frame shot)) then true
      else if Nat.leb 3 (List.length (dialogue shot)) then true
      else false
  end.

Definition _determine_dialogue_shot_type (shot_count : nat)
    (character : string) : string :=
  if Nat.eqb shot_count 0 then "MEDIUM"
  else if Nat.eqb (shot_count mod 3) 0 then "CLOSE-UP"
  else if Nat.eqb (shot_count mod 2) 0 then "OVER-THE-SHOULDER"
  else "MEDIUM".

(** [f"{scene_number}-{shot_number:03d}"] *)
Definition make_shot_id (scene_number shot_number : nat) : string :=
  Py.str scene_number ++ "-" ++ Py.fmt03d shot_number.

(** ["FLASHBACK" in scene_data.get('type', '')] and the like. *)
Definition type_has (word : string) (scene_data : SceneData) : bool :=
  Py.contains word (Py.get_default (d_type scene_data) "").

Definition _create_establishing_shot (scene_number shot_number : nat)
    (scene_data : SceneData) (action_blocks : list string)
    : Py.result VideoShot :=
  description <-
    match action_blocks with
    | first :: _ => Py.Ok (Py.take 200 first)
    | [] =>
        location <- Py.getitem "location" (d_location scene_data) ;;
        Py.Ok ("Establishing " ++ location)
    end ;;
  Py.Ok {| shot_id := make_shot_id scene_number shot_number;
           shot_scene_number := Py.str scene_number;
           shot_number := Py.fmt03d shot_number;
           shot_type := "WIDE ESTABLISHING";
           shot_description := description;
           duration := "5-8 seconds";
           camera_movement := "slow push in or crane";
           characters_in_frame := [];
           dialogue := [];
           shot_voice_overs := [];
           is_flashback := type_has "FLASHBACK" scene_data;
           is_montage := false;
           visual_effects := "" |}.

Definition _create_closing_shot (scene_number shot_number : nat)
    (scene_data : SceneData) : Py.result VideoShot :=
  location <- Py.getitem "location" (d_location scene_data) ;;
  Py.Ok {| shot_id := make_shot_id scene_number shot_number;
           shot_scene_number := Py.str scene_number;
           shot_number := Py.fmt03d shot_number;
           shot_type := "WIDE";
           shot_description := "Scene closing - " ++ location;
           duration := "3-5 seconds";
           camera_movement := "pull back or static";
           characters_in_frame := [];
           dialogue := [];
           shot_voice_overs := [];
           is_flashback := false;
           is_montage := false;
           visual_effects := "" |}.

(** [character.split('(')[0].strip()] *)
Definition bare_name (character : string) : string :=
  Py.strip (hd "" (Py.split_on "(" character)).

Section Parser.

(** The iteration order of sets in the running interpreter. *)
Variable order : Py.SetOrder.

Definition _extract_characters_from_action (action : string) : list string :=
  let characters := filter is_character_word (Py.split_ws action) in
  Py.list_of_set order characters.

(** ** [_generate_video_shots] *)

(** [shots] and [shot_number] as the rules hand them on. *)
Definition Emitted : Type := (list VideoShot * nat)%type.

(** 1. Establishing shot (always first unless it's a continuation). *)
Definition continuity_markers : list string :=
  ["CONTINUED"; "CONT'D"; "CONTINUOUS"].

Definition is_continuation (scene_text : string) : bool :=
  existsb (fun trans => Py.contains trans (Py.take 50 scene_text))
          continuity_markers.

Definition establishing_rule (scene_number : nat) (scene_data : SceneData)
    (action_blocks : list string) (e : Emitted) : Py.result Emitted :=
  let '(shots, shot_number) := e in
  if negb (is_continuation (d_text scene_data)) then
    shot <- _create_establishing_shot scene_number shot_number scene_data
                                      action_blocks ;;
    Py.Ok ((shots ++ [shot])%list, S shot_number)
  else Py.Ok e.

(** 2. One shot for an action block that names a shot type or a camera
    movement, or is longer than 100 characters. *)
Definition action_shot (scene_number shot_number : nat)
    (scene_data : SceneData) (voice_overs : list VoiceOver)
    (action : string) (shot_type camera_movement : option string)
    : VideoShot :=
  {| shot_id := make_shot_id scene_number shot_number;
     shot_scene_number := Py.str scene_number;
     shot_number := Py.fmt03d shot_number;
     shot_type := if Py.truthy shot_type
                  then Py.get_default shot_type "" else "MEDIUM";
     shot_description := Py.take 200 action;
     duration := _estimate_duration action shot_type;
     camera_movement := if Py.truthy camera_movement
                        then Py.get_default camera_movement "" else "static";
     characters_in_frame := _extract_characters_from_action action;
     dialogue := [];
     shot_voice_overs :=
       filter (fun vo => String.eqb (vo_timing vo) "during_scene") voice_overs;
     is_flashback := type_has "FLASHBACK" scene_data;
     is_montage := type_has "MONTAGE" scene_data;
     visual_effects := "" |}.

Definition action_step (scene_number : nat) (scene_data : SceneData)
    (voice_overs : list VoiceOver) (e : Emitted) (action : string) : Emitted :=
  let '(shots, shot_number) := e in
  let shot_type := _detect_shot_type action in
  let camera_movement := _detect_camera_movement action in
  if Py.truthy shot_type || Py.truthy camera_movement
     || Nat.ltb 100 (String.length action)
  then ((shots ++ [action_shot scene_number shot_number scene_data voice_overs
                               action shot_type camera_movement])%list,
        S shot_number)
  else e.

(** 3. Dialogue shots: [shots], [shot_number] and [current_dialogue_shot]. *)
Definition Coverage : Type := (list VideoShot * nat * option VideoShot)%type.

Definition close_shot (shots : list VideoShot) (current : option VideoShot)
    : list VideoShot :=
  match current with
  | Some shot => (shots ++ [shot])%list
  | None => shots
  end.

Definition dialogue_shot (scene_number shot_number shot_count : nat)
    (scene_data : SceneData) (d : DialogueBlock) : VideoShot :=
  {| shot_id := make_shot_id scene_number shot_number;
     shot_scene_number := Py.str scene_number;
     shot_number := Py.fmt03d shot_number;
     shot_type := _determine_dialogue_shot_type shot_count (character d);
     shot_description := "Dialogue: " ++ character d;
     duration := "3-5 seconds";
     camera_movement := "subtle drift";
     characters_in_frame := [bare_name (character d)];
     dialogue := [Py.join " " (lines d)];
     shot_voice_overs := [];
     is_flashback := type_has "FLASHBACK" scene_data;
     is_montage := false;
     visual_effects := "" |}.

(** Add to existing shot. *)
Definition extend_shot (shot : VideoShot) (d : DialogueBlock) : VideoShot :=
  let name := bare_name (character d) in
  {| shot_id := shot_id shot;
     shot_scene_number := shot_scene_number shot;
     shot_number := shot_number shot;
     shot_type := shot_type shot;
     shot_description := shot_description shot;
     duration := duration shot;
     camera_movement := camera_movement shot;
     characters_in_frame :=
       if mem name (characters_in_frame shot) then characters_in_frame shot
       else (characters_in_frame shot ++ [name])%list;
     dialogue := (dialogue shot ++ [Py.join " " (lines d)])%list;
     shot_voice_overs := shot_voice_overs shot;
     is_flashback := is_flashback shot;
     is_montage := is_montage shot;
     visual_effects := visual_effects shot |}.

Definition dialogue_step (scene_number : nat) (scene_data : SceneData)
    (c : Coverage) (d : DialogueBlock) : Coverage :=
  let '(shots, shot_number, current) := c in
  if _needs_new_shot current (character d) then
    let shots := close_shot shots current in
    (shots, S shot_number,
     Some (dialogue_shot scene_number shot_number (List.length shots)
                         scene_data d))
  else
    match current with
    | Some shot => (shots, shot_number, Some (extend_shot shot d))
    | None => c
    end.

Definition dialogue_rule (scene_number : nat) (scene_data : SceneData)
    (dialogue_blocks : list DialogueBlock) (e : Emitted) : Emitted :=
  let '(shots, shot_number, current) :=
    fold_left (dialogue_step scene_number scene_data) dialogue_blocks
              (fst e, snd e, None) in
  (close_shot shots current, shot_number).

(** 4. Voice-over shots if they're standalone. *)
Definition voice_over_shot (scene_number shot_number : nat) (vo : VoiceOver)
    : VideoShot :=
  {| shot_id := make_shot_id scene_number shot_number;
     shot_scene_number := Py.str scene_number;
     shot_number := Py.fmt03d shot_number;
     shot_type := "VARIOUS";
     shot_description := "Voice-over montage: " ++ vo_character vo;
     duration := "5-10 seconds";
     camera_movement := "various";
     characters_in_frame := [];
     dialogue := [];
     shot_voice_overs := [vo];
     is_flashback := false;
     is_montage := true;
     visual_effects := "" |}.

Definition voice_over_step (scene_number : nat) (e : Emitted) (vo : VoiceOver)
    : Emitted :=
  let '(shots, shot_number) := e in
  if String.eqb (vo_timing vo) "transitional"
  then ((shots ++ [voice_over_shot scene_number shot_number vo])%list,
        S shot_number)
  else e.

(** 5. Closing shot if scene is substantial. *)
Definition closing_markers : list string := ["CUT TO"; "FADE TO"].

Definition closing_rule (scene_number : nat) (scene_data : SceneData)
    (e : Emitted) : Py.result (list VideoShot) :=
  let '(shots, shot_number) := e in
  if Nat.ltb 3 (List.length shots)
     && negb (existsb
                (fun trans =>
                   Py.contains trans (Py.last_n 50 (d_text scene_data)))
                closing_markers)
  then
    shot <- _create_closing_shot scene_number shot_number scene_data ;;
    Py.Ok (shots ++ [shot])%list
  else Py.Ok shots.

Definition _generate_video_shots (scene_number : nat) (scene_data : SceneData)
    (action_blocks : list string) (dialogue_blocks : list DialogueBlock)
    (voice_overs : list VoiceOver) : Py.result (list VideoShot) :=
  e1 <- establishing_rule scene_number scene_data action_blocks ([], 1) ;;
  let e2 := fold_left (action_step scene_number scene_data voice_overs)
                      action_blocks e1 in
  let e3 := dialogue_rule scene_number scene_data dialogue_blocks e2 in
  let e4 := fold_left (voice_over_step scene_number) voice_overs e3 in
  closing_rule scene_number scene_data e4.

(** ** [_process_scene] *)

(** One round of the loop over [transition_patterns]: a pattern found in a
    window replaces what an earlier pattern had set. *)
Definition transition_step (before_text after_text : string)
    (scene_number : nat) (acc : option Transition * option Transition)
    (pattern : regex) : option Transition * option Transition :=
  let transition_in :=
    match search pattern before_text with
    | Some m =>
        Some (mkTransition (Py.rstrip_colon (group_str 1 m))
                (if Nat.ltb 1 scene_number
                 then Py.str (scene_number - 1) else "OPENING")
                (Py.str scene_number))
    | None => fst acc
    end in
  let transition_out :=
    match search pattern after_text with
    | Some m =>
        Some (mkTransition (Py.rstrip_colon (group_str 1 m))
                (Py.str scene_number) (Py.str (scene_number + 1)))
    | None => snd acc
    end in
  (transition_in, transition_out).

Definition _process_scene (scene_data : SceneData) (scene_number : nat)
    (transitions : list Transition) (voice_overs : list VoiceOverEntry)
    (full_content : string) : Py.result EnhancedScene :=
  let scene_text := d_text scene_data in
  let st := scan_lines (d_heading scene_data) scene_text in
  let action_blocks := l_action_blocks st in
  let dialogue_blocks := l_dialogue_blocks st in
  let scene_voice_overs := l_scene_voice_overs st in
  let scene_type :=
    _detect_scene_type scene_text
                       (Py.get_default (d_type scene_data) "PRESENT") in
  shots <- _generate_video_shots scene_number scene_data action_blocks
                                 dialogue_blocks scene_voice_overs ;;
  let scene_start := d_start scene_data in
  let scene_end := d_end scene_data in
  let before_text := Py.slice (scene_start - 100) scene_start full_content in
  let after_text :=
    Py.slice scene_end
             (Nat.min (String.length full_content) (scene_end + 100))
             full_content in
  let '(transition_in, transition_out) :=
    fold_left (transition_step before_text after_text scene_number)
              transition_patterns (None, None) in
  location <- Py.getitem "location" (d_location scene_data) ;;
  time <- Py.getitem "time" (d_time scene_data) ;;
  Py.Ok {| scene_number := Py.str scene_number;
           heading := d_heading scene_data;
           location := location;
           time_of_day := time;
           scene_type := scene_type;
           description := match action_blocks with
                          | first :: _ => Py.join " " [first]
                          | [] => ""
                          end;
           action_blocks := action_blocks;
           dialogue_blocks := dialogue_blocks;
           voice_overs := scene_voice_overs;
           shots := shots;
           transitions_in := transition_in;
           transitions_out := transition_out |}.

(** ** [parse]

    [parse] reads the file through a document reader and then works on its
    text alone; the second component of its result, the statistics, is a
    table of counts taken over the scenes returned.  The model starts at
    the text and returns the scenes. *)
Definition parse (content : string) : Py.result (list EnhancedScene) :=
  let scenes := _extract_scenes content in
  let transitions := _extract_transitions content in
  let voice_overs := _extract_voice_overs content in
  Py.mapM
    (fun '(i, scene_data) =>
       _process_scene scene_data (i + 1) transitions voice_overs content)
    (Py.enumerate_from 0 scenes).

End Parser.

End AdvancedScriptParser.

(* ================================================================== *)
(** * [film_crew_ai.py]: ScriptParser *)
(* ================================================================== *)

Module ScriptParser.
Import Re.

Record Shot : Type := mkShot {
  shot_id : string;
  shot_scene_number : nat;
  shot_number : nat;
  scene_heading : string;
  action : string;
  dialogue : list string;
  shot_type : string;
  duration : string
}.

Record DialogueBlock : Type := mkDialogueBlock {
  character : string;
  lines : list string
}.

Record Scene : Type := mkScene {
  scene_number : nat;
  heading : string;
  location : string;
  time_of_day : string;
  action_blocks : list string;
  dialogue_blocks : list DialogueBlock;
  shots : list Shot
}.

(** The class after the location, as the file spells it: the hyphen and
    the character 0xE2 (the two further members of the class lie outside
    the alphabet). *)
Definition dash (c : ascii) : bool :=
  Ascii.eqb c "-" || Ascii.eqb c (ascii_of_nat 226).
Definition upper_or_space (c : ascii) : bool :=
  Py.isupper_c c || Py.isspace_c c.
Definition not_rparen (c : ascii) : bool := negb (Ascii.eqb c ")").

(** [^(INT\.|EXT\.|INT/EXT\.)\s+(.+?)\s*[-...]\s*(.+)$] with MULTILINE. *)
Definition scene_pattern : regex :=
  seqs [ Bol true;
         Grp 1 (alts [lit "INT."; lit "EXT."; lit "INT/EXT."]);
         plus space; Grp 2 (plus_lazy dot);
         Star space; Cls dash; Star space;
         Grp 3 (plus dot); Eol true ].

(** [^[A-Z][A-Z\s]+(\([^)]+\))?$] *)
Definition character_pattern : regex :=
  seqs [ Bol false; Cls Py.isupper_c; plus upper_or_space;
         Opt (Grp 1 (seqs [Cls (chr_is "("); plus not_rparen;
                           Cls (chr_is ")")]));
         Eol false ].

(** [^\([^)]+\)$] *)
Definition parenthetical_pattern : regex :=
  seqs [ Bol false; Cls (chr_is "("); plus not_rparen; Cls (chr_is ")");
         Eol false ].

Definition matches (r : regex) (s : string) : bool := is_some (rematch r s).

(** ** [_generate_shots] *)

(** [f"{scene_number}-{k}"] *)
Definition make_shot_id (scene_number k : nat) : string :=
  Py.str scene_number ++ "-" ++ Py.str k.

Definition _generate_shots (scene_number : nat) (heading : string)
    (action_blocks : list string) (dialogue_blocks : list DialogueBlock)
    : list Shot :=
  (* Always start with establishing shot *)
  let shots :=
    [ {| shot_id := make_shot_id scene_number 1;
         shot_scene_number := scene_number;
         shot_number := 1;
         scene_heading := heading;
         action := Py.join " " (firstn 1 action_blocks);
         dialogue := [];
         shot_type := "WIDE ESTABLISHING";
         duration := "5-8 seconds" |} ] in
  (* Add coverage shots based on content *)
  let shots :=
    if Nat.ltb 1 (List.length action_blocks)
       || negb (Nat.eqb (List.length dialogue_blocks) 0)
    then (shots ++
          [ {| shot_id := make_shot_id scene_number 2;
               shot_scene_number := scene_number;
               shot_number := 2;
               scene_heading := heading;
               action := Py.join " " (firstn 1 (skipn 1 action_blocks));
               dialogue := map character (firstn 2 dialogue_blocks);
               shot_type := "MEDIUM";
               duration := "3-5 seconds" |} ])%list
    else shots in
  (* Add close-ups for dialogue *)
  if Nat.ltb 2 (List.length dialogue_blocks)
  then (shots ++
        [ {| shot_id := make_shot_id scene_number 3;
             shot_scene_number := scene_number;
             shot_number := 3;
             scene_heading := heading;
             action := "";
             dialogue := map character (skipn 2 dialogue_blocks);
             shot_type := "CLOSE-UP";
             duration := "2-4 seconds" |} ])%list
  else shots.

(** ** [_parse_scene] *)

Definition flush (action_blocks current_block : list string) : list string :=
  match current_block with
  | [] => action_blocks
  | _ => (action_blocks ++ [Py.join " " current_block])%list
  end.

Fixpoint append_to_last (line : string) (bs : list DialogueBlock)
    : list DialogueBlock :=
  match bs with
  | [] => []
  | [b] => [mkDialogueBlock (character b) (lines b ++ [line])%list]
  | b :: bs' => b :: append_to_last line bs'
  end.

(** [action_blocks], [dialogue_blocks] and [current_block]. *)
Definition Blocks : Type :=
  (list string * list DialogueBlock * list string)%type.

Definition line_step (st : Blocks) (line : string) : Blocks :=
  let '(action_blocks, dialogue_blocks, current_block) := st in
  let line := Py.strip line in
  if Py.is_empty line then
    (flush action_blocks current_block, dialogue_blocks, [])
  else if matches character_pattern line then
    (* Start of dialogue *)
    (flush action_blocks current_block,
     (dialogue_blocks ++ [mkDialogueBlock line []])%list, [])
  else if negb (Nat.eqb (List.length dialogue_blocks) 0)
          && negb (matches parenthetical_pattern line) then
    (action_blocks, append_to_last line dialogue_blocks, current_block)
  else
    (action_blocks, dialogue_blocks, (current_block ++ [line])%list).

Definition _parse_scene (scene_number : nat) (scene_text : string) : Scene :=
  let lines := Py.split_on Py.LF (Py.strip scene_text) in
  let '(int_ext, location, time_of_day) :=
    match rematch scene_pattern (hd "" lines) with
    | Some heading_match =>
        (group_str 1 heading_match, group_str 2 heading_match,
         group_str 3 heading_match)
    | None => ("INT.", "UNKNOWN", "DAY")
    end in
  let heading := int_ext ++ " " ++ location ++ " - " ++ time_of_day in
  let '(action_blocks, dialogue_blocks, current_block) :=
    fold_left line_step (tl lines) ([], [], []) in
  let action_blocks := flush action_blocks current_block in
  {| scene_number := scene_number;
     heading := heading;
     location := location;
     time_of_day := time_of_day;
     action_blocks := action_blocks;
     dialogue_blocks := dialogue_blocks;
     shots := _generate_shots scene_number heading action_blocks
                              dialogue_blocks |}.

(** ** [_create_default_scene] *)

Definition _create_default_scene (content : string) : Scene :=
  let location :=
    if Py.contains "INT." (Py.upper content) then "INTERIOR"
    else if Py.contains "EXT." (Py.upper content) then "EXTERIOR"
    else "LOCATION" in
  let time_of_day :=
    if Py.contains "NIGHT" (Py.upper content) then "NIGHT"
    else if Py.contains "MORNING" (Py.upper content) then "MORNING"
    else "DAY" in
  let heading := "INT. " ++ location ++ " - " ++ time_of_day in
  {| scene_number := 1;
     heading := heading;
     location := location;
     time_of_day := time_of_day;
     action_blocks := [content];
     dialogue_blocks := [];
     shots := _generate_shots 1 heading [content] [] |}.

(** ** [parse], from the text of the file on *)

Fixpoint scenes_of_matches (content : string) (i : nat) (ms : list rmatch)
    : list Scene :=
  match ms with
  | [] => []
  | m :: ms' =>
      let scene_start := m_start m in
      let scene_end :=
        match ms' with
        | m' :: _ => m_start m'
        | [] => String.length content
        end in
      let scene_text := Py.slice scene_start scene_end content in
      _parse_scene (i + 1) scene_text :: scenes_of_matches content (S i) ms'
  end.

Definition parse (content : string) : list Scene :=
  match finditer scene_pattern content with
  | [] => [_create_default_scene content]
  | ms => scenes_of_matches content 0 ms
  end.

End ScriptParser.

(* ================================================================== *)
(** * [archive/film_crew_ai_enhanced.py]: EnhancedScriptParser *)
(* ================================================================== *)

Module EnhancedScriptParser.
Import Re.

(** ** Data models (fields left at their defaults keep the default) *)

Record Character : Type := mkCharacter {
  name : string;
  physical_description : string;
  wardrobe : string;
  emotional_state : string;
  position : string;
  movement : string
}.

Record Environment : Type := mkEnvironment {
  env_location : string;
  env_time_of_day : string;
  setting_description : string;
  props : list string;
  environmental_conditions : string;
  background_elements : list string
}.

Record CameraSetup : Type := mkCameraSetup {
  cam_shot_type : string;
  camera_movement : string;
  framing : string;
  composition : string;
  focus : string;
  depth_of_field : string
}.

Record LightingSetup : Type := mkLightingSetup {
  sources : list string;
  direction : string;
  color_temperature : string;
  intensity : string;
  shadows : string;
  contrast : string;
  mood : string;
  atmosphere : string
}.

Record Shot : Type := mkShot {
  shot_scene_number : string;
  shot_number : string;
  shot_id : string;
  scene_heading : string;
  action : string;
  dialogue : list string;
  characters : list Character;
  environment : Environment;
  camera : CameraSetup;
  lighting : LightingSetup;
  duration : string;
  veo3_prompt : string;
  metadata : list (string * string)
}.

Record DialogueBlock : Type := mkDialogueBlock {
  character : string;
  lines : list string
}.

Record Scene : Type := mkScene {
  scene_number : string;
  heading : string;
  location : string;
  time_of_day : string;
  action_blocks : list string;
  dialogue_blocks : list DialogueBlock;
  shots : list Shot
}.

(** ** Patterns *)

(** [[-–]] *)
Definition dash (c : ascii) : bool := Ascii.eqb c "-".
Definition upper_or_space (c : ascii) : bool :=
  Py.isupper_c c || Py.isspace_c c.
Definition not_rparen (c : ascii) : bool := negb (Ascii.eqb c ")").

(** [^(INT\.|EXT\.|INT/EXT\.)\s+(.+?)\s*[-–]\s*(.+)$] with MULTILINE. *)
Definition scene_pattern : regex :=
  seqs [ Bol true;
         Grp 1 (alts [lit "INT."; lit "EXT."; lit "INT/EXT."]);
         plus space; Grp 2 (plus_lazy dot);
         Star space; Cls dash; Star space;
         Grp 3 (plus dot); Eol true ].

(** [^[A-Z][A-Z\s]+(\([^)]+\))?$] *)
Definition character_pattern : regex :=
  seqs [ Bol false; Cls Py.isupper_c; plus upper_or_space;
         Opt (Grp 1 (seqs [Cls (chr_is "("); plus not_rparen;
                           Cls (chr_is ")")]));
         Eol false ].

(** [^\([^)]+\)$] *)
Definition parenthetical_pattern : regex :=
  seqs [ Bol false; Cls (chr_is "("); plus not_rparen; Cls (chr_is ")");
         Eol false ].

Definition matches (r : regex) (s : string) : bool := is_some (rematch r s).

(** ** Scene numbers

    [str(scene_number)], replaced above 26 by
    [f"{scene_number // 26}{chr(65 + (scene_number % 26))}"]. *)
Definition scene_num_str (scene_number : nat) : string :=
  if Nat.ltb 26 scene_number
  then Py.str (scene_number / 26) ++ Py.chr (65 + scene_number mod 26)
  else Py.str scene_number.

(** ** [_extract_characters], [_extract_environment_conditions] *)

Definition has_name (n : string) (cs : list Character) : bool :=
  existsb (fun c => String.eqb (name c) n) cs.

Definition character_of (d : DialogueBlock) : Character :=
  let parts := Py.split_on "(" (character d) in
  let char_name := Py.strip (hd "" parts) in
  let emotional_state :=
    if Py.contains "(" (character d)
    then Py.rstrip_by (Ascii.eqb ")") (nth 1 parts "")
    else "" in
  mkCharacter char_name "" "" emotional_state "" "".

Definition _extract_characters (dialogue_blocks : list DialogueBlock)
    : list Character :=
  fold_left
    (fun characters d =>
       let c := character_of d in
       if has_name (name c) characters then characters
       else (characters ++ [c])%list)
    dialogue_blocks [].

Definition _extract_environment_conditions (heading : string) : string :=
  let heading_lower := Py.lower heading in
  let has w := Py.contains w heading_lower in
  let conditions :=
    ((if has "rain" then ["raining"] else []) ++
     (if has "snow" then ["snowing"] else []) ++
     (if has "fog" then ["foggy"] else []) ++
     (if has "storm" then ["stormy"] else []) ++
     (if has "night" then ["dark"]
      else if has "dawn" || has "sunrise" then ["dawn lighting"]
      else if has "dusk" || has "sunset" then ["golden hour"]
      else []))%list in
  match conditions with
  | [] => "normal"
  | _ => Py.join ", " conditions
  end.

(** ** [_generate_enhanced_shots] *)

Definition Emitted : Type := (list Shot * nat)%type.

Definition dialogue_step (scene_num_str heading : string)
    (environment : Environment) (e : Emitted) (id : nat * DialogueBlock)
    : Emitted :=
  let '(shots, shot_num) := e in
  let '(i, d) := id in
  let camera :=
    mkCameraSetup (if Nat.eqb i 0 then "MEDIUM" else "CLOSE-UP")
                  "subtle drift"
                  (if Nat.ltb 0 i then "medium close" else "medium")
                  "center framed" "" "shallow" in
  let lighting :=
    mkLightingSetup ["key light"; "fill light"] "" "" "" "" "medium"
                    (if Nat.ltb 1 i then "dramatic" else "natural") "" in
  ((shots ++
    [ {| shot_scene_number := scene_num_str;
         shot_number := Py.fmt03d shot_num;
         shot_id := scene_num_str ++ "-" ++ Py.fmt03d shot_num;
         scene_heading := heading;
         action := "";
         dialogue := [character d];
         characters := _extract_characters [d];
         environment := environment;
         camera := camera;
         lighting := lighting;
         duration := "3-5 seconds";
         veo3_prompt := "";
         metadata := [("type", "dialogue"); ("character", character d)] |} ])
   %list, S shot_num).

Definition action_step (scene_num_str heading : string)
    (environment : Environment) (establishing_lighting : LightingSetup)
    (e : Emitted) (ia : nat * string) : Emitted :=
  let '(shots, shot_num) := e in
  let '(i, act) := ia in
  let camera :=
    mkCameraSetup (if Nat.eqb i 0 then "MEDIUM" else "CLOSE-UP")
                  (if Py.contains "run" (Py.lower act)
                   then "handheld" else "static")
                  "dynamic" "" "selective" "" in
  ((shots ++
    [ {| shot_scene_number := scene_num_str;
         shot_number := Py.fmt03d shot_num;
         shot_id := scene_num_str ++ "-" ++ Py.fmt03d shot_num;
         scene_heading := heading;
         action := act;
         dialogue := [];
         characters := [];
         environment := environment;
         camera := camera;
         lighting := establishing_lighting;
         duration := "2-4 seconds";
         veo3_prompt := "";
         metadata := [("type", "action")] |} ])%list, S shot_num).

Definition _generate_enhanced_shots (scene_number : nat)
    (heading location time_of_day : string) (action_blocks : list string)
    (dialogue_blocks : list DialogueBlock) : list Shot :=
  let shot_num := 1 in
  (* Scene number as string *)
  let scene_num_str := scene_num_str scene_number in
  let environment :=
    mkEnvironment location time_of_day
                  (Py.join " " (firstn 1 action_blocks)) []
                  (_extract_environment_conditions heading) [] in
  let establishing_camera :=
    mkCameraSetup "WIDE ESTABLISHING" "slow push in" "wide" "rule of thirds"
                  "" "deep" in
  let establishing_lighting :=
    mkLightingSetup [if Py.contains "DAY" time_of_day
                     then "natural" else "practical"]
                    "" "" "" "" "" "atmospheric" "cinematic" in
  let e : Emitted :=
    ([ {| shot_scene_number := scene_num_str;
          shot_number := Py.fmt03d shot_num;
          shot_id := scene_num_str ++ "-" ++ Py.fmt03d shot_num;
          scene_heading := heading;
          action := Py.join " " (firstn 1 action_blocks);
          dialogue := [];
          characters := _extract_characters dialogue_blocks;
          environment := environment;
          camera := establishing_camera;
          lighting := establishing_lighting;
          duration := "5-8 seconds";
          veo3_prompt := "";
          metadata := [("type", "establishing")] |} ], S shot_num) in
  (* Coverage shots for dialogue: limit to 3 main exchanges *)
  let e := fold_left (dialogue_step scene_num_str heading environment)
                     (Py.enumerate_from 0 (firstn 3 dialogue_blocks)) e in
  (* Action shots *)
  let e :=
    if Nat.ltb 1 (List.length action_blocks)
    then fold_left (action_step scene_num_str heading environment
                                establishing_lighting)
                   (Py.enumerate_from 0 (firstn 2 (skipn 1 action_blocks))) e
    else e in
  fst e.

(** ** [_parse_scene] *)

Definition flush (action_blocks current_block : list string) : list string :=
  match current_block with
  | [] => action_blocks
  | _ => (action_blocks ++ [Py.join " " current_block])%list
  end.

Fixpoint append_to_last (line : string) (bs : list DialogueBlock)
    : list DialogueBlock :=
  match bs with
  | [] => []
  | [b] => [mkDialogueBlock (character b) (lines b ++ [line])%list]
  | b :: bs' => b :: append_to_last line bs'
  end.

Definition Blocks : Type :=
  (list string * list DialogueBlock * list string)%type.

Definition line_step (st : Blocks) (line : string) : Blocks :=
  let '(action_blocks, dialogue_blocks, current_block) := st in
  let line := Py.strip line in
  if Py.is_empty line then
    (flush action_blocks current_block, dialogue_blocks, [])
  else if matches character_pattern line then
    (flush action_blocks current_block,
     (dialogue_blocks ++ [mkDialogueBlock line []])%list, [])
  else if negb (Nat.eqb (List.length dialogue_blocks) 0)
          && negb (matches parenthetical_pattern line) then
    (action_blocks, append_to_last line dialogue_blocks, current_block)
  else
    (action_blocks, dialogue_blocks, (current_block ++ [line])%list).

Definition _parse_scene (scene_number : nat) (scene_text : string) : Scene :=
  let lines := Py.split_on Py.LF (Py.strip scene_text) in
  let '(int_ext, location, time_of_day) :=
    match rematch scene_pattern (hd "" lines) with
    | Some heading_match =>
        (group_str 1 heading_match, group_str 2 heading_match,
         group_str 3 heading_match)
    | None => ("INT.", "UNKNOWN", "DAY")
    end in
  let heading := int_ext ++ " " ++ location ++ " - " ++ time_of_day in
  let '(action_blocks, dialogue_blocks, current_block) :=
    fold_left line_step (tl lines) ([], [], []) in
  let action_blocks := flush action_blocks current_block in
  let shots :=
    _generate_enhanced_shots scene_number heading location time_of_day
                             action_blocks dialogue_blocks in
  (* Use string format for scene numbers to support "1A" format *)
  {| scene_number := scene_num_str scene_number;
     heading := heading;
     location := location;
     time_of_day := time_of_day;
     action_blocks := action_blocks;
     dialogue_blocks := dialogue_blocks;
     shots := shots |}.

(** ** [_create_default_scene] *)

Definition _create_default_scene (content : string) : Scene :=
  let location :=
    if Py.contains "INT." (Py.upper content) then "INTERIOR"
    else if Py.contains "EXT." (Py.upper content) then "EXTERIOR"
    else "LOCATION" in
  let time_of_day :=
    if Py.contains "NIGHT" (Py.upper content) then "NIGHT"
    else if Py.contains "MORNING" (Py.upper content) then "MORNING"
    else "DAY" in
  let heading := "INT. " ++ location ++ " - " ++ time_of_day in
  {| scene_number := "1";
     heading := heading;
     location := location;
     time_of_day := time_of_day;
     action_blocks := [content];
     dialogue_blocks := [];
     shots := _generate_enhanced_shots 1 heading location time_of_day
                                       [content] [] |}.

(** ** [parse], from the text the document reader returns *)

Fixpoint scenes_of_matches (content : string) (i : nat) (ms : list rmatch)
    : list Scene :=
  match ms with
  | [] => []
  | m :: ms' =>
      let scene_start := m_start m in
      let scene_end :=
        match ms' with
        | m' :: _ => m_start m'
        | [] => String.length content
        end in
      let scene_text := Py.slice scene_start scene_end content in
      _parse_scene (i + 1) scene_text :: scenes_of_matches content (S i) ms'
  end.

Definition parse (content : string) : list Scene :=
  match finditer scene_pattern content with
  | [] => [_create_default_scene content]
  | ms => scenes_of_matches content 0 ms
  end.

End EnhancedScriptParser.

(* ================================================================== *)
(** * Definitions used by the statements *)
(* ================================================================== *)

(** Iteration orders a set of strings can have: the elements as [nodup]
    lists them, the same elements backwards, and backwards twice over. *)
Definition forward_order : Py.SetOrder :=
  {| Py.list_of_set := nodup string_dec;
     Py.list_of_set_perm := fun l => Permutation_refl (nodup string_dec l) |}.

Definition backward_order : Py.SetOrder :=
  {| Py.list_of_set := fun l => rev (nodup string_dec l);
     Py.list_of_set_perm :=
       fun l => Permutation_sym (Permutation_rev (nodup string_dec l)) |}.

Definition twice_backward_order : Py.SetOrder :=
  {| Py.list_of_set := fun l => rev (rev (nodup string_dec l));
     Py.list_of_set_perm :=
       fun l =>
         Permutation_sym
           (Permutation_trans (Permutation_rev (nodup string_dec l))
                              (Permutation_rev (rev (nodup string_dec l)))) |}.

(** [s * n] *)
Fixpoint repeat_str (s : string) (n : nat) : string :=
  match n with
  | O => ""
  | S n' => s ++ repeat_str s n'
  end.

Module Samples.

(** A script without any scene heading. *)
Definition no_heading : string :=
  Py.text ["JOHN walks in."; ""; "He sits down."].

(** Scenario 1 of the specification. *)
Definition scenario1 : string :=
  Py.text ["INT. OFFICE - DAY"; ""; "JOHN sits."; ""; "JOHN"; "Hello."; "";
           "EXT. STREET - NIGHT"; ""; "FADE OUT."].

(** Scenario 4: an action block of 150 characters that has the word
    handheld in it. *)
Definition handheld_action : string :=
  "The handheld camera follows her down the alley" ++
  repeat_str ", past doors" 8 ++ ", slowly".
Definition scenario4 : string := Py.text ["INT. ALLEY - NIGHT"; handheld_action].

(** Scenario 2 of the specification, as a whole script and inside a scene. *)
Definition scenario2 : string :=
  Py.text ["SARAH (V.O.)"; "Every morning starts the same."].

Definition voice_over_scene : string :=
  Py.text ["INT. KITCHEN - DAY"; "SARAH (V.O.)";
           "Every morning starts the same."].

Definition off_screen_scene : string :=
  Py.text ["INT. KITCHEN - DAY"; "SARAH (O.S.)"; "Hello."].

(** A scene that continues the one before it and has no content. *)
Definition continuation : string := "INT. OFFICE - CONTINUOUS".

(** Stop words and a two-letter word, each on a line of its own. *)
Definition stop_word_lines : string :=
  Py.text ["INT. OFFICE - DAY"; "THE"; "Hello."; ""; "AB"; "Bye."].

(** A line of action; stripped of its last space it has 220 characters. *)
Definition long_action : string := repeat_str "A long corridor. " 13.
Definition long_action_scene : string :=
  Py.text ["INT. HALL - DAY"; long_action].

(** An action block that names two characters and a camera movement. *)
Definition two_names : string :=
  Py.text ["INT. OFFICE - DAY"; "JOHN and MARY pan the room."].

(** Three dialogue blocks between two characters. *)
Definition three_blocks : list AdvancedScriptParser.DialogueBlock :=
  [ AdvancedScriptParser.mkDialogueBlock "ANNA" ["Hi."];
    AdvancedScriptParser.mkDialogueBlock "BEN" ["Hello."];
    AdvancedScriptParser.mkDialogueBlock "ANNA" ["Bye."] ].

(** Four exchanges between two characters. *)
Definition four_exchanges : string :=
  Py.text ["INT. CAFE - DAY";
           "ANNA"; "One."; "BEN"; "Two.";
           "ANNA"; "Three."; "BEN"; "Four.";
           "ANNA"; "Five."; "BEN"; "Six.";
           "ANNA"; "Seven."; "BEN"; "Eight."].

Definition office : AdvancedScriptParser.SceneData :=
  AdvancedScriptParser.mkSceneData 0 17 "INT. OFFICE - DAY" (Some "OFFICE")
    (Some "DAY") (Some "PRESENT") "INT. OFFICE - DAY".

End Samples.

(** The grouping rule as the specification words it: a new shot is forced
    exactly when the next block would bring a third distinct character into
    the shot, or the shot already holds three or more dialogue entries. *)
Definition claimed_needs_new_shot (shot : AdvancedScriptParser.VideoShot)
    (new_character : string) : bool :=
  let frame := AdvancedScriptParser.characters_in_frame shot in
  (Nat.leb 2 (List.length frame)
   && negb (AdvancedScriptParser.mem
              (AdvancedScriptParser.bare_name new_character) frame))
  || Nat.leb 3 (List.length (AdvancedScriptParser.dialogue shot)).

(** Shots, and scenes, that agree in everything but the order of the names
    in [characters_in_frame] of a shot without dialogue that names two or
    more characters; such a shot is one of the action rule. *)
Definition same_shot (a b : AdvancedScriptParser.VideoShot) : Prop :=
  AdvancedScriptParser.shot_id a = AdvancedScriptParser.shot_id b /\
  AdvancedScriptParser.shot_scene_number a
    = AdvancedScriptParser.shot_scene_number b /\
  AdvancedScriptParser.shot_number a = AdvancedScriptParser.shot_number b /\
  AdvancedScriptParser.shot_type a = AdvancedScriptParser.shot_type b /\
  AdvancedScriptParser.shot_description a
    = AdvancedScriptParser.shot_description b /\
  AdvancedScriptParser.duration a = AdvancedScriptParser.duration b /\
  AdvancedScriptParser.camera_movement a
    = AdvancedScriptParser.camera_movement b /\
  Permutation (AdvancedScriptParser.characters_in_frame a)
              (AdvancedScriptParser.characters_in_frame b) /\
  AdvancedScriptParser.dialogue a = AdvancedScriptParser.dialogue b /\
  AdvancedScriptParser.shot_voice_overs a
    = AdvancedScriptParser.shot_voice_overs b /\
  AdvancedScriptParser.is_flashback a = AdvancedScriptParser.is_flashback b /\
  AdvancedScriptParser.is_montage a = AdvancedScriptParser.is_montage b /\
  AdvancedScriptParser.visual_effects a
    = AdvancedScriptParser.visual_effects b /\
  (AdvancedScriptParser.dialogue a <> [] \/
   List.length (AdvancedScriptParser.characters_in_frame a) <= 1 ->
   AdvancedScriptParser.characters_in_frame a
   = AdvancedScriptParser.characters_in_frame b).

Definition same_scene (a b : AdvancedScriptParser.EnhancedScene) : Prop :=
  AdvancedScriptParser.scene_number a = AdvancedScriptParser.scene_number b /\
  AdvancedScriptParser.heading a = AdvancedScriptParser.heading b /\
  AdvancedScriptParser.location a = AdvancedScriptParser.location b /\
  AdvancedScriptParser.time_of_day a = AdvancedScriptParser.time_of_day b /\
  AdvancedScriptParser.scene_type a = AdvancedScriptParser.scene_type b /\
  AdvancedScriptParser.description a = AdvancedScriptParser.description b /\
  AdvancedScriptParser.action_blocks a
    = AdvancedScriptParser.action_blocks b /\
  AdvancedScriptParser.dialogue_blocks a
    = AdvancedScriptParser.dialogue_blocks b /\
  AdvancedScriptParser.voice_overs a = AdvancedScriptParser.voice_overs b /\
  Forall2 same_shot (AdvancedScriptParser.shots a)
                    (AdvancedScriptParser.shots b) /\
  AdvancedScriptParser.transitions_in a
    = AdvancedScriptParser.transitions_in b /\
  AdvancedScriptParser.transitions_out a
    = AdvancedScriptParser.transitions_out b.

(** Results of two runs that agree up to that order. *)
Definition same_result
    (a b : Py.result (list AdvancedScriptParser.EnhancedScene)) : Prop :=
  match a, b with
  | Py.Ok sa, Py.Ok sb => Forall2 same_scene sa sb
  | Py.Raise ea, Py.Raise eb => ea = eb
  | _, _ => False
  end.

(** A shot within the caps of dialogue coverage. *)
Definition within_caps (s : AdvancedScriptParser.VideoShot) : Prop :=
  List.length (AdvancedScriptParser.characters_in_frame s) <= 2 /\
  1 <= List.length (AdvancedScriptParser.dialogue s) <= 3.

(** The number of dialogue entries a list of shots holds. *)
Definition entries (l : list AdvancedScriptParser.VideoShot) : nat :=
  list_sum (map (fun s => List.length (AdvancedScriptParser.dialogue s)) l).

(** The grouping of dialogue blocks as the amended claim words it, to be
    compared with the loop of the code: consecutive blocks share a shot, and
    a new shot is started when none is open, or the open one has two
    characters in frame, or it holds three entries. *)
Module SpecGrouping.
Import AdvancedScriptParser.

(** The entry a dialogue block makes in its shot. *)
Definition spec_entry (d : DialogueBlock) : string := Py.join " " (lines d).

(** The characters a group of blocks puts in frame: each speaker once, in
    the order of first speech. *)
Definition spec_frame (g : list DialogueBlock) : list string :=
  fold_left
    (fun frame d =>
       if mem (bare_name (character d)) frame then frame
       else (frame ++ [bare_name (character d)])%list)
    g [].

Definition spec_full (g : list DialogueBlock) : bool :=
  Nat.leb 2 (List.length (spec_frame g)) || Nat.leb 3 (List.length g).

(** The groups of [blocks], [open] being the group that is open. *)
Fixpoint spec_groups (open blocks : list DialogueBlock)
    : list (list DialogueBlock) :=
  match blocks with
  | [] => match open with [] => [] | _ => [open] end
  | d :: rest =>
      match open with
      | [] => spec_groups [d] rest
      | _ => if spec_full open then open :: spec_groups [d] rest
             else spec_groups (open ++ [d])%list rest
      end
  end.

(** The open shot of the loop stands for the open group. *)
Definition stands_for (current : option VideoShot)
    (open : list DialogueBlock) : Prop :=
  match current with
  | None => open = []
  | Some shot =>
      open <> [] /\ dialogue shot = map spec_entry open /\
      characters_in_frame shot = spec_frame open
  end.

End SpecGrouping.

(** The test of the line loop of [_process_scene] under which a line opens
    a dialogue block: the stripped line is not empty, is no (V.O.) cue,
    matches the character pattern and is upper case. *)
Definition opens_dialogue (line : string) : bool :=
  let line_stripped := Py.strip line in
  negb (Py.is_empty line_stripped)
  && negb (Re.is_some
             (Re.rematch AdvancedScriptParser.vo_pattern line_stripped))
  && AdvancedScriptParser.matches AdvancedScriptParser.character_pattern
                                  line_stripped
  && Py.isupper line_stripped.

(** A scene text whose lines after the first are all blank. *)
Definition no_content (scene_text : string) : Prop :=
  Forall (fun line => Py.strip line = "") (tl (Py.split_on Py.LF scene_text)).

(* ================================================================== *)
(** * Invariants and relations used in the proofs *)
(* ================================================================== *)

Module Invariants.
Import AdvancedScriptParser.

(** What [_extract_scenes] builds from a heading match has all its keys. *)
Definition complete (sd : SceneData) : Prop :=
  (exists loc, d_location sd = Some loc) /\
  (exists time, d_time sd = Some time) /\
  (d_type sd = Some "PRESENT" \/ d_type sd = Some "FLASHBACK").

(** [shots] is [pre] followed by shots that all satisfy [Q]. *)
Definition grown (Q : VideoShot -> Prop) (pre shots : list VideoShot) : Prop :=
  exists l, shots = (pre ++ l)%list /\ Forall Q l.

(** The same for the state of the dialogue loop, open shot included. *)
Definition coverage_ok (Q : VideoShot -> Prop) (pre : list VideoShot)
    (c : Coverage) : Prop :=
  grown Q pre (fst (fst c)) /\
  match snd c with Some s => Q s | None => True end.

Definition not_establishing (s : VideoShot) : Prop :=
  shot_type s <> "WIDE ESTABLISHING".

Definition during_scene (vo : VoiceOver) : Prop :=
  vo_timing vo = "during_scene".

Definition plain (s : VideoShot) : Prop :=
  shot_type s <> "VARIOUS" /\ is_montage s = false.

Definition open_entries (current : option VideoShot) : nat :=
  match current with
  | Some s => List.length (dialogue s)
  | None => 0
  end.

(** The state of the dialogue loop after [m] blocks: what it has added to
    [shots0] and the open shot are within the caps and hold [m] entries. *)
Definition covered (shots0 : list VideoShot) (m : nat) (c : Coverage) : Prop :=
  exists new,
    fst (fst c) = (shots0 ++ new)%list /\ Forall within_caps new /\
    match snd c with Some s => within_caps s | None => True end /\
    entries new + open_entries (snd c) = m.

(** Lists of shots that agree up to frame order, with the same counter. *)
Definition same_emitted (e1 e2 : Emitted) : Prop :=
  Forall2 same_shot (fst e1) (fst e2) /\ snd e1 = snd e2.

Definition same_coverage (c1 c2 : Coverage) : Prop :=
  Forall2 same_shot (fst (fst c1)) (fst (fst c2)) /\
  snd (fst c1) = snd (fst c2) /\ snd c1 = snd c2.

(** Results of a call that agree up to frame order. *)
Definition same_shots_result (a b : Py.result (list VideoShot)) : Prop :=
  match a, b with
  | Py.Ok sa, Py.Ok sb => Forall2 same_shot sa sb
  | Py.Raise ea, Py.Raise eb => ea = eb
  | _, _ => False
  end.

Definition same_scene_result (a b : Py.result EnhancedScene) : Prop :=
  match a, b with
  | Py.Ok sa, Py.Ok sb => same_scene sa sb
  | Py.Raise ea, Py.Raise eb => ea = eb
  | _, _ => False
  end.

End Invariants.

Module EnhancedInvariants.
Import EnhancedScriptParser.

(** A shot that carries the scene number string [num], also in its id. *)
Definition numbered (num : string) (s : Shot) : Prop :=
  shot_scene_number s = num /\
  shot_id s = num ++ "-" ++ shot_number s.

End EnhancedInvariants.

(* ================================================================== *)
(** * Further definitions: spans, counters, agents *)
(* ================================================================== *)

Module Matching.
Import Re.

(** A cursor that stands at its index in the subject [whole]. *)
Definition at_index (whole : string) (cu : cursor) : Prop :=
  rest cu = Py.drop (pos cu) whole /\ pos cu <= String.length whole.

(** The continuation [k] is reached with result [x] from [cu] on. *)
Definition reaches (whole : string) (k : cont) (cu : cursor)
    (x : nat * captures) : Prop :=
  exists cu' cs', at_index whole cu' /\ pos cu <= pos cu' /\
                  k cu' cs' = Some x.

(** A pattern every match of which ends at the end of a line. *)
Definition ends_line (whole : string) (r : regex) : Prop :=
  forall k cu cs x,
    at_index whole cu -> run r k cu cs = Some x ->
    exists cu' cs', at_index whole cu' /\ pos cu <= pos cu' /\
                    at_eol true cu' = true /\ k cu' cs' = Some x.

End Matching.

Module Spans.
Import AdvancedScriptParser.

(** Scene spans that follow one another without gap up to [stop]. *)
Fixpoint chained (stop : nat) (l : list SceneData) : Prop :=
  match l with
  | [] => True
  | sd :: l' =>
      match l' with
      | [] => d_end sd = stop
      | sd' :: _ => d_end sd = d_start sd' /\ chained stop l'
      end
  end.

(** The span of a scene lies in the text, and the scene's text is that
    span. *)
Definition in_text (content : string) (sd : SceneData) : Prop :=
  d_start sd <= d_end sd <= String.length content /\
  d_text sd = Py.slice (d_start sd) (d_end sd) content.

End Spans.
Module Labels.
Import AdvancedScriptParser.

(** What identifies a shot, and what the [j]-th shot of scene [n] is to
    carry. *)
Definition label (s : VideoShot) : string * string * string :=
  (shot_id s, shot_scene_number s, shot_number s).

Definition label_of (n j : nat) : string * string * string :=
  (make_shot_id n j, Py.str n, Py.fmt03d j).

(** Shots numbered 1, 2, ... in the order of the list. *)
Definition numbered (n : nat) (shots : list VideoShot) : Prop :=
  map label shots = map (label_of n) (seq 1 (List.length shots)).

Definition emitted_numbered (n : nat) (e : Emitted) : Prop :=
  numbered n (fst e) /\ snd e = S (List.length (fst e)).

Definition coverage_numbered (n : nat) (c : Coverage) : Prop :=
  numbered n (fst (fst c)) /\
  match snd c with
  | None => snd (fst c) = S (List.length (fst (fst c)))
  | Some s => label s = label_of n (S (List.length (fst (fst c)))) /\
              snd (fst c) = S (S (List.length (fst (fst c))))
  end.

(** The number a string of digits stands for, leading zeros allowed. *)
Definition number_of (s : string) : option nat :=
  option_map Nat.of_uint (NilEmpty.uint_of_string s).

(** All shot ids of a script, scene by scene. *)
Definition shot_ids (scenes : list EnhancedScene) : list string :=
  flat_map (fun s => map shot_id (shots s)) scenes.

End Labels.
Module LineLoop.
Import Re AdvancedScriptParser.

(** A line the loop of [_process_scene] takes as spoken: it is not blank,
    it is no cue, a cue is open, and it is no parenthetical. *)
Definition spoken (st : LoopState) (line : string) : bool :=
  let line_stripped := Py.strip line in
  negb (Py.is_empty line_stripped)
  && negb (is_some (rematch vo_pattern line_stripped))
  && negb (matches character_pattern line_stripped
           && Py.isupper line_stripped)
  && Py.truthy (l_current_character st)
  && negb (matches parenthetical_pattern line_stripped).

(** The open cue, if any, is a voice-over cue or the cue of the last
    dialogue block. *)
Definition cue_open (st : LoopState) : Prop :=
  match l_current_character st with
  | None => True
  | Some c =>
      Py.contains "(V.O.)" c = true \/
      exists bs b, l_dialogue_blocks st = (bs ++ [b])%list /\ character b = c
  end.

(** A string that starts and ends with a character that is no space. *)
Definition tidy (s : string) : Prop :=
  match s with
  | String c _ => Py.isspace_c c = false
  | EmptyString => False
  end /\ Py.rstrip_by Py.isspace_c s = s.

(** Python's [s and s == s.strip()]. *)
Definition stripped (s : string) : Prop := s <> "" /\ Py.strip s = s.

(** Every string the loop holds is tidy. *)
Definition filled (st : LoopState) : Prop :=
  Forall tidy (l_action_blocks st) /\
  Forall tidy (l_current_block st) /\
  Forall (fun b => tidy (character b) /\ Forall tidy (lines b))
         (l_dialogue_blocks st) /\
  Forall (fun vo => tidy (vo_text vo)) (l_scene_voice_overs st).

End LineLoop.
Module ShotOrder.
Import Re AdvancedScriptParser.

(** The test of the action rule: the block names a shot type or a camera
    movement, or is longer than 100 characters. *)
Definition gets_own_shot (action : string) : bool :=
  Py.truthy (_detect_shot_type action)
  || Py.truthy (_detect_camera_movement action)
  || Nat.ltb 100 (String.length action).

(** The entry a dialogue block makes in its shot. *)
Definition entry_of (d : DialogueBlock) : string := Py.join " " (lines d).

Definition open_dialogue (current : option VideoShot) : list string :=
  match current with
  | Some shot => dialogue shot
  | None => []
  end.

(** A shot of dialogue coverage: it has entries and no voice-over. *)
Definition speaks (shot : VideoShot) : Prop :=
  dialogue shot <> [] /\ shot_voice_overs shot = [].

(** A shot without characters, dialogue and voice-overs. *)
Definition bare (shot : VideoShot) : Prop :=
  characters_in_frame shot = [] /\ dialogue shot = [] /\
  shot_voice_overs shot = [].

End ShotOrder.
Module Joins.
Import AdvancedScriptParser.

(** A transition into scene [n], and one out of it. *)
Definition arrives (n : nat) (t : Transition) : Prop :=
  tr_to_scene t = Py.str n /\
  tr_from_scene t = (if Nat.ltb 1 n then Py.str (n - 1) else "OPENING") /\
  forall x, tr_type t <> x ++ ":".

Definition leaves (n : nat) (t : Transition) : Prop :=
  tr_from_scene t = Py.str n /\ tr_to_scene t = Py.str (n + 1) /\
  forall x, tr_type t <> x ++ ":".

Definition both (n : nat) (acc : option Transition * option Transition)
    : Prop :=
  (forall t, fst acc = Some t -> arrives n t) /\
  (forall t, snd acc = Some t -> leaves n t).

End Joins.

(* ================================================================== *)
(** * [film_crew_ai_advanced.py]: [_generate_statistics] *)
(* ================================================================== *)

Module Statistics.
Import AdvancedScriptParser.

(** A [defaultdict(int)]: the keys in the order of their first use. *)
Definition Counter : Type := list (string * nat).

(** [counter[key] += 1] *)
Fixpoint bump (key : string) (c : Counter) : Counter :=
  match c with
  | [] => [(key, 1)]
  | (k, v) :: c' =>
      if String.eqb k key then (k, S v) :: c' else (k, v) :: bump key c'
  end.

(** [counter.get(key, 0)] *)
Fixpoint count_of (key : string) (c : Counter) : nat :=
  match c with
  | [] => 0
  | (k, v) :: c' => if String.eqb k key then v else count_of key c'
  end.

(** [sum(counter.values())] *)
Definition total (c : Counter) : nat := list_sum (map snd c).

Record Stats : Type := mkStats {
  total_scenes : nat;
  total_shots : nat;
  total_voice_overs : nat;
  scene_types : Counter;
  shot_types : Counter;
  transitions : Counter;
  flashback_scenes : nat;
  montage_scenes : nat;
  dialogue_shots : nat;
  action_shots : nat
}.

(** The body of [for shot in scene.shots]. *)
Definition shot_step (st : Stats) (shot : VideoShot) : Stats :=
  let has_dialogue :=
    match dialogue shot with [] => false | _ => true end in
  {| total_scenes := total_scenes st;
     total_shots := total_shots st;
     total_voice_overs := total_voice_overs st;
     scene_types := scene_types st;
     shot_types := bump (shot_type shot) (shot_types st);
     transitions := transitions st;
     flashback_scenes := flashback_scenes st;
     montage_scenes := montage_scenes st;
     dialogue_shots :=
       if has_dialogue then S (dialogue_shots st) else dialogue_shots st;
     action_shots :=
       if has_dialogue then action_shots st else S (action_shots st) |}.

(** [if transition: stats['transitions'][transition.type] += 1] *)
Definition count_transition (t : option Transition) (c : Counter) : Counter :=
  match t with
  | Some t => bump (tr_type t) c
  | None => c
  end.

(** The body of [for scene in scenes]. *)
Definition scene_step (st : Stats) (scene : EnhancedScene) : Stats :=
  let st :=
    {| total_scenes := total_scenes st;
       total_shots := total_shots st;
       total_voice_overs := total_voice_overs st;
       scene_types := bump (scene_type scene) (scene_types st);
       shot_types := shot_types st;
       transitions := transitions st;
       flashback_scenes :=
         if String.eqb (scene_type scene) "FLASHBACK"
         then S (flashback_scenes st) else flashback_scenes st;
       montage_scenes :=
         if String.eqb (scene_type scene) "FLASHBACK" then montage_scenes st
         else if String.eqb (scene_type scene) "MONTAGE"
              then S (montage_scenes st) else montage_scenes st;
       dialogue_shots := dialogue_shots st;
       action_shots := action_shots st |} in
  let st := fold_left shot_step (shots scene) st in
  {| total_scenes := total_scenes st;
     total_shots := total_shots st;
     total_voice_overs := total_voice_overs st;
     scene_types := scene_types st;
     shot_types := shot_types st;
     transitions :=
       count_transition (transitions_out scene)
         (count_transition (transitions_in scene) (transitions st));
     flashback_scenes := flashback_scenes st;
     montage_scenes := montage_scenes st;
     dialogue_shots := dialogue_shots st;
     action_shots := action_shots st |}.

Definition _generate_statistics (scenes : list EnhancedScene) : Stats :=
  let stats :=
    {| total_scenes := List.length scenes;
       total_shots :=
         list_sum (map (fun scene => List.length (shots scene)) scenes);
       total_voice_overs :=
         list_sum (map (fun scene => List.length (voice_overs scene)) scenes);
       scene_types := [];
       shot_types := [];
       transitions := [];
       flashback_scenes := 0;
       montage_scenes := 0;
       dialogue_shots := 0;
       action_shots := 0 |} in
  fold_left scene_step scenes stats.

(** What the loop has counted after the scenes [seen]. *)
Definition all_shots (scenes : list EnhancedScene) : list VideoShot :=
  flat_map shots scenes.

Definition all_transitions (scenes : list EnhancedScene) : list Transition :=
  flat_map (fun scene =>
              (match transitions_in scene with Some t => [t] | None => [] end
               ++
               match transitions_out scene with Some t => [t] | None => [] end)
              %list)
           scenes.

(** The counter [c] holds, for each key, how often it occurs in [keys]. *)
Definition counts (keys : list string) (c : Counter) : Prop :=
  NoDup (map fst c) /\
  total c = List.length keys /\
  forall key, count_of key c = count_occ string_dec keys key.

(** [bool(shot.dialogue)] *)
Definition speaking (shot : VideoShot) : bool :=
  match dialogue shot with [] => false | _ => true end.

Definition counted (seen : list EnhancedScene) (st : Stats) : Prop :=
  counts (map scene_type seen) (scene_types st) /\
  counts (map shot_type (all_shots seen)) (shot_types st) /\
  counts (map tr_type (all_transitions seen)) (transitions st) /\
  flashback_scenes st = count_occ string_dec (map scene_type seen) "FLASHBACK" /\
  montage_scenes st = count_occ string_dec (map scene_type seen) "MONTAGE" /\
  dialogue_shots st + action_shots st = List.length (all_shots seen) /\
  dialogue_shots st
  = List.length (filter speaking (all_shots seen)).

End Statistics.
(* ================================================================== *)
(** * [film_crew_ai.py]: AgentOrchestrator *)
(* ================================================================== *)

Module AgentOrchestrator.
Import ScriptParser.

(** [dialogue.split('(')[0].strip()] *)
Definition char_name (dialogue : string) : string :=
  Py.strip (hd "" (Py.split_on "(" dialogue)).

Definition mem (s : string) (l : list string) : bool :=
  existsb (String.eqb s) l.

(** The body of [for dialogue in shot.dialogue]. *)
Definition character_step (characters : list string) (dialogue : string)
    : list string :=
  if negb (Py.is_empty (char_name dialogue))
     && negb (mem (char_name dialogue) characters)
  then (characters ++ [char_name dialogue])%list
  else characters.

Definition _extract_characters (shot : Shot) : list string :=
  let characters := fold_left character_step (dialogue shot) [] in
  match characters with
  | [] => ["SUBJECT"]
  | _ => characters
  end.

End AgentOrchestrator.

Module BasicLines.





(** The elements of a list, each kept where it occurs first. *)
Fixpoint first_occurrences (l : list string) : list string :=
  match l with
  | [] => []
  | x :: l' =>
      x :: filter (fun y => negb (String.eqb y x)) (first_occurrences l')
  end.

(** The characters of a list, each name kept where it occurs first. *)
Fixpoint first_by_name (cs : list EnhancedScriptParser.Character)
    : list EnhancedScriptParser.Character :=
  match cs with
  | [] => []
  | c :: cs' =>
      c :: filter (fun y => negb (String.eqb (EnhancedScriptParser.name y)
                                             (EnhancedScriptParser.name c)))
                  (first_by_name cs')
  end.

(** The speaker names of a shot of the basic parser that are not empty. *)
Definition speaker_names (shot : ScriptParser.Shot) : list string :=
  filter (fun name => negb (Py.is_empty name))
         (map AgentOrchestrator.char_name (ScriptParser.dialogue shot)).

(** Names that are distinct and not empty. *)
Definition named (l : list string) : Prop :=
  NoDup l /\ Forall (fun name => name <> "") l.

End BasicLines.

(* ================================================================== *)
(** * [archive/film_crew_ai_enhanced.py]: ScriptBreakdownAgent *)
(* ================================================================== *)

Module ScriptBreakdownAgent.
Import EnhancedScriptParser.

(** [d.get(key, default)] on a dictionary of strings. *)
Fixpoint dict_get (key : string) (d : list (string * string))
    (default : string) : string :=
  match d with
  | [] => default
  | (k, v) :: d' => if String.eqb k key then v else dict_get key d' default
  end.

Definition _determine_narrative_function (shot : Shot) : string :=
  let type := dict_get "type" (metadata shot) "" in
  if Py.contains "establishing" type then "establish_setting"
  else if Py.contains "dialogue" type then "character_interaction"
  else if Py.contains "action" type then "advance_plot"
  else "transition".

Definition _extract_emotional_beat (shot : Shot) : string :=
  let emotions :=
    filter (fun e => negb (Py.is_empty e))
           (map emotional_state (characters shot)) in
  match characters shot, emotions with
  | _ :: _, _ :: _ => Py.join ", " emotions
  | _, _ => "neutral"
  end.

End ScriptBreakdownAgent.

Module EnhancedShots.
Import EnhancedScriptParser.

(** The kinds of the shots of a scene with [d] dialogue blocks and [a]
    action blocks, in the order of the shot list. *)
Definition kinds (d a : nat) : list string :=
  ("establishing" :: repeat "dialogue" (Nat.min 3 d) ++
   repeat "action" (Nat.min 2 (a - 1)))%list.

Definition functions (d a : nat) : list string :=
  ("establish_setting" :: repeat "character_interaction" (Nat.min 3 d) ++
   repeat "advance_plot" (Nat.min 2 (a - 1)))%list.

End EnhancedShots.
(* ================================================================== *)
(** * [film_crew_ai_advanced.py]: AdvancedFilmCrewProcessor *)
(* ================================================================== *)

Module AdvancedFilmCrewProcessor.
Import AdvancedScriptParser.

(** The names of the files [_create_output_structure] writes for a shot:
    [f"{script_name}_scene{scene.scene_number}_shot{shot.shot_number}.json"]
    and the same with [_veo3.json]; and of the directory of a scene,
    [f"Scene_{scene.scene_number}"]. *)
Definition shot_file (script_name : string) (scene : EnhancedScene)
    (shot : VideoShot) : string :=
  script_name ++ "_scene" ++ scene_number scene ++ "_shot" ++
  shot_number shot ++ ".json".

Definition veo3_file (script_name : string) (scene : EnhancedScene)
    (shot : VideoShot) : string :=
  script_name ++ "_scene" ++ scene_number scene ++ "_shot" ++
  shot_number shot ++ "_veo3.json".

Definition scene_dir (scene : EnhancedScene) : string :=
  "Scene_" ++ scene_number scene.

(** The files of all shots, in the order of the two loops. *)
Definition files_of (file : EnhancedScene -> VideoShot -> string)
    (scenes : list EnhancedScene) : list string :=
  flat_map (fun scene => map (file scene) (shots scene)) scenes.

(** The name of a file from the numbers of the scene and of the shot. *)
Definition file_name (script_name suffix : string) (p : nat * nat) : string :=
  script_name ++ "_scene" ++ Py.str (fst p) ++ "_shot" ++
  Py.fmt03d (snd p) ++ suffix.

(** The scenes counted from [i + 1] with their shots counted from 1. *)
Definition places (i : nat) (scenes : list EnhancedScene)
    : list (nat * nat) :=
  flat_map (fun ks => map (pair (fst ks + 1))
                          (seq 1 (List.length (shots (snd ks)))))
           (Py.enumerate_from i scenes).

(** Scene [k] of the list carries the number [k + 1] and numbered shots. *)
Definition placed (ks : nat * EnhancedScene) : Prop :=
  scene_number (snd ks) = Py.str (fst ks + 1) /\
  map shot_number (shots (snd ks))
  = map Py.fmt03d (seq 1 (List.length (shots (snd ks)))).

End AdvancedFilmCrewProcessor.
Module MoreSamples.
Import AdvancedScriptParser.

(** The scene of the four exchanges as [_extract_scenes] hands it on. *)
Definition cafe : SceneData :=
  hd Samples.office (_extract_scenes Samples.four_exchanges).

(** Two scenes with a transition before each. *)
Definition cut_script : string :=
  Py.text ["FADE IN:"; ""; "INT. OFFICE - DAY"; "John sits."; "";
           "CUT TO:"; ""; "EXT. STREET - NIGHT"; "Cars pass."].

Definition street : SceneData :=
  nth 1 (_extract_scenes cut_script) Samples.office.

End MoreSamples.

(* ================================================================== *)
(** * Theorems *)
(* ================================================================== *)

Close Scope list_scope.
Open Scope list_scope.

(** ** Loops and calls that may raise *)

Lemma fold_left_invariant {A B : Type} (P : A -> Prop) (f : A -> B -> A) :
  (forall a b, P a -> P (f a b)) ->
  forall l a, P a -> P (fold_left f l a).
Proof.
  intros step l; induction l as [|b l IH]; intros a Ha; simpl; auto.
Qed.

Lemma mapM_Forall2 {A B : Type} (f : A -> Py.result B) :
  forall l l', Py.mapM f l = Py.Ok l' -> Forall2 (fun a b => f a = Py.Ok b) l l'.
Proof.
  induction l as [|a l IH]; intros l' H; simpl in H.
  - injection H as <-. constructor.
  - destruct (f a) as [b|e] eqn:Hfa; simpl in H; [|discriminate].
    destruct (Py.mapM f l) as [bs|e] eqn:Hm; simpl in H; [|discriminate].
    injection H as <-. constructor; auto.
Qed.

Lemma fold_left_invariant_In {A B : Type} (P : A -> Prop) (f : A -> B -> A) :
  forall l, (forall a b, In b l -> P a -> P (f a b)) ->
  forall a, P a -> P (fold_left f l a).
Proof.
  induction l as [|b l IH]; intros step a Ha; simpl; auto.
  apply IH; [intros; apply step; simpl; auto|]. apply step; simpl; auto.
Qed.

(** Two loops over the same list whose bodies respect a relation. *)
Lemma fold_left_related {A1 A2 B : Type} (R : A1 -> A2 -> Prop)
    (f1 : A1 -> B -> A1) (f2 : A2 -> B -> A2) :
  (forall a1 a2 b, R a1 a2 -> R (f1 a1 b) (f2 a2 b)) ->
  forall l a1 a2, R a1 a2 -> R (fold_left f1 l a1) (fold_left f2 l a2).
Proof.
  intros step l; induction l as [|b l IH]; intros a1 a2 H; simpl; auto.
Qed.

Lemma fold_left_ext {A B : Type} (f1 f2 : A -> B -> A) :
  (forall a b, f1 a b = f2 a b) ->
  forall l a, fold_left f1 l a = fold_left f2 l a.
Proof.
  intros H l; induction l as [|b l IH]; intros a; simpl; [reflexivity|].
  rewrite H. apply IH.
Qed.

Lemma mapM_ext {A B : Type} (f1 f2 : A -> Py.result B) :
  (forall a, f1 a = f2 a) -> forall l, Py.mapM f1 l = Py.mapM f2 l.
Proof.
  intros H l; induction l as [|a l IH]; simpl; [reflexivity|].
  rewrite H, IH. reflexivity.
Qed.

Lemma mapM_In {A B : Type} (f : A -> Py.result B) l l' b :
  Py.mapM f l = Py.Ok l' -> In b l' -> exists a, In a l /\ f a = Py.Ok b.
Proof.
  intros H. apply mapM_Forall2 in H.
  induction H as [|a b' l l' Hab _ IH]; intros Hin; [destruct Hin|].
  destruct Hin as [<-|Hin].
  - exists a. split; [left; reflexivity | exact Hab].
  - destruct (IH Hin) as (a' & Ha' & Hf). exists a'. split; [right|]; auto.
Qed.

Lemma enumerate_from_In {A : Type} (l : list A) :
  forall i p, In p (Py.enumerate_from i l) -> In (snd p) l.
Proof.
  induction l as [|a l IH]; intros i p; simpl; [tauto|].
  intros [<-|H]; [left; reflexivity | right; eauto].
Qed.

(** * The advanced parser: scenes *)

Module AdvancedFacts.
Import Re AdvancedScriptParser Invariants.

(** A scene without the key ['location'] cannot be processed. *)
Lemma establishing_raises_location n k sd acts e :
  _create_establishing_shot n k sd acts = Py.Raise e -> e = Py.KeyError "location".
Proof.
  unfold _create_establishing_shot. destruct acts as [|a acts]; simpl.
  - destruct (d_location sd); simpl; intros H; [discriminate|].
    injection H as <-. reflexivity.
  - discriminate.
Qed.

Lemma closing_raises_location n sd e0 e :
  closing_rule n sd e0 = Py.Raise e -> e = Py.KeyError "location".
Proof.
  unfold closing_rule. destruct e0 as [shots k].
  destruct (_ && _); [|discriminate].
  unfold _create_closing_shot. destruct (d_location sd); simpl; intros H; [discriminate|].
  injection H as <-. reflexivity.
Qed.

Lemma shots_raise_location order n sd acts dlg vos e :
  _generate_video_shots order n sd acts dlg vos = Py.Raise e ->
  e = Py.KeyError "location".
Proof.
  unfold _generate_video_shots, establishing_rule.
  destruct (negb (is_continuation (d_text sd))).
  - destruct (_create_establishing_shot n 1 sd acts) eqn:He; simpl.
    + apply closing_raises_location.
    + intros H. injection H as <-. eapply establishing_raises_location; eauto.
  - simpl. apply closing_raises_location.
Qed.

Lemma process_scene_without_location order sd n tr vos full :
  d_location sd = None ->
  _process_scene order sd n tr vos full = Py.Raise (Py.KeyError "location").
Proof.
  intros Hloc. unfold _process_scene.
  destruct (_generate_video_shots _ _ _ _ _ _) as [shots|e] eqn:Hs;
    cbn [Py.bind].
  - destruct (fold_left _ transition_patterns _) as [tin tout].
    rewrite Hloc. reflexivity.
  - f_equal. eapply shots_raise_location; eauto.
Qed.

Lemma parse_without_heading order content :
  finditer scene_pattern content = [] ->
  parse order content = Py.Raise (Py.KeyError "location").
Proof.
  intros H. unfold parse, _extract_scenes. rewrite H.
  cbn [Py.enumerate_from Py.mapM].
  rewrite process_scene_without_location; reflexivity.
Qed.

(** ** Scenes found by their heading are processed *)

Lemma establishing_with_location n k sd acts loc :
  d_location sd = Some loc ->
  exists shot, _create_establishing_shot n k sd acts = Py.Ok shot.
Proof.
  intros H. unfold _create_establishing_shot.
  destruct acts; simpl; [rewrite H; simpl|]; eexists; reflexivity.
Qed.

Lemma closing_with_location n sd e loc :
  d_location sd = Some loc ->
  exists shots, closing_rule n sd e = Py.Ok shots.
Proof.
  intros H. unfold closing_rule, _create_closing_shot. destruct e as [shots k].
  destruct (_ && _); [rewrite H; simpl|]; eexists; reflexivity.
Qed.

Lemma shots_with_location order n sd acts dlg vos loc :
  d_location sd = Some loc ->
  exists shots, _generate_video_shots order n sd acts dlg vos = Py.Ok shots.
Proof.
  intros H. unfold _generate_video_shots, establishing_rule.
  destruct (negb (is_continuation (d_text sd))).
  - destruct (establishing_with_location n 1 sd acts loc H) as [shot ->].
    cbn [Py.bind]. eapply closing_with_location; eauto.
  - cbn [Py.bind]. eapply closing_with_location; eauto.
Qed.

Lemma process_scene_with_location order sd n tr vos full loc time :
  d_location sd = Some loc -> d_time sd = Some time ->
  exists s, _process_scene order sd n tr vos full = Py.Ok s /\
            scene_number s = Py.str n /\ heading s = d_heading sd /\
            location s = loc /\ time_of_day s = time.
Proof.
  intros Hloc Htime. unfold _process_scene.
  destruct (shots_with_location order n sd
              (l_action_blocks (scan_lines (d_heading sd) (d_text sd)))
              (l_dialogue_blocks (scan_lines (d_heading sd) (d_text sd)))
              (l_scene_voice_overs (scan_lines (d_heading sd) (d_text sd)))
              loc Hloc) as [shots ->].
  cbn [Py.bind].
  destruct (fold_left _ transition_patterns _) as [tin tout].
  rewrite Hloc, Htime. cbn [Py.getitem Py.bind].
  eexists; repeat split; reflexivity.
Qed.

Lemma scene_of_match_complete content m scene_end :
  complete (scene_of_match content m scene_end).
Proof.
  unfold complete, scene_of_match; cbn [d_location d_time d_type].
  repeat split; try (eexists; reflexivity).
  destruct (_ && _); auto.
Qed.

Lemma scenes_of_matches_complete content ms :
  Forall complete (scenes_of_matches content ms).
Proof.
  induction ms as [|m ms IH]; simpl; constructor; auto.
  apply scene_of_match_complete.
Qed.

Lemma scenes_of_matches_length content ms :
  List.length (scenes_of_matches content ms) = List.length ms.
Proof. induction ms; simpl; auto. Qed.

Lemma process_all_complete order content tr vos :
  forall sds i, Forall complete sds ->
  exists scenes,
    Py.mapM (fun '(i, scene_data) =>
               _process_scene order scene_data (i + 1) tr vos content)
            (Py.enumerate_from i sds) = Py.Ok scenes /\
    map scene_number scenes = map Py.str (seq (i + 1) (List.length sds)) /\
    map heading scenes = map d_heading sds.
Proof.
  induction sds as [|sd sds IH]; intros i H.
  - exists []. repeat split; reflexivity.
  - inversion H as [|? ? [[loc Hloc] [[time Htime] _]] Hrest]; subst.
    destruct (process_scene_with_location order sd (i + 1) tr vos content
                loc time Hloc Htime) as (s & Hs & Hn & Hh & _).
    destruct (IH (S i) Hrest) as (scenes & Hm & Hns & Hhs).
    exists (s :: scenes). cbn [Py.enumerate_from Py.mapM].
    rewrite Hs. cbn [Py.bind]. rewrite Hm. cbn [Py.bind].
    repeat split.
    + cbn [map List.length seq]. rewrite Hn, Hns.
      replace (S i + 1) with (S (i + 1)) by lia. reflexivity.
    + cbn [map]. rewrite Hh, Hhs. reflexivity.
Qed.

(** With [N >= 1] headings the advanced parser returns [N] scenes, numbered
    "1" to "N", in the order of the headings. *)
Lemma advanced_parse_numbers_scenes order content :
  finditer scene_pattern content <> [] ->
  exists scenes,
    parse order content = Py.Ok scenes /\
    map scene_number scenes =
      map Py.str (seq 1 (List.length (finditer scene_pattern content))) /\
    map heading scenes =
      map d_heading (scenes_of_matches content (finditer scene_pattern content)).
Proof.
  intros Hne. unfold parse, _extract_scenes.
  destruct (finditer scene_pattern content) as [|m ms] eqn:Hms;
    [congruence|].
  destruct (process_all_complete order content (_extract_transitions content)
              (_extract_voice_overs content)
              (scenes_of_matches content (m :: ms)) 0
              (scenes_of_matches_complete content (m :: ms)))
    as (scenes & Hm & Hn & Hh).
  exists scenes. rewrite scenes_of_matches_length in Hn.
  repeat split; assumption.
Qed.

End AdvancedFacts.

(** * The basic parser *)

Module BasicFacts.
Import Re ScriptParser.

Lemma basic_scene_number n text : scene_number (_parse_scene n text) = n.
Proof.
  unfold _parse_scene.
  destruct (rematch scene_pattern _);
    destruct (fold_left line_step _ _) as [[a d] c]; reflexivity.
Qed.

Lemma scenes_of_matches_numbers content :
  forall ms i, map scene_number (scenes_of_matches content i ms)
               = seq (i + 1) (List.length ms).
Proof.
  induction ms as [|m ms IH]; intros i; simpl; [reflexivity|].
  rewrite basic_scene_number, IH. replace (S i + 1) with (S (i + 1)) by lia.
  reflexivity.
Qed.

(** The basic parser numbers its scenes 1 to [N]; without a heading it
    returns the one default scene, numbered 1. *)
Lemma basic_parse_numbers_scenes content :
  map scene_number (parse content)
  = seq 1 (Nat.max 1 (List.length (finditer scene_pattern content))).
Proof.
  unfold parse. destruct (finditer scene_pattern content) as [|m ms] eqn:H.
  - reflexivity.
  - rewrite scenes_of_matches_numbers. reflexivity.
Qed.

Lemma generate_shots_nonempty n h acts dlg :
  1 <= List.length (_generate_shots n h acts dlg).
Proof.
  unfold _generate_shots.
  destruct (_ || _); destruct (Nat.ltb 2 _);
    repeat rewrite length_app; simpl; lia.
Qed.

Lemma parse_scene_shots n text :
  1 <= List.length (shots (_parse_scene n text)).
Proof.
  unfold _parse_scene.
  destruct (rematch scene_pattern _);
    destruct (fold_left line_step _ _) as [[a d] c]; cbn [shots];
    apply generate_shots_nonempty.
Qed.

Lemma scenes_of_matches_shots content s :
  forall ms i, In s (scenes_of_matches content i ms) ->
               1 <= List.length (shots s).
Proof.
  induction ms as [|m ms IH]; intros i; simpl; [tauto|].
  intros [<-|H]; [apply parse_scene_shots | eauto].
Qed.

Lemma basic_shots_nonempty content s :
  In s (parse content) -> 1 <= List.length (shots s).
Proof.
  unfold parse. destruct (finditer scene_pattern content) as [|m ms].
  - intros [<-|[]]. apply generate_shots_nonempty.
  - apply scenes_of_matches_shots.
Qed.

End BasicFacts.

(** * The advanced parser: the five rules of shot derivation *)

Module ShotFacts.
Import Re AdvancedScriptParser Invariants.

Lemma grown_refl Q pre : grown Q pre pre.
Proof. exists []. rewrite app_nil_r. auto. Qed.

Lemma grown_snoc Q pre shots s :
  grown Q pre shots -> Q s -> grown Q pre (shots ++ [s]).
Proof.
  intros (l & -> & Hl) Hs. exists (l ++ [s]). rewrite app_assoc. split; auto.
  apply Forall_app; auto.
Qed.

Section Rules.
Variable order : Py.SetOrder.
Variable Q : VideoShot -> Prop.
Variables (n : nat) (sd : SceneData) (vos : list VoiceOver).
Variable pre : list VideoShot.

Hypothesis Q_action :
  forall k a, Q (action_shot order n k sd vos a (_detect_shot_type a)
                             (_detect_camera_movement a)).
Hypothesis Q_dialogue : forall k c d, Q (dialogue_shot n k c sd d).
Hypothesis Q_extend : forall s d, Q s -> Q (extend_shot s d).
Hypothesis Q_voice_over :
  forall k vo, In vo vos -> vo_timing vo = "transitional" ->
               Q (voice_over_shot n k vo).
Hypothesis Q_closing : forall k s, _create_closing_shot n k sd = Py.Ok s -> Q s.

Lemma action_step_grown e a :
  grown Q pre (fst e) -> grown Q pre (fst (action_step order n sd vos e a)).
Proof.
  destruct e as [shots k]. unfold action_step.
  destruct (_ || _); cbn [fst]; auto.
  intros H. apply grown_snoc; auto.
Qed.

Lemma actions_grown acts e :
  grown Q pre (fst e) ->
  grown Q pre (fst (fold_left (action_step order n sd vos) acts e)).
Proof.
  apply (fold_left_invariant (fun e => grown Q pre (fst e))).
  intros; apply action_step_grown; auto.
Qed.

Lemma dialogue_step_ok c d :
  coverage_ok Q pre c -> coverage_ok Q pre (dialogue_step n sd c d).
Proof.
  destruct c as [[shots k] cur]. unfold coverage_ok, dialogue_step.
  cbn [fst snd]. intros [Hs Hc].
  destruct (_needs_new_shot cur (character d)).
  - cbn [fst snd]. split; auto.
    destruct cur; cbn [close_shot]; auto. apply grown_snoc; auto.
  - destruct cur; cbn [fst snd]; auto.
Qed.

Lemma dialogue_rule_grown dlg e :
  grown Q pre (fst e) -> grown Q pre (fst (dialogue_rule n sd dlg e)).
Proof.
  intros H. unfold dialogue_rule.
  assert (Hc : coverage_ok Q pre
                 (fold_left (dialogue_step n sd) dlg (fst e, snd e, None))).
  { apply (fold_left_invariant (coverage_ok Q pre)); [apply dialogue_step_ok|].
    split; cbn [fst snd]; auto. }
  destruct (fold_left _ dlg _) as [[shots k] cur].
  destruct Hc as [Hs Hc]; cbn [fst snd] in *.
  destruct cur; cbn [close_shot]; auto. apply grown_snoc; auto.
Qed.

Lemma voice_over_step_grown e vo :
  In vo vos -> grown Q pre (fst e) ->
  grown Q pre (fst (voice_over_step n e vo)).
Proof.
  intros Hin. destruct e as [shots k]. unfold voice_over_step.
  destruct (String.eqb (vo_timing vo) "transitional") eqn:E; cbn [fst]; auto.
  intros H. apply grown_snoc; auto. apply Q_voice_over; auto.
  apply String.eqb_eq; auto.
Qed.

Lemma voice_overs_grown e :
  grown Q pre (fst e) ->
  grown Q pre (fst (fold_left (voice_over_step n) vos e)).
Proof.
  apply (fold_left_invariant_In (fun e => grown Q pre (fst e))).
  intros; apply voice_over_step_grown; auto.
Qed.

Lemma closing_rule_grown e shots :
  grown Q pre (fst e) -> closing_rule n sd e = Py.Ok shots ->
  grown Q pre shots.
Proof.
  destruct e as [shots0 k]. unfold closing_rule. cbn [fst].
  intros H. destruct (_ && _).
  - destruct (_create_closing_shot n k sd) as [s|] eqn:E; cbn [Py.bind];
      [|discriminate].
    intros [= <-]. apply grown_snoc; eauto.
  - intros [= <-]. auto.
Qed.

Lemma later_rules_grown acts dlg e shots :
  grown Q pre (fst e) ->
  closing_rule n sd
    (fold_left (voice_over_step n) vos
       (dialogue_rule n sd dlg
          (fold_left (action_step order n sd vos) acts e))) = Py.Ok shots ->
  grown Q pre shots.
Proof.
  intros He H. eapply closing_rule_grown in H; eauto.
  apply voice_overs_grown, dialogue_rule_grown, actions_grown, He.
Qed.

End Rules.

(** The shots of a scene: the establishing shot unless the scene continues
    another, then shots of the other four rules. *)
Lemma generated_shots order (Q : VideoShot -> Prop) n sd vos acts dlg shots :
  (forall k a, Q (action_shot order n k sd vos a (_detect_shot_type a)
                              (_detect_camera_movement a))) ->
  (forall k c d, Q (dialogue_shot n k c sd d)) ->
  (forall s d, Q s -> Q (extend_shot s d)) ->
  (forall k vo, In vo vos -> vo_timing vo = "transitional"%string ->
                Q (voice_over_shot n k vo)) ->
  (forall k s, _create_closing_shot n k sd = Py.Ok s -> Q s) ->
  _generate_video_shots order n sd acts dlg vos = Py.Ok shots ->
  if is_continuation (d_text sd)
  then Forall Q shots
  else exists est rest,
         _create_establishing_shot n 1 sd acts = Py.Ok est /\
         shots = est :: rest /\ Forall Q rest.
Proof.
  intros Qa Qd Qe Qv Qc.
  unfold _generate_video_shots, establishing_rule.
  destruct (is_continuation (d_text sd)); cbn [negb Py.bind].
  - intros H.
    apply (later_rules_grown order Q n sd vos [] Qa Qd Qe Qv Qc) in H;
      [|apply grown_refl].
    destruct H as (l & -> & Hl). exact Hl.
  - destruct (_create_establishing_shot n 1 sd acts) as [est|] eqn:E;
      cbn [Py.bind]; [|discriminate].
    intros H. exists est. cbn [app] in H.
    apply (later_rules_grown order Q n sd vos [est] Qa Qd Qe Qv Qc) in H;
      [|apply grown_refl].
    destruct H as (l & -> & Hl). exists l. auto.
Qed.

End ShotFacts.

(** * The advanced parser: processed scenes *)

Module SceneFacts.
Import Re AdvancedScriptParser Invariants ShotFacts.

(** What a processed scene is made of. *)
Lemma process_scene_inv order sd n tr vos full s :
  _process_scene order sd n tr vos full = Py.Ok s ->
  let st := scan_lines (d_heading sd) (d_text sd) in
  _generate_video_shots order n sd (l_action_blocks st) (l_dialogue_blocks st)
                        (l_scene_voice_overs st) = Py.Ok (shots s) /\
  action_blocks s = l_action_blocks st /\
  dialogue_blocks s = l_dialogue_blocks st /\
  voice_overs s = l_scene_voice_overs st /\
  d_location sd = Some (location s) /\
  scene_number s = Py.str n /\
  heading s = d_heading sd.
Proof.
  intros H st. unfold _process_scene in H. fold st in H.
  destruct (_generate_video_shots order n sd _ _ _) as [shs|] eqn:Hs;
    cbn [Py.bind] in H; [|discriminate].
  destruct (fold_left _ transition_patterns _) as [tin tout].
  destruct (d_location sd) as [loc|]; cbn [Py.getitem Py.bind] in H;
    [|discriminate].
  destruct (d_time sd) as [time|]; cbn [Py.getitem Py.bind] in H;
    [|discriminate].
  injection H as <-. cbn. repeat split; reflexivity.
Qed.

Lemma first_found_key ps text t :
  first_found ps text = Some t -> In t (map fst ps).
Proof.
  induction ps as [|[name p] ps IH]; simpl; [discriminate|].
  destruct (found p text); [intros [= <-]; auto | auto].
Qed.

Lemma action_shot_type order n k sd vos a :
  In (shot_type (action_shot order n k sd vos a (_detect_shot_type a)
                             (_detect_camera_movement a)))
     ("MEDIUM"%string :: map fst shot_patterns).
Proof.
  cbn [action_shot shot_type].
  destruct (_detect_shot_type a) as [t|] eqn:E; cbn [Py.truthy].
  - destruct (negb (Py.is_empty t)); [|left; reflexivity].
    right. cbn [Py.get_default]. eapply first_found_key; eauto.
  - left; reflexivity.
Qed.

Lemma dialogue_shot_type n k c sd d :
  In (shot_type (dialogue_shot n k c sd d))
     ["MEDIUM"%string; "CLOSE-UP"%string; "OVER-THE-SHOULDER"%string].
Proof.
  cbn [dialogue_shot shot_type]. unfold _determine_dialogue_shot_type.
  destruct (Nat.eqb c 0); [simpl; auto|].
  destruct (Nat.eqb (c mod 3) 0); [simpl; auto|].
  destruct (Nat.eqb (c mod 2) 0); simpl; auto.
Qed.

Lemma closing_shot_fields n k sd s :
  _create_closing_shot n k sd = Py.Ok s ->
  shot_type s = "WIDE"%string /\ is_montage s = false /\
  camera_movement s = "pull back or static"%string.
Proof.
  unfold _create_closing_shot. destruct (d_location sd); cbn; [|discriminate].
  intros [= <-]. auto.
Qed.

Lemma establishing_shot_fields n k sd acts est :
  _create_establishing_shot n k sd acts = Py.Ok est ->
  shot_type est = "WIDE ESTABLISHING"%string /\
  camera_movement est = "slow push in or crane"%string /\
  duration est = "5-8 seconds"%string /\
  is_montage est = false /\
  match acts with
  | first :: _ => shot_description est = Py.take 200 first
  | [] => exists loc, d_location sd = Some loc /\
                      shot_description est = ("Establishing " ++ loc)%string
  end.
Proof.
  unfold _create_establishing_shot. destruct acts as [|a acts].
  - destruct (d_location sd) as [loc|]; cbn; [|discriminate].
    intros [= <-]. cbn. repeat split. eauto.
  - cbn. intros [= <-]. cbn. auto.
Qed.

Lemma key_not_establishing t :
  In t ("MEDIUM"%string :: "VARIOUS"%string :: map fst shot_patterns) ->
  t <> "WIDE ESTABLISHING"%string.
Proof.
  cbn. intros H E. subst t.
  repeat (destruct H as [H|H]; [discriminate H|]). exact H.
Qed.

Lemma later_shots_not_establishing order n sd vos acts dlg shots :
  _generate_video_shots order n sd acts dlg vos = Py.Ok shots ->
  if is_continuation (d_text sd)
  then Forall not_establishing shots
  else exists est rest,
         _create_establishing_shot n 1 sd acts = Py.Ok est /\
         shots = est :: rest /\ Forall not_establishing rest.
Proof.
  apply generated_shots.
  - intros k a. apply key_not_establishing.
    destruct (action_shot_type order n k sd vos a) as [<-|H];
      [left; reflexivity | right; right; exact H].
  - intros k c d. apply key_not_establishing.
    destruct (dialogue_shot_type n k c sd d) as [<-|[<-|[<-|[]]]]; cbn; auto 10.
  - intros s d H. exact H.
  - intros k vo _ _. apply key_not_establishing. cbn; auto.
  - intros k s H. apply closing_shot_fields in H as (E & _).
    unfold not_establishing. rewrite E. discriminate.
Qed.

End SceneFacts.

(** * The advanced parser: voice-overs *)

Module VoiceOverFacts.
Import Re AdvancedScriptParser Invariants ShotFacts SceneFacts AdvancedFacts.

Lemma line_step_during_scene heading st line :
  Forall during_scene (l_scene_voice_overs st) ->
  Forall during_scene (l_scene_voice_overs (line_step heading st line)).
Proof.
  intros H. unfold line_step.
  destruct (Py.is_empty (Py.strip line)); [exact H|].
  destruct (rematch vo_pattern (Py.strip line)); [exact H|].
  destruct (_ && _); [exact H|].
  destruct (_ && _); [|exact H].
  destruct (Py.contains _ _); [|exact H].
  cbn [l_scene_voice_overs]. apply Forall_app. split; [exact H|].
  constructor; [reflexivity | constructor].
Qed.

Lemma scan_lines_during_scene heading scene_text :
  Forall during_scene (l_scene_voice_overs (scan_lines heading scene_text)).
Proof.
  unfold scan_lines. cbn [l_scene_voice_overs].
  apply (fold_left_invariant
           (fun st => Forall during_scene (l_scene_voice_overs st))).
  - intros; apply line_step_during_scene; assumption.
  - constructor.
Qed.

Lemma voice_over_rule_idle n vos :
  Forall during_scene vos ->
  forall e, fold_left (voice_over_step n) vos e = e.
Proof.
  induction 1 as [|vo vos Hvo _ IH]; intros e; [reflexivity|].
  cbn [fold_left]. unfold voice_over_step at 2. destruct e as [shots k].
  rewrite Hvo. cbn. apply IH.
Qed.

Lemma key_not_various t :
  In t ("MEDIUM"%string :: "WIDE ESTABLISHING"%string :: map fst shot_patterns) ->
  t <> "VARIOUS"%string.
Proof.
  cbn. intros H E. subst t.
  repeat (destruct H as [H|H]; [discriminate H|]). exact H.
Qed.

Lemma complete_not_montage sd : complete sd -> type_has "MONTAGE" sd = false.
Proof.
  intros (_ & _ & [H|H]); unfold type_has; rewrite H; reflexivity.
Qed.

Lemma shots_plain order n sd vos acts dlg shots :
  type_has "MONTAGE" sd = false ->
  Forall during_scene vos ->
  _generate_video_shots order n sd acts dlg vos = Py.Ok shots ->
  Forall plain shots.
Proof.
  intros Hm Hv H.
  apply (generated_shots order plain) in H.
  - destruct (is_continuation (d_text sd)); [exact H|].
    destruct H as (est & rest & He & -> & Hr). constructor; [|exact Hr].
    apply establishing_shot_fields in He as (Ht & _ & _ & Hmo & _).
    split; [rewrite Ht; discriminate | exact Hmo].
  - intros k a. split; [|exact Hm]. apply key_not_various.
    destruct (action_shot_type order n k sd vos a) as [<-|Hk];
      [left; reflexivity | right; right; exact Hk].
  - intros k c d. split; [|reflexivity]. apply key_not_various.
    destruct (dialogue_shot_type n k c sd d) as [<-|[<-|[<-|[]]]]; cbn; auto 10.
  - intros s d Hs. exact Hs.
  - intros k vo Hin Ht. rewrite Forall_forall in Hv. apply Hv in Hin.
    unfold during_scene in Hin. rewrite Hin in Ht. discriminate.
  - intros k s Hs. apply closing_shot_fields in Hs as (Ht & Hmo & _).
    split; [rewrite Ht; discriminate | exact Hmo].
Qed.

Lemma extracted_scenes content sd :
  In sd (_extract_scenes content) -> d_location sd = None \/ complete sd.
Proof.
  unfold _extract_scenes. destruct (finditer scene_pattern content) as [|m ms].
  - intros [<-|[]]. left; reflexivity.
  - intros H. right.
    pose proof (scenes_of_matches_complete content (m :: ms)) as F.
    rewrite Forall_forall in F. auto.
Qed.

(** Each scene of a parse comes from a scene found by its heading. *)
Lemma parsed_scene order content scenes s :
  parse order content = Py.Ok scenes -> In s scenes ->
  exists sd n tr vos,
    In sd (_extract_scenes content) /\ complete sd /\
    _process_scene order sd n tr vos content = Py.Ok s.
Proof.
  unfold parse. intros H Hin.
  destruct (mapM_In _ _ _ _ H Hin) as ([i sd] & Hp & Hs).
  apply enumerate_from_In in Hp. cbn [snd] in Hp.
  exists sd, (i + 1), (_extract_transitions content),
         (_extract_voice_overs content).
  repeat split; try assumption;
    destruct (extracted_scenes content sd Hp) as [Hnone|Hc];
    try apply Hc;
    rewrite (process_scene_without_location order sd (i + 1) _ _ content Hnone)
      in Hs; discriminate.
Qed.

Lemma parsed_scenes_plain order content scenes :
  parse order content = Py.Ok scenes ->
  Forall (fun s => Forall during_scene (voice_overs s) /\
                   Forall plain (shots s)) scenes.
Proof.
  intros H. apply Forall_forall. intros s Hin.
  destruct (parsed_scene order content scenes s H Hin)
    as (sd & n & tr & vos & _ & Hc & Hs).
  apply process_scene_inv in Hs. cbv zeta in Hs.
  destruct Hs as (Hshots & _ & _ & Hvo & _).
  rewrite Hvo. split; [apply scan_lines_during_scene|].
  eapply shots_plain; eauto using complete_not_montage, scan_lines_during_scene.
Qed.

End VoiceOverFacts.

Import Re AdvancedScriptParser Invariants ShotFacts SceneFacts AdvancedFacts VoiceOverFacts.

(** C10.  Every voice-over the line loop of [_process_scene] builds has
    timing "during_scene"; the rule for transitional voice-overs therefore
    leaves the shot list as it finds it, and no shot of a parsed scene has
    type VARIOUS or the montage flag. *)
Theorem C10_voice_overs_are_during_scene :
  (forall heading scene_text,
      Forall (fun vo => vo_timing vo = "during_scene"%string)
             (l_scene_voice_overs (scan_lines heading scene_text))) /\
  (forall n heading scene_text e,
      fold_left (voice_over_step n)
                (l_scene_voice_overs (scan_lines heading scene_text)) e = e) /\
  (forall order content scenes,
      parse order content = Py.Ok scenes ->
      Forall (fun s =>
                Forall (fun vo => vo_timing vo = "during_scene"%string)
                       (voice_overs s) /\
                Forall (fun shot => shot_type shot <> "VARIOUS"%string /\
                                    is_montage shot = false) (shots s))
             scenes).
Proof.
  split; [|split].
  - exact scan_lines_during_scene.
  - intros n heading scene_text e.
    apply voice_over_rule_idle, scan_lines_during_scene.
  - exact parsed_scenes_plain.
Qed.

(** C10 on the scene of Scenario 2. *)
Lemma C10_witness :
  exists scenes,
    parse forward_order Samples.voice_over_scene = Py.Ok scenes /\
    Forall (fun s =>
              Forall (fun vo => vo_timing vo = "during_scene"%string)
                     (voice_overs s) /\
              Forall (fun shot => shot_type shot <> "VARIOUS"%string /\
                                  is_montage shot = false) (shots s))
           scenes.
Proof.
  eexists. split; [vm_compute; reflexivity|].
  apply (proj2 (proj2 C10_voice_overs_are_during_scene) forward_order
               Samples.voice_over_scene).
  vm_compute; reflexivity.
Defined.

Import Re AdvancedScriptParser Invariants ShotFacts SceneFacts AdvancedFacts VoiceOverFacts.

Lemma blank_lines_leave_start heading ls :
  Forall (fun line => Py.strip line = ""%string) ls ->
  fold_left (line_step heading) ls loop_start = loop_start.
Proof.
  induction 1 as [|line ls Hl _ IH]; [reflexivity|].
  cbn [fold_left]. unfold line_step at 2. rewrite Hl. cbn. exact IH.
Qed.

Lemma scan_no_content heading scene_text :
  no_content scene_text -> scan_lines heading scene_text = loop_start.
Proof.
  intros H. unfold scan_lines. rewrite blank_lines_leave_start by exact H.
  reflexivity.
Qed.

Lemma parse_keeps_every_scene order content scenes :
  parse order content = Py.Ok scenes ->
  List.length scenes = List.length (finditer scene_pattern content).
Proof.
  intros H.
  destruct (finditer scene_pattern content) as [|m ms] eqn:E.
  - rewrite (parse_without_heading order content E) in H. discriminate.
  - assert (Hne : finditer scene_pattern content <> []) by (rewrite E; discriminate).
    destruct (advanced_parse_numbers_scenes order content Hne)
      as (scenes' & Hp & Hn & _).
    rewrite Hp in H. injection H as <-.
    apply (f_equal (@List.length string)) in Hn.
    rewrite !length_map, length_seq, E in Hn. exact Hn.
Qed.

(** C2, amended.  Every scene of the basic parser has a shot.  A scene of the
    advanced parser has one whenever its first 50 characters hold no
    continuity marker; if besides no line after the heading has content,
    its action and dialogue blocks are empty and its one shot is the
    establishing shot.  The advanced parser returns a scene for every
    heading found. *)
Theorem C2_scenes_have_shots :
  (forall content s,
      In s (ScriptParser.parse content) ->
      1 <= List.length (ScriptParser.shots s)) /\
  (forall order sd n tr vos full s,
      _process_scene order sd n tr vos full = Py.Ok s ->
      is_continuation (d_text sd) = false ->
      1 <= List.length (shots s) /\
      (no_content (d_text sd) ->
       action_blocks s = [] /\ dialogue_blocks s = [] /\
       exists est, shots s = [est] /\
                   shot_type est = "WIDE ESTABLISHING"%string)) /\
  (forall order content scenes,
      parse order content = Py.Ok scenes ->
      List.length scenes = List.length (finditer scene_pattern content)).
Proof.
  split; [exact BasicFacts.basic_shots_nonempty|].
  split; [|exact parse_keeps_every_scene].
  intros order sd n tr vos full s Hs Hc.
  apply process_scene_inv in Hs. cbv zeta in Hs.
  destruct Hs as (Hshots & Ha & Hd & _).
  split.
  - apply later_shots_not_establishing in Hshots. rewrite Hc in Hshots.
    destruct Hshots as (est & rest & _ & -> & _). simpl; lia.
  - intros Hn. rewrite (scan_no_content _ _ Hn) in *.
    cbn [l_action_blocks l_dialogue_blocks l_scene_voice_overs loop_start]
      in *.
    repeat split; try assumption.
    unfold _generate_video_shots, establishing_rule in Hshots.
    rewrite Hc in Hshots. cbn [negb] in Hshots.
    destruct (_create_establishing_shot n 1 sd []) as [est|] eqn:He;
      cbn in Hshots; [|discriminate].
    injection Hshots as <-. exists est. split; [reflexivity|].
    apply (establishing_shot_fields _ _ _ _ _ He).
Qed.

(** C2 on a scene that is its heading alone. *)
Lemma C2_witness :
  exists s,
    _process_scene forward_order Samples.office 1 [] [] "INT. OFFICE - DAY"
      = Py.Ok s /\
    1 <= List.length (shots s) /\
    action_blocks s = [] /\ dialogue_blocks s = [] /\
    exists est, shots s = [est] /\
                shot_type est = "WIDE ESTABLISHING"%string.
Proof.
  eexists. split; [vm_compute; reflexivity|].
  refine ((fun H => conj (proj1 H) (proj2 H _))
            (proj1 (proj2 C2_scenes_have_shots) forward_order Samples.office 1
                   [] [] "INT. OFFICE - DAY"%string _ _ _)).
  - vm_compute. constructor.
  - vm_compute; reflexivity.
  - vm_compute; reflexivity.
Defined.

(** The claim C2 as stated fails: a scene that opens with a continuity marker
    and has no content has no shot at all. *)
Lemma C2_continuation_scene_has_no_shot :
  exists s,
    parse forward_order Samples.continuation = Py.Ok [s] /\
    List.length (shots s) = 0.
Proof.
  eexists. split; vm_compute; reflexivity.
Qed.

(** C4, amended.  A processed scene whose first 50 characters hold no
    continuity marker starts with the establishing shot -- WIDE ESTABLISHING,
    "slow push in or crane", "5-8 seconds" -- described by the first 200
    characters of the first action block, or by "Establishing <location>"
    when there is no action block, and no later shot is an establishing shot;
    with a marker no shot of the scene is one. *)
Theorem C4_establishing_shot order sd n tr vos full s :
  _process_scene order sd n tr vos full = Py.Ok s ->
  if is_continuation (d_text sd)
  then Forall (fun shot => shot_type shot <> "WIDE ESTABLISHING"%string)
              (shots s)
  else exists est rest,
         shots s = est :: rest /\
         shot_type est = "WIDE ESTABLISHING"%string /\
         camera_movement est = "slow push in or crane"%string /\
         duration est = "5-8 seconds"%string /\
         shot_description est =
           match action_blocks s with
           | first :: _ => Py.take 200 first
           | [] => ("Establishing " ++ location s)%string
           end /\
         Forall (fun shot => shot_type shot <> "WIDE ESTABLISHING"%string)
                rest.
Proof.
  intros Hs. apply process_scene_inv in Hs. cbv zeta in Hs.
  destruct Hs as (Hshots & Ha & _ & _ & Hloc & _).
  apply later_shots_not_establishing in Hshots.
  destruct (is_continuation (d_text sd)); [exact Hshots|].
  destruct Hshots as (est & rest & He & Hsh & Hrest).
  exists est, rest. rewrite Ha.
  apply establishing_shot_fields in He as (Ht & Hc & Hd & _ & Hdesc).
  repeat split; try assumption.
  destruct (l_action_blocks _) as [|first more]; [|exact Hdesc].
  destruct Hdesc as (loc & Hl & ->). rewrite Hl in Hloc.
  injection Hloc as <-. reflexivity.
Qed.

(** C4 on a scene that is its heading alone. *)
Lemma C4_witness :
  exists s est rest,
    _process_scene forward_order Samples.office 1 [] [] "INT. OFFICE - DAY"
      = Py.Ok s /\
    shots s = est :: rest /\
    shot_type est = "WIDE ESTABLISHING"%string /\
    shot_description est = "Establishing OFFICE"%string.
Proof.
  pose proof (C4_establishing_shot forward_order Samples.office 1 [] []
                "INT. OFFICE - DAY"%string) as H.
  eexists. 
  match goal with |- exists est rest, ?P = Py.Ok ?s /\ _ =>
    assert (E : P = Py.Ok s) by (vm_compute; reflexivity) end.
  specialize (H _ E). change (is_continuation (d_text Samples.office)) with false in H.
  destruct H as (est & rest & H1 & H2 & _ & _ & H5 & _).
  exists est, rest. repeat split; try assumption.
Defined.

(** The claim C4 as stated fails: the description of the establishing shot of
    a scene whose first action block has 220 characters is not that block. *)
Lemma C4_long_action_is_cut :
  exists s est rest first more,
    parse forward_order Samples.long_action_scene = Py.Ok [s] /\
    action_blocks s = first :: more /\
    shots s = est :: rest /\
    shot_type est = "WIDE ESTABLISHING"%string /\
    String.length first = 220 /\
    String.length (shot_description est) = 200 /\
    shot_description est <> first.
Proof.
  do 5 eexists.
  split; [vm_compute; reflexivity|].
  split; [vm_compute; reflexivity|].
  split; [vm_compute; reflexivity|].
  split; [vm_compute; reflexivity|].
  split; [vm_compute; reflexivity|].
  split; [vm_compute; reflexivity|].
  intros E. apply (f_equal String.length) in E. vm_compute in E. discriminate.
Qed.

(** * The advanced parser: dialogue coverage *)

Module CoverageFacts.
Import Re AdvancedScriptParser Invariants.

Lemma entries_app l1 l2 : entries (l1 ++ l2) = entries l1 + entries l2.
Proof. unfold entries. rewrite map_app, list_sum_app. reflexivity. Qed.

Lemma entries_bound l : Forall within_caps l -> entries l <= 3 * List.length l.
Proof.
  induction 1 as [|s l Hs _ IH]; [unfold entries; simpl; lia|].
  destruct Hs as [_ [_ Hs]].
  change (entries (s :: l)) with (List.length (dialogue s) + entries l).
  cbn [List.length]. lia.
Qed.

Lemma needs_new_shot_spec current new_character :
  _needs_new_shot current new_character = true <->
  match current with
  | None => True
  | Some shot => 2 <= List.length (characters_in_frame shot) \/
                 3 <= List.length (dialogue shot)
  end.
Proof.
  unfold _needs_new_shot. destruct current as [shot|]; [|tauto].
  destruct (Nat.leb 2 _) eqn:E2; [apply Nat.leb_le in E2; tauto|].
  destruct (Nat.leb 3 _) eqn:E3; [apply Nat.leb_le in E3; tauto|].
  apply Nat.leb_gt in E2, E3. split; [discriminate | lia].
Qed.

Lemma extend_shot_within_caps s d :
  List.length (characters_in_frame s) < 2 -> List.length (dialogue s) < 3 ->
  within_caps (extend_shot s d) /\
  List.length (dialogue (extend_shot s d)) = S (List.length (dialogue s)).
Proof.
  intros Hc Hd. unfold within_caps. cbn [extend_shot characters_in_frame dialogue].
  rewrite length_app. cbn [List.length].
  destruct (mem _ _); [|rewrite length_app; cbn [List.length]]; lia.
Qed.

Lemma dialogue_step_covered n sd shots0 m c d :
  covered shots0 m c -> covered shots0 (S m) (dialogue_step n sd c d).
Proof.
  destruct c as [[shots k] cur]. unfold covered. cbn [fst snd].
  intros (new & -> & Hnew & Hcur & Hm). unfold dialogue_step.
  destruct (_needs_new_shot cur (character d)) eqn:E.
  - cbn [fst snd].
    assert (Hd : within_caps (dialogue_shot n k
                   (List.length (close_shot (shots0 ++ new) cur)) sd d))
      by (unfold within_caps; cbn; lia).
    destruct cur as [s|]; cbn [close_shot open_entries] in *.
    + exists (new ++ [s]). rewrite app_assoc. repeat split; auto.
      * apply Forall_app; auto.
      * rewrite entries_app. unfold entries at 2. cbn. lia.
    + exists new. repeat split; auto. cbn. lia.
  - destruct cur as [s|]; [|discriminate E].
    assert (Hlt : List.length (characters_in_frame s) < 2 /\
                  List.length (dialogue s) < 3).
    { destruct (Nat.lt_ge_cases (List.length (characters_in_frame s)) 2);
      destruct (Nat.lt_ge_cases (List.length (dialogue s)) 3); auto;
      assert (X : _needs_new_shot (Some s) (character d) = true)
        by (apply needs_new_shot_spec; auto);
      rewrite X in E; discriminate. }
    destruct Hlt as [H2 H3].
    destruct (extend_shot_within_caps s d H2 H3) as [Hw Hl].
    cbn [fst snd open_entries] in *. exists new. repeat split; auto.
    + apply Hw.
    + apply Hw.
    + apply Hw.
    + rewrite Hl. lia.
Qed.

Lemma dialogue_fold_covered n sd shots0 blocks :
  forall m c, covered shots0 m c ->
  covered shots0 (m + List.length blocks)
          (fold_left (dialogue_step n sd) blocks c).
Proof.
  induction blocks as [|d blocks IH]; intros m c H; cbn [fold_left List.length].
  - rewrite Nat.add_0_r. exact H.
  - replace (m + S (List.length blocks)) with (S m + List.length blocks) by lia.
    apply IH, dialogue_step_covered, H.
Qed.

Lemma dialogue_rule_caps n sd blocks shots0 k :
  exists new,
    fst (dialogue_rule n sd blocks (shots0, k)) = shots0 ++ new /\
    Forall within_caps new /\
    entries new = List.length blocks /\
    (4 <= List.length blocks -> 2 <= List.length new).
Proof.
  assert (H0 : covered shots0 0 (shots0, k, None)).
  { exists []. cbn. rewrite app_nil_r. repeat split; auto. }
  pose proof (dialogue_fold_covered n sd shots0 blocks 0 _ H0) as H.
  unfold dialogue_rule. cbn [fst snd].
  destruct (fold_left (dialogue_step n sd) blocks (shots0, k, None))
    as [[shots k'] cur].
  destruct H as (new & Hs & Hnew & Hcur & Hm). cbn [fst snd] in *. subst shots.
  assert (F : exists new',
             close_shot (shots0 ++ new) cur = shots0 ++ new' /\
             Forall within_caps new' /\ entries new' = List.length blocks).
  { destruct cur as [s|]; cbn [close_shot open_entries] in *.
    - exists (new ++ [s]). rewrite app_assoc. repeat split.
      + apply Forall_app; auto.
      + rewrite entries_app. unfold entries at 2. cbn. lia.
    - exists new. repeat split; auto. lia. }
  destruct F as (new' & E & Hw & He). exists new'. repeat split; auto.
  intros H4. pose proof (entries_bound new' Hw). lia.
Qed.

(** ** The loop groups the blocks as the specification says *)

Lemma needs_new_shot_full shot g c :
  SpecGrouping.stands_for (Some shot) g ->
  _needs_new_shot (Some shot) c = SpecGrouping.spec_full g.
Proof.
  intros (_ & Hd & Hf). unfold _needs_new_shot, SpecGrouping.spec_full.
  rewrite Hd, Hf, length_map.
  destruct (Nat.leb 2 _); [reflexivity|].
  destruct (Nat.leb 3 _); reflexivity.
Qed.

Lemma stands_for_new n k c sd d :
  SpecGrouping.stands_for (Some (dialogue_shot n k c sd d)) [d].
Proof. split; [discriminate|]. split; reflexivity. Qed.

Lemma stands_for_extend shot g d :
  SpecGrouping.stands_for (Some shot) g ->
  SpecGrouping.stands_for (Some (extend_shot shot d)) (g ++ [d]).
Proof.
  intros (_ & Hd & Hf). split; [destruct g; discriminate|].
  cbn [extend_shot dialogue characters_in_frame]. split.
  - rewrite Hd, map_app. reflexivity.
  - unfold SpecGrouping.spec_frame. rewrite fold_left_app. cbn [fold_left].
    fold (SpecGrouping.spec_frame g). rewrite <- Hf. reflexivity.
Qed.

Lemma dialogue_fold_groups n sd : forall blocks shots k cur g,
  SpecGrouping.stands_for cur g ->
  exists shots' k' cur' tail,
    fold_left (dialogue_step n sd) blocks (shots, k, cur)
    = (shots', k', cur') /\
    close_shot shots' cur' = shots ++ tail /\
    map dialogue tail
    = map (map SpecGrouping.spec_entry) (SpecGrouping.spec_groups g blocks) /\
    map characters_in_frame tail
    = map SpecGrouping.spec_frame (SpecGrouping.spec_groups g blocks).
Proof.
  induction blocks as [|d blocks IH]; intros shots k cur g H;
    cbn [fold_left SpecGrouping.spec_groups].
  - exists shots, k, cur. destruct cur as [shot|]; cbn [close_shot].
    + destruct H as (Hg & Hd & Hf). exists [shot].
      destruct g; [congruence|]. cbn [map]. rewrite Hd, Hf. auto.
    + cbn in H. subst g. exists []. rewrite app_nil_r. auto.
  - unfold dialogue_step at 2. destruct cur as [shot|].
    + rewrite (needs_new_shot_full shot g (character d) H).
      pose proof H as (Hg & Hd & Hf).
      destruct g as [|d0 g]; [congruence|].
      destruct (SpecGrouping.spec_full (d0 :: g)); cbn [close_shot].
      * destruct (IH (shots ++ [shot]) (S k)
                    (Some (dialogue_shot n k (List.length (shots ++ [shot]))
                                         sd d)) [d]
                    (stands_for_new _ _ _ _ _))
          as (s' & k' & c' & tail & E & Ec & Td & Tf).
        exists s', k', c', (shot :: tail). split; [exact E|].
        rewrite Ec, <- app_assoc. split; [reflexivity|].
        cbn [map]. rewrite Td, Tf, Hd, Hf. auto.
      * apply IH. apply (stands_for_extend shot (d0 :: g) d H).
    + cbn in H. subst g. cbn [_needs_new_shot close_shot].
      apply IH. apply stands_for_new.
Qed.

Lemma dialogue_rule_groups n sd blocks shots0 k :
  exists new,
    fst (dialogue_rule n sd blocks (shots0, k)) = shots0 ++ new /\
    map dialogue new
    = map (map SpecGrouping.spec_entry) (SpecGrouping.spec_groups [] blocks) /\
    map characters_in_frame new
    = map SpecGrouping.spec_frame (SpecGrouping.spec_groups [] blocks).
Proof.
  destruct (dialogue_fold_groups n sd blocks shots0 k None [] eq_refl)
    as (s' & k' & c' & tail & E & Ec & Td & Tf).
  exists tail. unfold dialogue_rule. cbn [fst snd]. rewrite E.
  cbn [fst]. auto.
Qed.

Lemma dialogue_step_extends n sd shots k shot d :
  _needs_new_shot (Some shot) (character d) = false ->
  dialogue_step n sd (shots, k, Some shot) d
  = (shots, k, Some (extend_shot shot d)) /\
  dialogue (extend_shot shot d) = dialogue shot ++ [Py.join " " (lines d)].
Proof.
  intros H. unfold dialogue_step. rewrite H. split; reflexivity.
Qed.

Lemma dialogue_step_starts n sd shots k current d :
  _needs_new_shot current (character d) = true ->
  dialogue_step n sd (shots, k, current) d
  = (close_shot shots current, S k,
     Some (dialogue_shot n k (List.length (close_shot shots current)) sd d)).
Proof.
  intros H. unfold dialogue_step. rewrite H. reflexivity.
Qed.

End CoverageFacts.

Import Re AdvancedScriptParser Invariants CoverageFacts.

(** C3, amended.  A new dialogue shot is started exactly when no shot is
    open, or the open shot already has two characters in frame (whoever
    speaks next), or it already holds three dialogue entries; then the open
    shot is closed and the block is the first entry of a new shot, and
    otherwise the block is added to the open shot, which stays open under
    its number.  Whatever the dialogue blocks, every shot of dialogue
    coverage has at most two characters in frame and between one and three
    entries, each block is one entry of one shot, and four or more blocks
    never share a single shot.  The shots the loop adds are the groups of
    the specification: their entries and their frames are those of
    consecutive blocks grouped by that rule. *)
Theorem C3_dialogue_coverage_caps :
  (forall current new_character,
      _needs_new_shot current new_character = true <->
      match current with
      | None => True
      | Some shot => 2 <= List.length (characters_in_frame shot) \/
                     3 <= List.length (dialogue shot)
      end) /\
  (forall n sd blocks shots0 k,
      exists new,
        fst (dialogue_rule n sd blocks (shots0, k)) = shots0 ++ new /\
        Forall within_caps new /\
        entries new = List.length blocks /\
        (4 <= List.length blocks -> 2 <= List.length new)) /\
  (forall n sd shots k current d,
      _needs_new_shot current (character d) = true ->
      dialogue_step n sd (shots, k, current) d
      = (close_shot shots current, S k,
         Some (dialogue_shot n k (List.length (close_shot shots current))
                             sd d))) /\
  (forall n sd shots k shot d,
      _needs_new_shot (Some shot) (character d) = false ->
      dialogue_step n sd (shots, k, Some shot) d
      = (shots, k, Some (extend_shot shot d)) /\
      dialogue (extend_shot shot d)
      = dialogue shot ++ [Py.join " " (lines d)]) /\
  (forall n sd blocks shots0 k,
      exists new,
        fst (dialogue_rule n sd blocks (shots0, k)) = shots0 ++ new /\
        map dialogue new
        = map (map SpecGrouping.spec_entry)
              (SpecGrouping.spec_groups [] blocks) /\
        map characters_in_frame new
        = map SpecGrouping.spec_frame (SpecGrouping.spec_groups [] blocks)).
Proof.
  split; [exact needs_new_shot_spec|].
  split; [exact dialogue_rule_caps|].
  split; [exact dialogue_step_starts|].
  split; [exact dialogue_step_extends | exact dialogue_rule_groups].
Qed.

(** C3 on six blocks between two characters. *)
Lemma C3_witness :
  exists new,
    fst (dialogue_rule 1 Samples.office
           (Samples.three_blocks ++ Samples.three_blocks)%list ([], 2)) = new /\
    Forall within_caps new /\ 2 <= List.length new.
Proof.
  destruct (proj1 (proj2 C3_dialogue_coverage_caps) 1 Samples.office
              (Samples.three_blocks ++ Samples.three_blocks)%list [] 2)
    as (new & E & Hw & _ & H4).
  exists new. split; [exact E|]. split; [exact Hw|].
  apply H4. vm_compute. lia.
Defined.

(** The claim C3 as stated fails: with ANNA and BEN in the open shot and two
    entries in it, a further block of ANNA brings no third character, yet a
    new shot is started. *)
Lemma C3_same_speaker_starts_new_shot :
  exists shot later,
    fold_left (dialogue_step 1 Samples.office) (firstn 2 Samples.three_blocks)
              ([], 2, None) = ([], 3, Some shot) /\
    characters_in_frame shot = ["ANNA"%string; "BEN"%string] /\
    List.length (dialogue shot) = 2 /\
    claimed_needs_new_shot shot "ANNA" = false /\
    _needs_new_shot (Some shot) "ANNA" = true /\
    fst (dialogue_rule 1 Samples.office Samples.three_blocks ([], 2))
      = [shot; later] /\
    characters_in_frame later = ["ANNA"%string].
Proof.
  do 2 eexists.
  split; [vm_compute; reflexivity|].
  split; [vm_compute; reflexivity|].
  split; [vm_compute; reflexivity|].
  split; [vm_compute; reflexivity|].
  split; [vm_compute; reflexivity|].
  split; vm_compute; reflexivity.
Qed.

(** * The advanced parser: character names *)

Module GuardFacts.
Import Re AdvancedScriptParser Invariants.

Lemma mem_In s l : mem s l = true <-> In s l.
Proof.
  unfold mem. rewrite existsb_exists. split.
  - intros (x & Hx & E). apply String.eqb_eq in E. subst. exact Hx.
  - intros H. exists s. split; [exact H | apply String.eqb_refl].
Qed.

Lemma character_word_guard w :
  is_character_word w = true ->
  3 <= String.length w /\ ~ In w stop_words /\
  Py.isupper w = true /\ Py.isalpha w = true.
Proof.
  unfold is_character_word. rewrite !andb_true_iff, negb_true_iff.
  intros [[[Hu Hl] Ha] Hs]. apply Nat.ltb_lt in Hl.
  repeat split; auto. intros Hin. apply mem_In in Hin. congruence.
Qed.

Lemma extracted_characters_guard order action w :
  In w (_extract_characters_from_action order action) ->
  3 <= String.length w /\ ~ In w stop_words /\
  Py.isupper w = true /\ Py.isalpha w = true.
Proof.
  unfold _extract_characters_from_action. intros H.
  apply (Permutation_in _ (Py.list_of_set_perm order _)) in H.
  apply nodup_In in H. apply filter_In in H as [_ H].
  apply character_word_guard, H.
Qed.

Lemma short_line_is_no_cue line :
  String.length line < 2 -> matches character_pattern line = false.
Proof.
  destruct line as [|c [|c' line]]; cbn [String.length]; intros H;
    [reflexivity | | lia].
  unfold matches, rematch, match_here, character_pattern. cbn.
  destruct (upper_c c); reflexivity.
Qed.

Lemma short_line_is_no_voice_over_cue line :
  String.length line < 2 -> rematch vo_pattern line = None.
Proof.
  destruct line as [|c [|c' line]]; cbn [String.length]; intros H;
    [reflexivity | | lia].
  unfold rematch, match_here, vo_pattern. cbn.
  destruct (upper_c c); reflexivity.
Qed.

Lemma append_to_last_length line bs :
  List.length (append_to_last line bs) = List.length bs.
Proof.
  induction bs as [|b [|b' bs] IH]; cbn [append_to_last List.length] in *; auto.
Qed.

Lemma short_line_opens_no_block heading st line :
  String.length (Py.strip line) < 2 ->
  List.length (l_dialogue_blocks (line_step heading st line))
  = List.length (l_dialogue_blocks st).
Proof.
  intros H. unfold line_step.
  destruct (Py.is_empty (Py.strip line)); [reflexivity|].
  rewrite (short_line_is_no_voice_over_cue _ H).
  rewrite (short_line_is_no_cue _ H). cbn [andb].
  destruct (_ && _); [|reflexivity].
  destruct (Py.contains _ _); [reflexivity|].
  cbn [l_dialogue_blocks]. apply append_to_last_length.
Qed.

Lemma opening_line heading st line :
  opens_dialogue line = true ->
  l_dialogue_blocks (line_step heading st line)
  = l_dialogue_blocks st ++ [mkDialogueBlock (Py.strip line) []] /\
  l_current_character (line_step heading st line) = Some (Py.strip line).
Proof.
  unfold opens_dialogue. cbv zeta. rewrite !andb_true_iff, !negb_true_iff.
  intros [[[He Hv] Hc] Hu]. unfold line_step. rewrite He.
  destruct (rematch vo_pattern (Py.strip line)); [discriminate|].
  rewrite Hc, Hu. cbn. auto.
Qed.

Lemma other_line heading st line :
  opens_dialogue line = false ->
  List.length (l_dialogue_blocks (line_step heading st line))
  = List.length (l_dialogue_blocks st).
Proof.
  unfold opens_dialogue. cbv zeta. unfold line_step.
  destruct (Py.is_empty (Py.strip line)); [reflexivity|].
  destruct (rematch vo_pattern (Py.strip line)); [reflexivity|].
  cbn [negb is_some andb]. intros H. rewrite H. clear H.
  destruct (Py.truthy _ && _); [|reflexivity].
  destruct (Py.contains _ _); [reflexivity|].
  cbn [l_dialogue_blocks]. apply append_to_last_length.
Qed.

Lemma voice_over_cue_opens_no_block line :
  rematch vo_pattern (Py.strip line) <> None -> opens_dialogue line = false.
Proof.
  unfold opens_dialogue. cbv zeta. intros H.
  destruct (rematch vo_pattern (Py.strip line)); [|congruence].
  cbn. rewrite andb_false_r. reflexivity.
Qed.

Lemma stop_words_open : Forall (fun w => opens_dialogue w = true) stop_words.
Proof. repeat (constructor; [vm_compute; reflexivity|]). constructor. Qed.

End GuardFacts.

Import Re AdvancedScriptParser Invariants GuardFacts.

(** C6, amended.  The guard is that of [_extract_characters_from_action]: a
    word of an action block that is shorter than three characters or is one
    of THE, AND, BUT, FOR, WITH, INTO, OVER is never listed in
    [characters_in_frame].  The line loop of [_process_scene] has no stop-word
    guard: a line opens a dialogue block exactly when, stripped, it is not
    empty, is no (V.O.) cue, matches the character pattern and is upper
    case.  So each stop word on a line of its own opens a dialogue block,
    while a (V.O.) cue and a line of fewer than two characters never do. *)
Theorem C6_guard_on_action_words :
  (forall order action w,
      In w (_extract_characters_from_action order action) ->
      3 <= String.length w /\ ~ In w stop_words) /\
  (forall heading st line,
      String.length (Py.strip line) < 2 ->
      matches character_pattern (Py.strip line) = false /\
      List.length (l_dialogue_blocks (line_step heading st line))
      = List.length (l_dialogue_blocks st)) /\
  (forall heading st line,
      opens_dialogue line = true ->
      l_dialogue_blocks (line_step heading st line)
      = l_dialogue_blocks st ++ [mkDialogueBlock (Py.strip line) []] /\
      l_current_character (line_step heading st line)
      = Some (Py.strip line)) /\
  (forall heading st line,
      opens_dialogue line = false ->
      List.length (l_dialogue_blocks (line_step heading st line))
      = List.length (l_dialogue_blocks st)) /\
  Forall (fun w => opens_dialogue w = true) stop_words /\
  (forall line,
      rematch vo_pattern (Py.strip line) <> None ->
      opens_dialogue line = false).
Proof.
  split.
  { intros order action w H.
    destruct (extracted_characters_guard order action w H) as (H3 & Hs & _).
    auto. }
  split.
  { intros heading st line H. split.
    - apply short_line_is_no_cue, H.
    - apply short_line_opens_no_block, H. }
  split; [exact opening_line|].
  split; [exact other_line|].
  split; [exact stop_words_open | exact voice_over_cue_opens_no_block].
Qed.

(** C6 on an action block with stop words, and on a one-letter line. *)
Lemma C6_witness :
  (3 <= String.length "JOHN" /\ ~ In "JOHN"%string stop_words) /\
  List.length (l_dialogue_blocks (line_step "INT. OFFICE - DAY" loop_start "A"))
  = 0.
Proof.
  split.
  - apply (proj1 C6_guard_on_action_words forward_order
                 "THE JOHN and AB walk INTO the room"%string "JOHN"%string).
    vm_compute. auto.
  - apply (proj1 (proj2 C6_guard_on_action_words) "INT. OFFICE - DAY"%string
                 loop_start "A"%string).
    vm_compute. lia.
Defined.

(** The claim C6 as stated fails: the lines THE and AB each open a dialogue
    block, and nothing of the scene is taken as action. *)
Lemma C6_stop_word_line_opens_dialogue :
  exists s,
    parse forward_order Samples.stop_word_lines = Py.Ok [s] /\
    dialogue_blocks s = [ mkDialogueBlock "THE" ["Hello."%string];
                          mkDialogueBlock "AB" ["Bye."%string] ] /\
    action_blocks s = [].
Proof.
  eexists.
  split; [vm_compute; reflexivity|].
  split; vm_compute; reflexivity.
Qed.

(** * The advanced parser: the iteration order of sets *)

Module OrderFacts.
Import Re AdvancedScriptParser Invariants.

Lemma same_shot_refl s : same_shot s s.
Proof. unfold same_shot. repeat split; auto. Qed.

Lemma same_shots_refl l : Forall2 same_shot l l.
Proof. induction l; constructor; auto using same_shot_refl. Qed.

Lemma same_shots_snoc l1 l2 a b :
  Forall2 same_shot l1 l2 -> same_shot a b ->
  Forall2 same_shot (l1 ++ [a]) (l2 ++ [b]).
Proof. intros H Hab. apply Forall2_app; auto. Qed.

Lemma same_shots_length l1 l2 :
  Forall2 same_shot l1 l2 -> List.length l1 = List.length l2.
Proof. induction 1; simpl; auto. Qed.

Lemma extracted_characters_permute o1 o2 action :
  Permutation (_extract_characters_from_action o1 action)
              (_extract_characters_from_action o2 action).
Proof.
  unfold _extract_characters_from_action.
  eapply Permutation_trans; [apply Py.list_of_set_perm|].
  apply Permutation_sym, Py.list_of_set_perm.
Qed.

Lemma short_permutation (l1 l2 : list string) :
  Permutation l1 l2 -> List.length l1 <= 1 -> l1 = l2.
Proof.
  intros H L. destruct l1 as [|x [|y l1]]; cbn in L; [| |lia].
  - apply Permutation_nil in H. congruence.
  - apply Permutation_length_1_inv in H. congruence.
Qed.

Lemma action_shot_same o1 o2 n k sd vos a st cm :
  same_shot (action_shot o1 n k sd vos a st cm)
            (action_shot o2 n k sd vos a st cm).
Proof.
  unfold same_shot. cbn [action_shot shot_id shot_scene_number shot_number
    shot_type shot_description duration camera_movement characters_in_frame
    dialogue shot_voice_overs is_flashback is_montage visual_effects].
  do 7 (split; [reflexivity|]).
  split; [apply extracted_characters_permute|].
  do 5 (split; [reflexivity|]).
  intros [H|H]; [congruence|].
  apply short_permutation; [apply extracted_characters_permute | exact H].
Qed.

Lemma action_step_same o1 o2 n sd vos e1 e2 a :
  same_emitted e1 e2 ->
  same_emitted (action_step o1 n sd vos e1 a) (action_step o2 n sd vos e2 a).
Proof.
  destruct e1 as [s1 k1], e2 as [s2 k2]. unfold same_emitted. cbn [fst snd].
  intros [Hs <-]. unfold action_step.
  destruct (_ || _); cbn [fst snd]; split; auto.
  apply same_shots_snoc; auto using action_shot_same.
Qed.

Lemma dialogue_step_same n sd c1 c2 d :
  same_coverage c1 c2 ->
  same_coverage (dialogue_step n sd c1 d) (dialogue_step n sd c2 d).
Proof.
  destruct c1 as [[s1 k1] cur1], c2 as [[s2 k2] cur2].
  unfold same_coverage. cbn [fst snd]. intros (Hs & <- & <-).
  unfold dialogue_step. destruct (_needs_new_shot cur1 (character d)).
  - assert (Hc : Forall2 same_shot (close_shot s1 cur1) (close_shot s2 cur1)).
    { destruct cur1; cbn [close_shot]; auto.
      apply same_shots_snoc; auto using same_shot_refl. }
    cbn [fst snd]. rewrite (same_shots_length _ _ Hc). auto.
  - destruct cur1; cbn [fst snd]; auto.
Qed.

Lemma dialogue_rule_same n sd dlg e1 e2 :
  same_emitted e1 e2 ->
  same_emitted (dialogue_rule n sd dlg e1) (dialogue_rule n sd dlg e2).
Proof.
  intros [Hs Hk]. unfold dialogue_rule.
  assert (H : same_coverage
                (fold_left (dialogue_step n sd) dlg (fst e1, snd e1, None))
                (fold_left (dialogue_step n sd) dlg (fst e2, snd e2, None))).
  { apply (fold_left_related same_coverage).
    - intros; apply dialogue_step_same; assumption.
    - unfold same_coverage; cbn [fst snd]; auto. }
  destruct (fold_left (dialogue_step n sd) dlg (fst e1, snd e1, None))
    as [[s1 k1] c1].
  destruct (fold_left (dialogue_step n sd) dlg (fst e2, snd e2, None))
    as [[s2 k2] c2].
  destruct H as (H1 & H2 & H3). cbn [fst snd] in *. subst.
  split; cbn [fst snd]; auto.
  destruct c2; cbn [close_shot]; auto.
  apply same_shots_snoc; auto using same_shot_refl.
Qed.

Lemma voice_over_step_same n e1 e2 vo :
  same_emitted e1 e2 ->
  same_emitted (voice_over_step n e1 vo) (voice_over_step n e2 vo).
Proof.
  destruct e1 as [s1 k1], e2 as [s2 k2]. unfold same_emitted. cbn [fst snd].
  intros [Hs <-]. unfold voice_over_step.
  destruct (String.eqb _ _); cbn [fst snd]; split; auto.
  apply same_shots_snoc; auto using same_shot_refl.
Qed.

Lemma closing_rule_same n sd e1 e2 :
  same_emitted e1 e2 ->
  same_shots_result (closing_rule n sd e1) (closing_rule n sd e2).
Proof.
  destruct e1 as [s1 k1], e2 as [s2 k2]. unfold same_emitted. cbn [fst snd].
  intros [Hs <-]. unfold closing_rule.
  rewrite (same_shots_length _ _ Hs).
  destruct (_ && _); cbn [same_shots_result]; auto.
  destruct (_create_closing_shot n k1 sd) as [s|e]; cbn; auto.
  apply same_shots_snoc; auto using same_shot_refl.
Qed.

Lemma generated_shots_same o1 o2 n sd acts dlg vos :
  same_shots_result (_generate_video_shots o1 n sd acts dlg vos)
                    (_generate_video_shots o2 n sd acts dlg vos).
Proof.
  unfold _generate_video_shots.
  destruct (establishing_rule n sd acts ([], 1)) as [e|err]; cbn [Py.bind];
    [|reflexivity].
  apply closing_rule_same.
  apply (fold_left_related same_emitted);
    [intros; apply voice_over_step_same; assumption|].
  apply dialogue_rule_same.
  apply (fold_left_related same_emitted);
    [intros; apply action_step_same; assumption|].
  split; auto using same_shots_refl.
Qed.

Lemma process_scene_same o1 o2 sd n tr vos full :
  same_scene_result (_process_scene o1 sd n tr vos full)
                    (_process_scene o2 sd n tr vos full).
Proof.
  unfold _process_scene.
  pose proof (generated_shots_same o1 o2 n sd
                (l_action_blocks (scan_lines (d_heading sd) (d_text sd)))
                (l_dialogue_blocks (scan_lines (d_heading sd) (d_text sd)))
                (l_scene_voice_overs (scan_lines (d_heading sd) (d_text sd))))
    as H.
  destruct (_generate_video_shots o1 _ _ _ _ _) as [s1|e1];
    destruct (_generate_video_shots o2 _ _ _ _ _) as [s2|e2];
    cbn [same_shots_result] in H; try contradiction; cbn [Py.bind].
  - destruct (fold_left _ transition_patterns _) as [tin tout].
    destruct (d_location sd); cbn [Py.getitem Py.bind]; [|reflexivity].
    destruct (d_time sd); cbn [Py.getitem Py.bind]; [|reflexivity].
    unfold same_scene_result, same_scene. cbn. repeat split; auto.
  - cbn. exact H.
Qed.

Lemma mapM_same {A : Type} (f1 f2 : A -> Py.result EnhancedScene) :
  (forall a, same_scene_result (f1 a) (f2 a)) ->
  forall l, same_result (Py.mapM f1 l) (Py.mapM f2 l).
Proof.
  intros H l; induction l as [|a l IH]; cbn [Py.mapM]; [constructor|].
  specialize (H a).
  destruct (f1 a) as [s1|e1]; destruct (f2 a) as [s2|e2];
    cbn [same_scene_result] in H; try contradiction; cbn [Py.bind];
    [|exact H].
  destruct (Py.mapM f1 l) as [l1|e1]; destruct (Py.mapM f2 l) as [l2|e2];
    cbn [same_result] in IH; try contradiction; cbn [Py.bind same_result];
    [constructor; assumption | exact IH].
Qed.

(** With the same iteration order the two runs are equal. *)
Section SameOrder.
Variables o1 o2 : Py.SetOrder.
Hypothesis same_order : forall l, Py.list_of_set o1 l = Py.list_of_set o2 l.

Lemma action_step_eq n sd vos e a :
  action_step o1 n sd vos e a = action_step o2 n sd vos e a.
Proof.
  unfold action_step, action_shot, _extract_characters_from_action.
  rewrite same_order. reflexivity.
Qed.

Lemma generated_shots_eq n sd acts dlg vos :
  _generate_video_shots o1 n sd acts dlg vos
  = _generate_video_shots o2 n sd acts dlg vos.
Proof.
  unfold _generate_video_shots.
  destruct (establishing_rule n sd acts ([], 1)) as [e|err]; cbn [Py.bind];
    [|reflexivity].
  rewrite (fold_left_ext _ _ (action_step_eq n sd vos)). reflexivity.
Qed.

Lemma process_scene_eq sd n tr vos full :
  _process_scene o1 sd n tr vos full = _process_scene o2 sd n tr vos full.
Proof.
  unfold _process_scene. rewrite generated_shots_eq. reflexivity.
Qed.

Lemma parse_eq content : parse o1 content = parse o2 content.
Proof.
  unfold parse. apply mapM_ext. intros [i sd]. apply process_scene_eq.
Qed.

End SameOrder.

End OrderFacts.

Import Re AdvancedScriptParser Invariants OrderFacts.

(** C8, amended.  Two parses of the same text agree in everything but the
    order of the names in [characters_in_frame] of action-derived shots:
    whatever order the sets of the two runs are iterated in, both runs raise
    the same error or return scene lists that are equal field by field,
    except that the frame of a shot without dialogue that names two or more
    characters may be rearranged; the frame of every shot with dialogue, and
    of every shot with at most one name, is the same list in both runs.  If
    the two runs iterate sets in the same order, their results are equal. *)
Theorem C8_parse_agrees_up_to_frame_order :
  (forall (order1 order2 : Py.SetOrder) (content : string),
      same_result (parse order1 content) (parse order2 content)) /\
  (forall (order1 order2 : Py.SetOrder) (content : string),
      (forall l, Py.list_of_set order1 l = Py.list_of_set order2 l) ->
      parse order1 content = parse order2 content).
Proof.
  split.
  - intros o1 o2 content. unfold parse.
    apply mapM_same. intros [i sd]. apply process_scene_same.
  - intros o1 o2 content H. apply parse_eq, H.
Qed.

(** C8 on two orders that list every set alike, and on two that do not. *)
Lemma C8_witness :
  parse forward_order Samples.two_names
    = parse twice_backward_order Samples.two_names /\
  same_result (parse forward_order Samples.two_names)
              (parse backward_order Samples.two_names).
Proof.
  split.
  - apply (proj2 C8_parse_agrees_up_to_frame_order forward_order
                 twice_backward_order Samples.two_names).
    intros l. cbn [Py.list_of_set forward_order twice_backward_order].
    symmetry. apply rev_involutive.
  - apply (proj1 C8_parse_agrees_up_to_frame_order).
Defined.

(** The claim C8 as stated fails: the action block names JOHN and MARY, and
    the two iteration orders of the set of these names give shots whose
    [characters_in_frame] differ. *)
Lemma C8_frame_order_follows_set_order :
  exists s1 s2,
    parse forward_order Samples.two_names = Py.Ok [s1] /\
    parse backward_order Samples.two_names = Py.Ok [s2] /\
    map characters_in_frame (shots s1)
      = [[]; ["JOHN"%string; "MARY"%string]] /\
    map characters_in_frame (shots s2)
      = [[]; ["MARY"%string; "JOHN"%string]] /\
    parse forward_order Samples.two_names
      <> parse backward_order Samples.two_names.
Proof.
  do 2 eexists.
  split; [vm_compute; reflexivity|].
  split; [vm_compute; reflexivity|].
  split; [vm_compute; reflexivity|].
  split; [vm_compute; reflexivity|].
  intros E. vm_compute in E. discriminate E.
Qed.

(** * The enhanced parser *)

Module EnhancedFacts.
Import Re EnhancedScriptParser EnhancedInvariants.

Lemma dialogue_step_numbered num heading env e id :
  Forall (numbered num) (fst e) ->
  Forall (numbered num) (fst (dialogue_step num heading env e id)).
Proof.
  destruct e as [shots k], id as [i d]. cbn [dialogue_step fst]. intros H.
  apply Forall_app. split; [exact H|].
  constructor; [split; reflexivity | constructor].
Qed.

Lemma action_step_numbered num heading env light e ia :
  Forall (numbered num) (fst e) ->
  Forall (numbered num) (fst (action_step num heading env light e ia)).
Proof.
  destruct e as [shots k], ia as [i a]. cbn [action_step fst]. intros H.
  apply Forall_app. split; [exact H|].
  constructor; [split; reflexivity | constructor].
Qed.

Lemma enhanced_shots_numbered n heading location time_of_day acts dlg :
  Forall (numbered (scene_num_str n))
         (_generate_enhanced_shots n heading location time_of_day acts dlg).
Proof.
  unfold _generate_enhanced_shots. cbv zeta.
  assert (Hd : forall e0,
             Forall (numbered (scene_num_str n)) (fst e0) ->
             Forall (numbered (scene_num_str n))
               (fst (fold_left
                       (dialogue_step (scene_num_str n) heading
                          (mkEnvironment location time_of_day
                             (Py.join " " (firstn 1 acts)) []
                             (_extract_environment_conditions heading) []))
                       (Py.enumerate_from 0 (firstn 3 dlg)) e0))).
  { apply (fold_left_invariant
             (fun x => Forall (numbered (scene_num_str n)) (fst x))).
    intros; apply dialogue_step_numbered; assumption. }
  destruct (Nat.ltb 1 (List.length acts)).
  - apply (fold_left_invariant
             (fun x => Forall (numbered (scene_num_str n)) (fst x))).
    + intros; apply action_step_numbered; assumption.
    + apply Hd. cbn [fst]. constructor; [split; reflexivity | constructor].
  - apply Hd. cbn [fst]. constructor; [split; reflexivity | constructor].
Qed.

Lemma enhanced_scene_number n scene_text :
  scene_number (_parse_scene n scene_text) = scene_num_str n /\
  Forall (numbered (scene_num_str n)) (shots (_parse_scene n scene_text)).
Proof.
  unfold _parse_scene.
  destruct (rematch scene_pattern _);
    destruct (fold_left line_step _ _) as [[a d] c]; cbn [scene_number shots];
    (split; [reflexivity | apply enhanced_shots_numbered]).
Qed.

Lemma enhanced_scenes_of_matches_numbers content :
  forall ms i, map scene_number (scenes_of_matches content i ms)
               = map scene_num_str (seq (i + 1) (List.length ms)).
Proof.
  induction ms as [|m ms IH]; intros i; simpl; [reflexivity|].
  rewrite (proj1 (enhanced_scene_number _ _)), IH.
  replace (S i + 1) with (S (i + 1)) by lia. reflexivity.
Qed.

(** The enhanced parser gives the scene of the [n]-th heading the string
    of [n]. *)
Lemma enhanced_parse_numbers_scenes content :
  finditer scene_pattern content <> [] ->
  map scene_number (parse content)
  = map scene_num_str
        (seq 1 (List.length (finditer scene_pattern content))).
Proof.
  intros H. unfold parse.
  destruct (finditer scene_pattern content) as [|m ms]; [congruence|].
  apply enhanced_scenes_of_matches_numbers.
Qed.

End EnhancedFacts.

(** C9.  In the enhanced parser the scene with ordinal [n] is numbered
    [str(n // 26)] followed by the letter [chr(65 + n % 26)] when [n > 26],
    and [str(n)] otherwise; scene 27 is "1B".  Its shots carry the same
    string as scene number and as the prefix of their shot id. *)
Theorem C9_enhanced_scene_number (n : nat) (scene_text : string) :
  let scene := EnhancedScriptParser._parse_scene n scene_text in
  (26 < n ->
   EnhancedScriptParser.scene_number scene
   = (Py.str (n / 26) ++ Py.chr (65 + n mod 26))%string) /\
  (n <= 26 -> EnhancedScriptParser.scene_number scene = Py.str n) /\
  Forall (fun shot =>
            EnhancedScriptParser.shot_scene_number shot
            = EnhancedScriptParser.scene_number scene /\
            EnhancedScriptParser.shot_id shot
            = (EnhancedScriptParser.scene_number scene ++ "-" ++
               EnhancedScriptParser.shot_number shot)%string)
         (EnhancedScriptParser.shots scene).
Proof.
  intros scene. subst scene.
  destruct (EnhancedFacts.enhanced_scene_number n scene_text) as [Hn Hs].
  rewrite Hn. unfold EnhancedScriptParser.scene_num_str.
  repeat split.
  - intros H. apply Nat.ltb_lt in H. rewrite H. reflexivity.
  - intros H. destruct (Nat.ltb 26 n) eqn:E; [|reflexivity].
    apply Nat.ltb_lt in E. lia.
  - exact Hs.
Qed.

(** C9 on scenes 27 and 26. *)
Lemma C9_witness :
  EnhancedScriptParser.scene_number
    (EnhancedScriptParser._parse_scene 27 "INT. OFFICE - DAY") = "1B"%string /\
  EnhancedScriptParser.scene_number
    (EnhancedScriptParser._parse_scene 26 "INT. OFFICE - DAY") = "26"%string.
Proof.
  split.
  - apply (proj1 (C9_enhanced_scene_number 27 "INT. OFFICE - DAY")). lia.
  - apply (proj1 (proj2 (C9_enhanced_scene_number 26 "INT. OFFICE - DAY"))).
    lia.
Defined.

Import Re AdvancedScriptParser Invariants AdvancedFacts.

(** C1 (code defect).  On a script without a scene heading the advanced
    parser does not return the one synthetic scene numbered "1": the scene
    dictionary it builds for the whole text has no 'location' key, and
    [_process_scene] raises [KeyError].  The basic and the enhanced parser
    return their default scene, numbered 1, for the same text. *)
Theorem C1_advanced_parse_raises_without_heading :
  finditer scene_pattern Samples.no_heading = [] /\
  List.length (_extract_scenes Samples.no_heading) = 1 /\
  parse forward_order Samples.no_heading = Py.Raise (Py.KeyError "location") /\
  map ScriptParser.scene_number (ScriptParser.parse Samples.no_heading) = [1] /\
  map EnhancedScriptParser.scene_number
      (EnhancedScriptParser.parse Samples.no_heading) = ["1"%string].
Proof.
  split; [vm_compute; reflexivity|].
  split; [vm_compute; reflexivity|].
  split; [vm_compute; reflexivity|].
  split; vm_compute; reflexivity.
Qed.

(** C7 (code defect).  Whatever the text, if it has no scene heading then
    [parse] raises [KeyError('location')] instead of returning a script. *)
Theorem C7_parse_raises_without_heading :
  forall (order : Py.SetOrder) (content : string),
    finditer scene_pattern content = [] ->
    parse order content = Py.Raise (Py.KeyError "location").
Proof.
  exact parse_without_heading.
Qed.

(** C7 on Scenario 2 of the specification taken as a whole script. *)
Lemma C7_witness :
  parse forward_order Samples.scenario2 = Py.Raise (Py.KeyError "location").
Proof.
  apply (C7_parse_raises_without_heading forward_order Samples.scenario2).
  vm_compute; reflexivity.
Defined.

(** C5 (code defect).  A cue with (O.S.) is not redirected: in the line loop
    of [_process_scene] it opens an ordinary dialogue block, and the line
    after it is stored there; the scene gets no voice-over. *)
Theorem C5_off_screen_cue_opens_dialogue :
  exists s,
    parse forward_order Samples.off_screen_scene = Py.Ok [s] /\
    voice_overs s = [] /\
    dialogue_blocks s = [mkDialogueBlock "SARAH (O.S.)" ["Hello."%string]].
Proof.
  eexists.
  split; [vm_compute; reflexivity|].
  split; vm_compute; reflexivity.
Qed.

(** A cue with (V.O.) inside a scene is redirected as the claim says. *)
Lemma voice_over_cue_is_redirected :
  exists s,
    parse forward_order Samples.voice_over_scene = Py.Ok [s] /\
    voice_overs s =
      [mkVoiceOver "SARAH" "Every morning starts the same."
                   "INT. KITCHEN - DAY" "during_scene" ""] /\
    dialogue_blocks s = [].
Proof.
  eexists.
  split; [vm_compute; reflexivity|].
  split; vm_compute; reflexivity.
Qed.

(** [_extract_voice_overs] looks for both kinds of cue in the whole script,
    but reads the spoken lines from the end of the cue, where the rest of the
    cue's own line is empty, and so finds none. *)
Lemma extract_voice_overs_finds_none :
  _extract_voice_overs
    (Py.text ["SARAH (V.O.)"; "This is a voice over."; "";
              "SARAH (O.S.)"; "This is off-screen."]%string) = [].
Proof. vm_compute; reflexivity. Qed.

(** Four exchanges between two characters are covered by four shots of two
    entries each. *)
Lemma four_exchanges_are_four_shots :
  exists s,
    parse forward_order Samples.four_exchanges = Py.Ok [s] /\
    map (fun shot => (shot_type shot, characters_in_frame shot,
                      List.length (dialogue shot))) (shots s)
    = [ ("WIDE ESTABLISHING", [], 0);
        ("MEDIUM", ["ANNA"; "BEN"], 2);
        ("OVER-THE-SHOULDER", ["ANNA"; "BEN"], 2);
        ("CLOSE-UP", ["ANNA"; "BEN"], 2);
        ("OVER-THE-SHOULDER", ["ANNA"; "BEN"], 2);
        ("WIDE", [], 0) ]%string.
Proof.
  eexists. split; vm_compute; reflexivity.
Qed.

(** ** Scenarios 1 and 4 of the specification *)

Example scenario1_two_scenes :
  exists s1 s2,
    parse forward_order Samples.scenario1 = Py.Ok [s1; s2] /\
    heading s1 = "INT. OFFICE - DAY"%string /\
    dialogue_blocks s1 = [mkDialogueBlock "JOHN" ["Hello."%string]] /\
    heading s2 = "EXT. STREET - NIGHT"%string.
Proof.
  do 2 eexists.
  split; [vm_compute; reflexivity|].
  split; [vm_compute; reflexivity|].
  split; vm_compute; reflexivity.
Qed.

Example scenario4_handheld :
  exists s est shot,
    String.length Samples.handheld_action = 150 /\
    parse forward_order Samples.scenario4 = Py.Ok [s] /\
    shots s = [est; shot] /\
    camera_movement shot = "handheld"%string /\
    shot_description shot = Samples.handheld_action.
Proof.
  do 3 eexists.
  split; [vm_compute; reflexivity|].
  split; [vm_compute; reflexivity|].
  split; [vm_compute; reflexivity|].
  split; vm_compute; reflexivity.
Qed.

(* ================================================================== *)
(** * Further properties of the code *)
(* ================================================================== *)

(** * Strings: slices *)

Module SliceFacts.

Lemma take_drop n : forall s, (Py.take n s ++ Py.drop n s)%string = s.
Proof.
  induction n as [|n IH]; intros [|c s]; cbn; try reflexivity.
  rewrite IH. reflexivity.
Qed.

Lemma drop_drop m : forall n s, Py.drop n (Py.drop m s) = Py.drop (m + n) s.
Proof.
  induction m as [|m IH]; intros n s; cbn [Py.drop Nat.add]; [reflexivity|].
  destruct s as [|c s]; [destruct n; reflexivity | apply IH].
Qed.

Lemma length_drop n : forall s, String.length (Py.drop n s) = String.length s - n.
Proof.
  induction n as [|n IH]; intros [|c s]; cbn; auto. 
Qed.

Lemma take_all n : forall s, String.length s <= n -> Py.take n s = s.
Proof.
  induction n as [|n IH]; intros [|c s]; cbn; intros H; try reflexivity;
    [lia|]. rewrite IH by lia. reflexivity.
Qed.

Lemma drop_all n : forall s, String.length s <= n -> Py.drop n s = "".
Proof.
  induction n as [|n IH]; intros [|c s]; cbn; intros H; try reflexivity;
    [lia|]. apply IH. lia.
Qed.

Lemma drop_step n : forall s c s',
  Py.drop n s = String c s' -> Py.drop (S n) s = s' /\ n < String.length s.
Proof.
  induction n as [|n IH]; intros [|c0 s] c s'; cbn [Py.drop]; intros H;
    try discriminate.
  - injection H as <- <-. cbn. split; [destruct s; reflexivity | lia].
  - destruct (IH s c s' H) as [E L]. split; [exact E | cbn; lia].
Qed.

Lemma slice_then_drop a b s :
  a <= b -> (Py.slice a b s ++ Py.drop b s)%string = Py.drop a s.
Proof.
  intros H. unfold Py.slice.
  replace (Py.drop b s) with (Py.drop (b - a) (Py.drop a s))
    by (rewrite drop_drop; f_equal; lia).
  apply take_drop.
Qed.

Lemma slice_to_end a s : Py.slice a (String.length s) s = Py.drop a s.
Proof.
  unfold Py.slice. apply take_all. rewrite length_drop. lia.
Qed.

End SliceFacts.

(** * The matcher: where a match can end *)

Module ReFacts.
Import Re SliceFacts Matching.

Section Cursor.
Variable whole : string.

Lemma advance cu c s' :
  at_index whole cu -> rest cu = String c s' ->
  at_index whole (mkCursor (Some c) (S (pos cu)) s').
Proof.
  intros [Hr Hl] E. rewrite Hr in E.
  destruct (drop_step _ _ _ _ E) as [E' L].
  split; cbn [rest pos]; [symmetry; exact E' | exact L].
Qed.

Lemma reaches_here k cu cs x :
  at_index whole cu -> k cu cs = Some x -> reaches whole k cu x.
Proof. intros H E. exists cu, cs. auto. Qed.

Lemma reaches_later k cu cu0 x :
  pos cu0 <= pos cu -> reaches whole k cu x -> reaches whole k cu0 x.
Proof.
  intros L (cu' & cs' & H & L' & E). exists cu', cs'.
  split; [exact H|]. split; [lia | exact E].
Qed.

Lemma orelse_some a b x :
  orelse a b = Some x -> a = Some x \/ b tt = Some x.
Proof. destruct a; cbn; auto. Qed.

Lemma star_greedy_reaches p k x :
  forall s pv ps cs,
    at_index whole (mkCursor pv ps s) ->
    star_greedy p k pv ps s cs = Some x ->
    reaches whole k (mkCursor pv ps s) x.
Proof.
  induction s as [|c s IH]; intros pv ps cs H E; cbn [star_greedy] in E.
  - eapply reaches_here; eauto.
  - destruct (p c).
    + apply orelse_some in E as [E|E]; [|eapply reaches_here; eauto].
      apply IH in E; [|apply (advance (mkCursor pv ps (String c s))); auto].
      eapply reaches_later; [|exact E]. cbn; lia.
    + eapply reaches_here; eauto.
Qed.

Lemma star_lazy_reaches p k x :
  forall s pv ps cs,
    at_index whole (mkCursor pv ps s) ->
    star_lazy p k pv ps s cs = Some x ->
    reaches whole k (mkCursor pv ps s) x.
Proof.
  induction s as [|c s IH]; intros pv ps cs H E; cbn [star_lazy] in E;
    apply orelse_some in E as [E|E]; try (eapply reaches_here; eauto; fail);
    try discriminate.
  destruct (p c); [|discriminate].
  apply IH in E; [|apply (advance (mkCursor pv ps (String c s))); auto].
  eapply reaches_later; [|exact E]. cbn; lia.
Qed.

(** A successful run of a pattern passes through its continuation, at an
    index of the subject that is not before the one it started from. *)
Lemma run_reaches r :
  forall k cu cs x,
    at_index whole cu -> run r k cu cs = Some x -> reaches whole k cu x.
Proof.
  induction r as [|p|a IHa b IHb|a IHa b IHb|p|p|a IHa|i a IHa|ml|ml|];
    intros k cu cs x H E; cbn [run] in E.
  - eapply reaches_here; eauto.
  - destruct (rest cu) as [|c s'] eqn:R; [discriminate|].
    destruct (p c); [|discriminate].
    eapply reaches_later; [|eapply reaches_here; [|exact E]].
    + cbn; lia.
    + eapply advance; eauto.
  - apply IHa in E; [|exact H]. destruct E as (cu1 & cs1 & H1 & L1 & E1).
    apply IHb in E1; [|exact H1]. eapply reaches_later; eauto.
  - apply orelse_some in E as [E|E]; eauto.
  - destruct cu as [pv ps s]. eapply star_greedy_reaches; eauto.
  - destruct cu as [pv ps s]. eapply star_lazy_reaches; eauto.
  - apply orelse_some in E as [E|E]; [eauto | eapply reaches_here; eauto].
  - apply IHa in E; [|exact H]. destruct E as (cu1 & cs1 & H1 & L1 & E1).
    exists cu1, ((i, (pos cu, pos cu1)) :: cs1). auto.
  - destruct (at_bol ml cu); [eapply reaches_here; eauto | discriminate].
  - destruct (at_eol ml cu); [eapply reaches_here; eauto | discriminate].
  - destruct (at_wordb cu); [eapply reaches_here; eauto | discriminate].
Qed.

Lemma eol_ends_line : ends_line whole (Eol true).
Proof.
  intros k cu cs x H E. cbn [run] in E.
  destruct (at_eol true cu) eqn:A; [|discriminate].
  exists cu, cs. auto.
Qed.

Lemma seq_ends_line a b : ends_line whole b -> ends_line whole (Seq a b).
Proof.
  intros Hb k cu cs x H E. cbn [run] in E.
  apply run_reaches in E; [|exact H].
  destruct E as (cu1 & cs1 & H1 & L1 & E1).
  destruct (Hb _ _ _ _ H1 E1) as (cu2 & cs2 & H2 & L2 & A & E2).
  exists cu2, cs2. split; [exact H2|]. split; [lia|]. split; assumption.
Qed.

Lemma match_here_ends_line r cu e cs :
  ends_line whole r -> at_index whole cu -> match_here r cu = Some (e, cs) ->
  pos cu <= e <= String.length whole /\
  (Py.drop e whole = "" \/
   exists s', Py.drop e whole = String Py.LF s').
Proof.
  intros Hr H E. unfold match_here in E.
  destruct (Hr _ _ _ _ H E) as (cu' & cs' & [R L] & L' & A & E').
  injection E' as <- <-. split; [lia|].
  unfold at_eol in A. rewrite R in A.
  destruct (Py.drop (pos cu') whole) as [|c s']; [left; reflexivity|].
  right. exists s'. apply andb_true_iff in A as [A _].
  apply Ascii.eqb_eq in A. subst c. reflexivity.
Qed.

Lemma match_here_bounds r cu e cs :
  at_index whole cu -> match_here r cu = Some (e, cs) ->
  pos cu <= e <= String.length whole.
Proof.
  intros H E. unfold match_here in E.
  apply run_reaches in E; [|exact H].
  destruct E as (cu' & cs' & [R L] & L' & E'). injection E' as <- <-. lia.
Qed.

(** Every match [finditer] lists is a match of the pattern at some index
    of the subject. *)
Lemma finditer_from_In r m :
  forall s skip pv ps,
    s = Py.drop ps whole -> ps <= String.length whole ->
    In m (finditer_from r whole skip pv ps s) ->
    exists pv' ps',
      ps <= ps' <= String.length whole /\
      match_here r (mkCursor pv' ps' (Py.drop ps' whole))
        = Some (m_end m, m_groups m) /\
      m_start m = ps' /\ subject m = whole.
Proof.
  induction s as [|c s IH]; intros skip pv ps Hs Hl Hin;
    cbn [finditer_from] in Hin.
  - destruct skip; [|destruct Hin].
    destruct (match_here r (mkCursor pv ps "")) as [[e cs]|] eqn:E;
      [|destruct Hin].
    destruct Hin as [<-|[]]. exists pv, ps. cbn. rewrite <- Hs. auto.
  - symmetry in Hs. destruct (drop_step _ _ _ _ Hs) as [Hs' L].
    symmetry in Hs'.
    assert (Hrec : forall skip',
               In m (finditer_from r whole skip' (Some c) (S ps) s) ->
               exists pv' ps',
                 ps <= ps' <= String.length whole /\
                 match_here r (mkCursor pv' ps' (Py.drop ps' whole))
                   = Some (m_end m, m_groups m) /\
                 m_start m = ps' /\ subject m = whole).
    { intros skip' H. destruct (IH skip' (Some c) (S ps) Hs' L H)
        as (pv' & ps' & B & R). exists pv', ps'. split; [lia | exact R]. }
    destruct skip; [|eauto].
    destruct (match_here r (mkCursor pv ps (String c s))) as [[e cs]|] eqn:E;
      [|eauto].
    destruct Hin as [<-|Hin]; [|eauto].
    exists pv, ps. cbn. rewrite Hs. auto.
Qed.

(** The matches are listed from left to right. *)
Lemma finditer_from_sorted r :
  forall s skip pv ps,
    s = Py.drop ps whole -> ps <= String.length whole ->
    Forall (fun m => ps <= m_start m <= String.length whole)
           (finditer_from r whole skip pv ps s) /\
    StronglySorted (fun a b => m_start a < m_start b)
                   (finditer_from r whole skip pv ps s).
Proof.
  induction s as [|c s IH]; intros skip pv ps Hs Hl;
    cbn [finditer_from].
  - destruct skip; [|split; constructor].
    destruct (match_here r (mkCursor pv ps "")) as [[e cs]|];
      [|split; constructor].
    split; repeat constructor; cbn; lia.
  - symmetry in Hs. destruct (drop_step _ _ _ _ Hs) as [Hs' L].
    symmetry in Hs'.
    assert (Hrec : forall skip',
               Forall (fun m => ps <= m_start m <= String.length whole)
                 (finditer_from r whole skip' (Some c) (S ps) s) /\
               StronglySorted (fun a b => m_start a < m_start b)
                 (finditer_from r whole skip' (Some c) (S ps) s)).
    { intros skip'. destruct (IH skip' (Some c) (S ps) Hs' L) as [F S].
      split; [|exact S]. eapply Forall_impl; [|exact F].
      cbn. intros; lia. }
    destruct skip; [|apply Hrec].
    destruct (match_here r (mkCursor pv ps (String c s))) as [[e cs]|];
      [|apply Hrec].
    destruct (IH (e - ps - 1) (Some c) (S ps) Hs' L) as [F S].
    split.
    + constructor; [cbn; lia|]. eapply Forall_impl; [|exact F].
      cbn. intros; lia.
    + constructor; [exact S|]. eapply Forall_impl; [|exact F].
      cbn. intros; lia.
Qed.

End Cursor.

Lemma at_index_start whole : at_index whole (mkCursor None 0 whole).
Proof. split; cbn; [reflexivity | lia]. Qed.

Lemma at_index_drop whole pv ps :
  ps <= String.length whole -> at_index whole (mkCursor pv ps (Py.drop ps whole)).
Proof. intros H. split; cbn; auto. Qed.

End ReFacts.

(** * The advanced parser: the script-wide scan for voice-overs *)

Module VoiceOverScanFacts.
Import Re AdvancedScriptParser SliceFacts Matching ReFacts.

Lemma split_on_cons sep s : exists hd tl, Py.split_on sep s = hd :: tl.
Proof.
  induction s as [|c s (hd & tl & IH)]; cbn [Py.split_on]; [eauto|].
  rewrite IH. destruct (Ascii.eqb c sep); eauto.
Qed.

Lemma split_after_line_end s :
  s = ""%string \/ (exists s', s = String Py.LF s') ->
  exists tl, Py.split_on Py.LF s = ""%string :: tl.
Proof.
  intros [->|(s' & ->)]; [exists []; reflexivity|].
  cbn [Py.split_on]. destruct (split_on_cons Py.LF s') as (hd & tl & ->).
  rewrite Ascii.eqb_refl. eauto.
Qed.

Lemma flat_map_nil {A B : Type} (f : A -> list B) l :
  (forall a, In a l -> f a = []) -> flat_map f l = [].
Proof.
  induction l as [|a l IH]; intros H; cbn; [reflexivity|].
  rewrite (H a) by (left; reflexivity). apply IH. intros; apply H; right; auto.
Qed.

Lemma vo_pattern_ends_line whole : ends_line whole vo_pattern.
Proof.
  unfold vo_pattern. cbn [seqs].
  repeat apply seq_ends_line. apply eol_ends_line.
Qed.

Lemma os_pattern_ends_line whole : ends_line whole os_pattern.
Proof.
  unfold os_pattern. cbn [seqs].
  repeat apply seq_ends_line. apply eol_ends_line.
Qed.

(** After a cue found by a pattern that ends at the end of a line, the
    first of the following lines is the empty rest of the cue's own line,
    and the loop over the lines breaks there. *)
Lemma entries_of_nil pattern kind content :
  ends_line content pattern -> entries_of pattern kind content = [].
Proof.
  intros Hp. unfold entries_of. apply flat_map_nil. intros m Hin.
  unfold finditer in Hin.
  apply (finditer_from_In content) in Hin; [|reflexivity | lia].
  destruct Hin as (pv & ps & B & E & _).
  apply (match_here_ends_line content) in E;
    [|exact Hp | apply at_index_drop; lia].
  destruct E as [_ E]. apply split_after_line_end in E as (tl & ->).
  reflexivity.
Qed.

End VoiceOverScanFacts.

(** X1.  [_extract_voice_overs] returns the empty list for every script:
    it reads the spoken lines from the end of the cue's match, so the first
    line it sees is the empty rest of the cue line, and it stops there. *)
Theorem X1_extract_voice_overs_is_empty :
  forall content : string,
    AdvancedScriptParser._extract_voice_overs content = [].
Proof.
  intros content. unfold AdvancedScriptParser._extract_voice_overs.
  rewrite !VoiceOverScanFacts.entries_of_nil;
    auto using VoiceOverScanFacts.vo_pattern_ends_line,
               VoiceOverScanFacts.os_pattern_ends_line.
Qed.

(** * The advanced parser: scene spans *)

Module SpanFacts.
Import Re AdvancedScriptParser SliceFacts Matching ReFacts Spans.

Lemma append_empty_r s : (s ++ "")%string = s.
Proof. induction s as [|c s IH]; cbn; [|rewrite IH]; reflexivity. Qed.

Lemma join_empty_cons x l :
  Py.join "" (x :: l) = (x ++ Py.join "" l)%string.
Proof.
  unfold Py.join. destruct l; cbn [String.concat];
    [rewrite append_empty_r|]; reflexivity.
Qed.

Lemma scenes_of_matches_spans content :
  forall ms,
    Forall (fun m => m_start m <= String.length content) ms ->
    StronglySorted (fun a b => m_start a < m_start b) ms ->
    Forall (in_text content) (scenes_of_matches content ms) /\
    chained (String.length content) (scenes_of_matches content ms) /\
    map d_start (scenes_of_matches content ms) = map m_start ms /\
    forall m ms', ms = m :: ms' ->
      Py.join "" (map d_text (scenes_of_matches content ms))
      = Py.drop (m_start m) content.
Proof.
  induction ms as [|m ms IH]; intros F S.
  - cbn. repeat split; auto. intros; discriminate.
  - inversion F as [|? ? Hm F']; subst. inversion S as [|? ? S' Hlt]; subst.
    destruct (IH F' S') as (IH1 & IH2 & IH3 & IH4).
    cbn [scenes_of_matches].
    destruct ms as [|m' ms'].
    + cbn. repeat split; auto.
      * constructor; [|constructor]. split; cbn; auto.
      * intros m0 ms0 [= <- <-]. apply slice_to_end.
    + inversion Hlt as [|? ? Hmm' _]; subst.
      inversion F' as [|? ? Hm' _]; subst.
      split; [|split; [|split]].
      * constructor; [|exact IH1]. split; cbn; [lia | reflexivity].
      * cbn [chained]. split; [|exact IH2].
        cbn [scenes_of_matches]. reflexivity.
      * cbn [map]. f_equal. exact IH3.
      * intros m0 ms0 [= <- <-].
        specialize (IH4 m' ms' eq_refl).
        cbn [map]. rewrite join_empty_cons, IH4.
        cbn [scene_of_match d_text]. apply slice_then_drop. lia.
Qed.

Lemma extract_scenes_spans content :
  exists first rest,
    _extract_scenes content = first :: rest /\
    Forall (in_text content) (first :: rest) /\
    chained (String.length content) (first :: rest) /\
    Py.join "" (map d_text (first :: rest)) = Py.drop (d_start first) content /\
    d_start first
    = match finditer scene_pattern content with
      | m :: _ => m_start m
      | [] => 0
      end.
Proof.
  unfold _extract_scenes.
  destruct (finditer scene_pattern content) as [|m ms] eqn:E.
  - exists (synthetic_scene content), [].
    split; [reflexivity|]. split; [|split; [|split]].
    + constructor; [|constructor]. split; cbn [synthetic_scene d_start d_end d_text]; [lia|].
      symmetry. rewrite slice_to_end. reflexivity.
    + reflexivity.
    + reflexivity.
    + reflexivity.
  - unfold finditer in E.
    destruct (finditer_from_sorted content scene_pattern content 0 None 0
                eq_refl (Nat.le_0_l _)) as [F S].
    rewrite E in F, S.
    destruct (scenes_of_matches_spans content (m :: ms)) as (H1 & H2 & H3 & H4).
    + eapply Forall_impl; [|exact F]. cbn. intros; lia.
    + exact S.
    + specialize (H4 m ms eq_refl).
      destruct (scenes_of_matches content (m :: ms)) as [|first rest] eqn:Es;
        [discriminate|].
      exists first, rest. injection H3 as H3 _.
      rewrite H3. repeat split; auto.
Qed.

End SpanFacts.

(** X2.  [_extract_scenes] never returns an empty list, and its scenes tile
    the text: each scene's text is the slice of the script between its
    start and its end, a scene ends where the next starts, the last ends at
    the end of the script, and the texts put together are the script from
    the first heading on (the whole script when no heading is found).  What
    stands before the first heading belongs to no scene. *)
Theorem X2_scenes_tile_the_text :
  forall content : string,
  exists first rest,
    AdvancedScriptParser._extract_scenes content = first :: rest /\
    Forall (Spans.in_text content) (first :: rest) /\
    Spans.chained (String.length content) (first :: rest) /\
    Py.join "" (map AdvancedScriptParser.d_text (first :: rest))
    = Py.drop (AdvancedScriptParser.d_start first) content /\
    AdvancedScriptParser.d_start first
    = match Re.finditer AdvancedScriptParser.scene_pattern content with
      | m :: _ => Re.m_start m
      | [] => 0
      end.
Proof. exact SpanFacts.extract_scenes_spans. Qed.

(** * Numbers in identifiers *)

Module FormatFacts.
Import Labels.

Lemma str_inj n m : Py.str n = Py.str m -> n = m.
Proof.
  unfold Py.str. intros H.
  apply (f_equal NilEmpty.uint_of_string) in H.
  rewrite !NilEmpty.usu in H. injection H as H.
  apply (f_equal Nat.of_uint) in H. rewrite !DecimalNat.Unsigned.of_to in H. exact H.
Qed.

Lemma string_of_uint_digits d :
  Py.sall Py.isdigit_c (NilEmpty.string_of_uint d) = true.
Proof. induction d; cbn [NilEmpty.string_of_uint Py.sall]; auto. Qed.

Lemma str_digits n : Py.sall Py.isdigit_c (Py.str n) = true.
Proof. apply string_of_uint_digits. Qed.

Lemma number_of_zero s : number_of (String "0" s) = number_of s.
Proof.
  unfold number_of. cbn [NilEmpty.uint_of_string].
  destruct (NilEmpty.uint_of_string s) as [d|]; reflexivity.
Qed.

Lemma number_of_zeros k s : number_of (Py.zeros k ++ s) = number_of s.
Proof.
  induction k as [|k IH]; cbn [Py.zeros String.append]; [reflexivity|].
  rewrite number_of_zero. exact IH.
Qed.

Lemma number_of_str n : number_of (Py.str n) = Some n.
Proof.
  unfold number_of, Py.str. rewrite NilEmpty.usu. cbn.
  rewrite DecimalNat.Unsigned.of_to. reflexivity.
Qed.

(** Reading a zero-padded number back gives the number. *)
Lemma number_of_fmt03d n : number_of (Py.fmt03d n) = Some n.
Proof. unfold Py.fmt03d. rewrite number_of_zeros. apply number_of_str. Qed.

Lemma fmt03d_inj n m : Py.fmt03d n = Py.fmt03d m -> n = m.
Proof.
  intros H. apply (f_equal number_of) in H.
  rewrite !number_of_fmt03d in H. congruence.
Qed.

Lemma split_at_hyphen :
  forall a a' b b',
    Py.sall Py.isdigit_c a = true -> Py.sall Py.isdigit_c a' = true ->
    (a ++ String "-" b)%string = (a' ++ String "-" b')%string ->
    a = a' /\ b = b'.
Proof.
  induction a as [|c a IH]; intros [|c' a'] b b' Ha Ha' E;
    cbn [String.append Py.sall] in *.
  - injection E as <-. auto.
  - injection E as <- _. discriminate Ha'.
  - injection E as -> _. discriminate Ha.
  - injection E as <- E. apply andb_true_iff in Ha as [_ Ha].
    apply andb_true_iff in Ha' as [_ Ha'].
    destruct (IH a' b b' Ha Ha' E) as [-> ->]. auto.
Qed.

Lemma split_after_digits :
  forall a a' c c' b b',
    Py.sall Py.isdigit_c a = true -> Py.sall Py.isdigit_c a' = true ->
    Py.isdigit_c c = false -> Py.isdigit_c c' = false ->
    (a ++ String c b)%string = (a' ++ String c' b')%string ->
    a = a' /\ c = c' /\ b = b'.
Proof.
  induction a as [|x a IH]; intros [|x' a'] c c' b b' Ha Ha' Hc Hc' E;
    cbn [String.append Py.sall] in *.
  - injection E as <- <-. auto.
  - injection E as <- _. apply andb_true_iff in Ha' as [Ha' _]. congruence.
  - injection E as -> _. apply andb_true_iff in Ha as [Ha _]. congruence.
  - injection E as <- E. apply andb_true_iff in Ha as [_ Ha].
    apply andb_true_iff in Ha' as [_ Ha'].
    destruct (IH a' c c' b b' Ha Ha' Hc Hc' E) as (-> & -> & ->). auto.
Qed.

Lemma append_cancel_l p : forall a b : string,
  (p ++ a)%string = (p ++ b)%string -> a = b.
Proof.
  induction p as [|c p IH]; intros a b E; cbn [String.append] in E;
    [exact E|]. injection E as E. apply IH, E.
Qed.

Lemma make_shot_id_inj n k n' k' :
  AdvancedScriptParser.make_shot_id n k = AdvancedScriptParser.make_shot_id n' k' ->
  n = n' /\ k = k'.
Proof.
  unfold AdvancedScriptParser.make_shot_id. intros H.
  apply split_at_hyphen in H; auto using str_digits.
  destruct H as [Hn Hk]. split; [apply str_inj | apply fmt03d_inj]; assumption.
Qed.

End FormatFacts.

(** * The advanced parser: shot numbers *)

Module NumberingFacts.
Import Re AdvancedScriptParser Labels FormatFacts.

Lemma numbered_nil n : numbered n [].
Proof. reflexivity. Qed.

Lemma numbered_snoc n shots s :
  numbered n shots -> label s = label_of n (S (List.length shots)) ->
  numbered n (shots ++ [s]).
Proof.
  unfold numbered. intros H E.
  rewrite length_app, map_app. cbn [List.length map].
  rewrite Nat.add_1_r, seq_S, map_app, H, E. reflexivity.
Qed.

Lemma establishing_label n k sd acts shot :
  _create_establishing_shot n k sd acts = Py.Ok shot ->
  label shot = label_of n k.
Proof.
  unfold _create_establishing_shot.
  destruct acts; [destruct (d_location sd); [|discriminate]|];
    cbn; intros [= <-]; reflexivity.
Qed.

Lemma closing_label n k sd shot :
  _create_closing_shot n k sd = Py.Ok shot -> label shot = label_of n k.
Proof.
  unfold _create_closing_shot.
  destruct (d_location sd); [|discriminate]. cbn; intros [= <-]; reflexivity.
Qed.

Lemma establishing_rule_numbered n sd acts e :
  establishing_rule n sd acts ([], 1) = Py.Ok e -> emitted_numbered n e.
Proof.
  unfold establishing_rule.
  destruct (negb (is_continuation (d_text sd))).
  - destruct (_create_establishing_shot n 1 sd acts) as [shot|] eqn:E;
      cbn [Py.bind]; [|discriminate].
    intros [= <-]. split; [|reflexivity]. cbn [fst app].
    apply (numbered_snoc n [] shot); [apply numbered_nil|].
    eapply establishing_label; eauto.
  - intros [= <-]. split; reflexivity.
Qed.

Lemma advanced_action_step_numbered order n sd vos e a :
  emitted_numbered n e -> emitted_numbered n (action_step order n sd vos e a).
Proof.
  destruct e as [shots k]. unfold emitted_numbered, action_step.
  cbn [fst snd]. intros [H ->].
  destruct (_ || _); cbn [fst snd]; [|auto].
  split; [apply numbered_snoc; [exact H | reflexivity]|].
  rewrite length_app. cbn. lia.
Qed.

Lemma advanced_dialogue_step_numbered n sd c d :
  coverage_numbered n c -> coverage_numbered n (dialogue_step n sd c d).
Proof.
  destruct c as [[shots k] cur]. unfold coverage_numbered, dialogue_step.
  cbn [fst snd]. intros [H Hc].
  destruct (_needs_new_shot cur (character d)).
  - destruct cur as [s|]; cbn [close_shot fst snd].
    + destruct Hc as [Hl ->]. split; [apply numbered_snoc; assumption|].
      rewrite length_app. cbn [List.length]. rewrite Nat.add_1_r.
      split; reflexivity.
    + subst k. split; [exact H|]. split; reflexivity.
  - destruct cur as [s|]; cbn [fst snd]; [|auto].
    destruct Hc as [Hl ->]. split; [exact H|]. split; [exact Hl|reflexivity].
Qed.

Lemma dialogue_rule_numbered n sd dlg e :
  emitted_numbered n e -> emitted_numbered n (dialogue_rule n sd dlg e).
Proof.
  intros [H Hk]. unfold dialogue_rule.
  assert (Hc : coverage_numbered n
                 (fold_left (dialogue_step n sd) dlg (fst e, snd e, None))).
  { apply (fold_left_invariant (coverage_numbered n)).
    - intros; apply advanced_dialogue_step_numbered; assumption.
    - split; cbn [fst snd]; assumption. }
  destruct (fold_left (dialogue_step n sd) dlg (fst e, snd e, None))
    as [[shots k] cur].
  destruct Hc as [Hs Hc]. cbn [fst snd] in *.
  destruct cur as [s|]; cbn [close_shot]; split; cbn [fst snd]; auto.
  - apply numbered_snoc; tauto.
  - destruct Hc as [_ ->]. rewrite length_app. cbn. lia.
Qed.

Lemma voice_over_step_numbered n e vo :
  emitted_numbered n e -> emitted_numbered n (voice_over_step n e vo).
Proof.
  destruct e as [shots k]. unfold emitted_numbered, voice_over_step.
  cbn [fst snd]. intros [H ->].
  destruct (String.eqb _ _); cbn [fst snd]; [|auto].
  split; [apply numbered_snoc; [exact H | reflexivity]|].
  rewrite length_app. cbn. lia.
Qed.

Lemma closing_rule_numbered n sd e shots :
  emitted_numbered n e -> closing_rule n sd e = Py.Ok shots ->
  numbered n shots.
Proof.
  destruct e as [shots0 k]. unfold emitted_numbered, closing_rule.
  cbn [fst snd]. intros [H ->].
  destruct (_ && _); [|intros [= <-]; exact H].
  destruct (_create_closing_shot n (S (List.length shots0)) sd) as [s|] eqn:E;
    cbn [Py.bind]; [|discriminate].
  intros [= <-]. apply numbered_snoc; [exact H|].
  eapply closing_label; eauto.
Qed.

Lemma generated_shots_numbered order n sd acts dlg vos shots :
  _generate_video_shots order n sd acts dlg vos = Py.Ok shots ->
  numbered n shots.
Proof.
  unfold _generate_video_shots.
  destruct (establishing_rule n sd acts ([], 1)) as [e|] eqn:E;
    cbn [Py.bind]; [|discriminate].
  apply closing_rule_numbered.
  apply (fold_left_invariant (emitted_numbered n));
    [intros; apply voice_over_step_numbered; assumption|].
  apply dialogue_rule_numbered.
  apply (fold_left_invariant (emitted_numbered n));
    [intros; apply advanced_action_step_numbered; assumption|].
  eapply establishing_rule_numbered; eauto.
Qed.

End NumberingFacts.

Module ShotIdFacts.
Import Re AdvancedScriptParser Labels FormatFacts NumberingFacts.

Lemma numbered_ids n shots :
  numbered n shots ->
  map shot_id shots = map (make_shot_id n) (seq 1 (List.length shots)).
Proof.
  unfold numbered. intros H.
  apply (f_equal (map (fun l : string * string * string => fst (fst l)))) in H.
  rewrite !map_map in H. exact H.
Qed.

Lemma numbered_nth n shots j shot :
  numbered n shots -> nth_error shots j = Some shot ->
  label shot = label_of n (S j).
Proof.
  unfold numbered. intros H E.
  assert (L : j < List.length shots)
    by (apply nth_error_Some; rewrite E; discriminate).
  apply (map_nth_error label) in E. rewrite H in E.
  rewrite (map_nth_error (label_of n) j (seq 1 (List.length shots))
             (d := S j)) in E.
  - congruence.
  - rewrite nth_error_nth' with (d := 0) by (rewrite length_seq; exact L).
    rewrite seq_nth by exact L. reflexivity.
Qed.

Lemma NoDup_map_inj {A B : Type} (f : A -> B) l :
  (forall x y, f x = f y -> x = y) -> NoDup l -> NoDup (map f l).
Proof.
  intros Hf. induction 1 as [|a l Hn _ IH]; cbn; constructor; auto.
  rewrite in_map_iff. intros (y & E & Hy). apply Hf in E. subst. auto.
Qed.

Lemma scene_ids_NoDup n shots :
  numbered n shots -> NoDup (map shot_id shots).
Proof.
  intros H. rewrite (numbered_ids n shots H).
  apply NoDup_map_inj; [|apply seq_NoDup].
  intros x y E. apply make_shot_id_inj in E. tauto.
Qed.

Lemma scene_ids_form n shots id :
  numbered n shots -> In id (map shot_id shots) ->
  exists j, id = make_shot_id n j.
Proof.
  intros H Hin. rewrite (numbered_ids n shots H) in Hin.
  apply in_map_iff in Hin as (j & <- & _). eauto.
Qed.

Lemma processed_ids order content tr vos :
  forall sds i scenes,
    Py.mapM (fun '(i, scene_data) =>
               _process_scene order scene_data (i + 1) tr vos content)
            (Py.enumerate_from i sds) = Py.Ok scenes ->
    NoDup (shot_ids scenes) /\
    forall id, In id (shot_ids scenes) ->
               exists a b, i < a /\ id = make_shot_id a b.
Proof.
  induction sds as [|sd sds IH]; intros i scenes H;
    cbn [Py.enumerate_from Py.mapM] in H.
  - injection H as <-. split; [constructor | intros id []].
  - destruct (_process_scene order sd (i + 1) tr vos content) as [s|] eqn:Es;
      cbn [Py.bind] in H; [|discriminate].
    destruct (Py.mapM _ (Py.enumerate_from (S i) sds)) as [rest|] eqn:Er;
      cbn [Py.bind] in H; [|discriminate].
    injection H as <-.
    destruct (IH (S i) rest Er) as [Hnd Hform].
    apply SceneFacts.process_scene_inv in Es. cbv zeta in Es.
    destruct Es as (Hg & _). apply generated_shots_numbered in Hg.
    unfold shot_ids. cbn [flat_map]. fold (shot_ids rest). split.
    + apply NoDup_app; [eapply scene_ids_NoDup; eauto | exact Hnd |].
      intros id H1 H2.
      destruct (scene_ids_form _ _ _ Hg H1) as (j & ->).
      destruct (Hform _ H2) as (a & b & La & E).
      apply make_shot_id_inj in E. lia.
    + intros id Hin. apply in_app_or in Hin as [Hin|Hin].
      * destruct (scene_ids_form _ _ _ Hg Hin) as (j & ->).
        exists (i + 1), j. split; [lia | reflexivity].
      * destruct (Hform _ Hin) as (a & b & La & E).
        exists a, b. split; [lia | exact E].
Qed.

End ShotIdFacts.

Import Re AdvancedScriptParser Labels.

(** X3.  The shots of a processed scene are numbered without gap from 1 in
    the order of the list, whichever rules emitted them and whether or not
    the establishing shot was skipped: the [j]-th shot has shot number
    [f"{j:03d}"], shot id [f"{n}-{j:03d}"] and the scene number of its scene;
    read back as a number, the shot number is the position of the shot. *)
Theorem X3_shots_are_numbered_in_order order sd n tr vos full s :
  _process_scene order sd n tr vos full = Py.Ok s ->
  scene_number s = Py.str n /\
  map (fun shot => (shot_id shot, shot_scene_number shot, shot_number shot))
      (shots s)
  = map (fun j => ((Py.str n ++ "-" ++ Py.fmt03d j)%string,
                   scene_number s, Py.fmt03d j))
        (seq 1 (List.length (shots s))) /\
  (forall j shot,
      nth_error (shots s) j = Some shot ->
      number_of (shot_number shot) = Some (S j)).
Proof.
  intros H. apply SceneFacts.process_scene_inv in H. cbv zeta in H.
  destruct H as (Hg & _ & _ & _ & _ & Hn & _).
  apply NumberingFacts.generated_shots_numbered in Hg.
  split; [exact Hn|]. split.
  - rewrite Hn. exact Hg.
  - intros j shot E.
    pose proof (ShotIdFacts.numbered_nth n _ j shot Hg E) as L.
    injection L as _ _ L. rewrite L. apply FormatFacts.number_of_fmt03d.
Qed.

(** X3 on the scene of the four exchanges, which has six shots. *)
Lemma X3_witness :
  exists s,
    _process_scene forward_order MoreSamples.cafe 1 [] []
                   Samples.four_exchanges = Py.Ok s /\
    List.length (shots s) = 6 /\
    forall j shot,
      nth_error (shots s) j = Some shot ->
      number_of (shot_number shot) = Some (S j).
Proof.
  eexists. split; [vm_compute; reflexivity|].
  split; [vm_compute; reflexivity|].
  apply (X3_shots_are_numbered_in_order forward_order MoreSamples.cafe 1 [] []
           Samples.four_exchanges).
  vm_compute; reflexivity.
Defined.

(** X4.  No two shots of a parsed script have the same shot id. *)
Theorem X4_shot_ids_are_unique order content scenes :
  parse order content = Py.Ok scenes -> NoDup (shot_ids scenes).
Proof.
  unfold parse. intros H.
  apply (ShotIdFacts.processed_ids order content _ _ _ 0 scenes H).
Qed.

(** X4 on Scenario 1. *)
Lemma X4_witness :
  exists scenes,
    parse forward_order Samples.scenario1 = Py.Ok scenes /\
    NoDup (shot_ids scenes).
Proof.
  eexists. split; [vm_compute; reflexivity|].
  apply (X4_shot_ids_are_unique forward_order Samples.scenario1).
  vm_compute; reflexivity.
Defined.

(** * The advanced parser: the loop over the lines of a scene *)

Module LineFacts.
Import Re AdvancedScriptParser LineLoop.

Lemma contains_suffix needle : forall x,
  Py.contains needle needle = true ->
  Py.contains needle (x ++ needle)%string = true.
Proof.
  intros x H. induction x as [|c x IH]; [exact H|].
  cbn [String.append Py.contains]. rewrite IH. apply orb_true_r.
Qed.

Lemma contains_app_r needle y : forall x,
  Py.contains needle y = true ->
  Py.contains needle (x ++ y)%string = true.
Proof.
  intros x H. induction x as [|c x IH]; [exact H|].
  cbn [String.append Py.contains]. rewrite IH. apply orb_true_r.
Qed.

Lemma append_to_last_snoc line b : forall bs,
  append_to_last line (bs ++ [b])
  = bs ++ [mkDialogueBlock (character b) (lines b ++ [line])].
Proof.
  induction bs as [|b0 bs IH]; [reflexivity|].
  cbn [app append_to_last]. rewrite IH.
  destruct (bs ++ [b]) eqn:E; [destruct bs; discriminate | reflexivity].
Qed.

Lemma line_step_cue_open heading st line :
  cue_open st -> cue_open (line_step heading st line).
Proof.
  unfold cue_open, line_step. intros H.
  destruct (Py.is_empty (Py.strip line)); [exact I|].
  destruct (rematch vo_pattern (Py.strip line)) as [m|].
  - cbn [l_current_character]. left.
    apply (contains_app_r "(V.O.)" " (V.O.)"). reflexivity.
  - destruct (_ && _).
    + cbn [l_current_character l_dialogue_blocks]. right.
      exists (l_dialogue_blocks st), (mkDialogueBlock (Py.strip line) []).
      split; reflexivity.
    + destruct (_ && _); [|exact H].
      destruct (Py.contains _ _) eqn:Ec; [exact H|].
      cbn [l_current_character l_dialogue_blocks].
      destruct (l_current_character st) as [c|]; [|exact I].
      cbn [Py.get_default] in Ec.
      destruct H as [H|(bs & b & E & Hc)]; [congruence|].
      right. rewrite E, append_to_last_snoc. eexists _, _.
      split; [reflexivity | exact Hc].
Qed.

Lemma lines_cue_open heading ls :
  cue_open (fold_left (line_step heading) ls loop_start).
Proof.
  apply (fold_left_invariant cue_open).
  - intros; apply line_step_cue_open; assumption.
  - exact I.
Qed.

(** ** Stored strings are stripped *)

Lemma lstrip_head p s :
  match Py.lstrip_by p s with
  | String c _ => p c = false
  | EmptyString => True
  end.
Proof.
  induction s as [|c s IH]; cbn; [exact I|].
  destruct (p c) eqn:E; [exact IH | exact E].
Qed.

Lemma rstrip_rstrip p : forall s,
  Py.rstrip_by p (Py.rstrip_by p s) = Py.rstrip_by p s.
Proof.
  induction s as [|c s IH]; [reflexivity|]. cbn [Py.rstrip_by].
  destruct (Py.is_empty (Py.rstrip_by p s) && p c) eqn:E; [reflexivity|].
  cbn [Py.rstrip_by]. rewrite IH, E. reflexivity.
Qed.

Lemma rstrip_keeps_head p c s :
  p c = false ->
  Py.rstrip_by p (String c s) = String c (Py.rstrip_by p s).
Proof.
  intros H. cbn [Py.rstrip_by]. rewrite H, andb_false_r. reflexivity.
Qed.

Lemma strip_tidy line :
  Py.is_empty (Py.strip line) = false -> tidy (Py.strip line).
Proof.
  unfold Py.strip. pose proof (lstrip_head Py.isspace_c line) as H.
  destruct (Py.lstrip_by Py.isspace_c line) as [|c t]; [discriminate|].
  intros _. rewrite rstrip_keeps_head by exact H. split; [exact H|].
  rewrite <- (rstrip_keeps_head _ _ _ H). apply rstrip_rstrip.
Qed.

Lemma tidy_stripped s : tidy s -> stripped s.
Proof.
  destruct s as [|c s]; intros [H R]; [destruct H|].
  split; [discriminate|]. unfold Py.strip. cbn [Py.lstrip_by].
  rewrite H. exact R.
Qed.

Lemma rstrip_app p y : forall x,
  Py.rstrip_by p y <> "" ->
  Py.rstrip_by p (x ++ y)%string = (x ++ Py.rstrip_by p y)%string.
Proof.
  intros x H. induction x as [|c x IH]; [reflexivity|].
  cbn [String.append Py.rstrip_by]. rewrite IH.
  destruct (x ++ Py.rstrip_by p y)%string eqn:E; [|reflexivity].
  destruct x; [cbn in E; congruence | discriminate].
Qed.

Lemma tidy_nonempty s : tidy s -> s <> "".
Proof. destruct s; intros [H _]; [destruct H | discriminate]. Qed.

Lemma tidy_app x sep y : tidy x -> tidy y -> tidy (x ++ sep ++ y)%string.
Proof.
  intros [Hx _] Hy. split.
  - destruct x; [destruct Hx | exact Hx].
  - assert (E : Py.rstrip_by Py.isspace_c (sep ++ y)%string
                = (sep ++ y)%string).
    { rewrite rstrip_app; rewrite (proj2 Hy);
        [reflexivity | apply tidy_nonempty, Hy]. }
    rewrite rstrip_app; rewrite E; [reflexivity|].
    intros F. destruct sep; [apply (tidy_nonempty y Hy F) | discriminate].
Qed.

Lemma join_tidy sep : forall l,
  l <> [] -> Forall tidy l -> tidy (Py.join sep l).
Proof.
  unfold Py.join. induction l as [|x l IH]; [congruence|].
  intros _ H. inversion H as [|? ? Hx Hl]; subst.
  destruct l as [|y l]; [exact Hx|].
  change (String.concat sep (x :: y :: l))
    with (x ++ sep ++ String.concat sep (y :: l))%string.
  apply tidy_app; [exact Hx|]. apply IH; [discriminate | exact Hl].
Qed.

Lemma flush_tidy acts cur :
  Forall tidy acts -> Forall tidy cur -> Forall tidy (flush acts cur).
Proof.
  intros Ha Hc. unfold flush. destruct cur as [|l cur]; [exact Ha|].
  apply Forall_app. split; [exact Ha|].
  constructor; [|constructor]. apply join_tidy; [discriminate | exact Hc].
Qed.

Lemma append_to_last_tidy line : forall bs,
  tidy line ->
  Forall (fun b => tidy (character b) /\ Forall tidy (lines b)) bs ->
  Forall (fun b => tidy (character b) /\ Forall tidy (lines b))
         (append_to_last line bs).
Proof.
  intros bs Hl. induction 1 as [|b bs [Hc Hb] Hbs IH]; [constructor|].
  cbn [append_to_last]. destruct bs as [|b' bs].
  - constructor; [|constructor]. cbn [character lines]. split; [exact Hc|].
    apply Forall_app. split; [exact Hb | constructor; [exact Hl|constructor]].
  - constructor; [split; assumption | exact IH].
Qed.

Lemma line_step_filled heading st line :
  filled st -> filled (line_step heading st line).
Proof.
  unfold filled, line_step. intros (Ha & Hc & Hd & Hv).
  destruct (Py.is_empty (Py.strip line)) eqn:E.
  - cbn. repeat split; auto using flush_tidy.
  - apply strip_tidy in E.
    destruct (rematch vo_pattern (Py.strip line)); [cbn; auto|].
    destruct (_ && _).
    { cbn. repeat split; auto. apply Forall_app. split; [exact Hd|].
      constructor; [|constructor]. cbn. auto. }
    destruct (_ && _).
    + destruct (Py.contains _ _); cbn; repeat split; auto.
      * apply Forall_app. split; [exact Hv|].
        constructor; [exact E | constructor].
      * apply append_to_last_tidy; assumption.
    + cbn. repeat split; auto. apply Forall_app. split; [exact Hc|].
      constructor; [exact E | constructor].
Qed.

Lemma scan_lines_filled heading scene_text :
  filled (scan_lines heading scene_text).
Proof.
  unfold scan_lines.
  assert (H : filled (fold_left (line_step heading)
                        (tl (Py.split_on Py.LF scene_text)) loop_start)).
  { apply (fold_left_invariant filled).
    - intros; apply line_step_filled; assumption.
    - repeat split; constructor. }
  destruct H as (Ha & Hc & Hd & Hv). repeat split; cbn; auto using flush_tidy.
Qed.

End LineFacts.

Import Re AdvancedScriptParser.

(** X5.  In the loop over the lines of a scene, a spoken line (not blank, no
    cue, no parenthetical, under an open cue) is never dropped, at whatever
    point of the scene it comes: under a cue with (V.O.) it becomes a
    voice-over of that character, and otherwise the last dialogue block is
    the block of the open cue and the line is appended to it.  The action
    blocks are left as they are. *)
Theorem X5_spoken_line_is_stored (heading : string) (ls : list string)
    (line : string) :
  let st := fold_left (line_step heading) ls loop_start in
  let st' := line_step heading st line in
  LineLoop.spoken st line = true ->
  exists c,
    l_current_character st = Some c /\ l_current_character st' = Some c /\
    l_action_blocks st' = l_action_blocks st /\
    l_current_block st' = l_current_block st /\
    ((Py.contains "(V.O.)" c = true /\
      l_scene_voice_overs st'
      = l_scene_voice_overs st ++
          [mkVoiceOver (Py.replace " (V.O.)" "" c) (Py.strip line) heading
                       "during_scene" ""] /\
      l_dialogue_blocks st' = l_dialogue_blocks st)
     \/
     (Py.contains "(V.O.)" c = false /\
      l_scene_voice_overs st' = l_scene_voice_overs st /\
      exists bs b,
        l_dialogue_blocks st = bs ++ [b] /\ character b = c /\
        l_dialogue_blocks st'
        = bs ++ [mkDialogueBlock c (lines b ++ [Py.strip line])])).
Proof.
  intros st st'. subst st'.
  pose proof (LineFacts.lines_cue_open heading ls) as Hopen. fold st in Hopen.
  unfold LineLoop.spoken, LineLoop.cue_open in *. cbv zeta.
  intros H.
  apply andb_prop in H as [H Hp]. apply andb_prop in H as [H Ht].
  apply andb_prop in H as [H Hc]. apply andb_prop in H as [He Hv].
  apply negb_true_iff in Hp, Hc, He, Hv.
  unfold line_step. rewrite He.
  destruct (rematch vo_pattern (Py.strip line)); [discriminate|].
  rewrite Hc, Ht, Hp. cbn [andb negb].
  destruct (l_current_character st) as [c|]; [|discriminate].
  exists c. cbn [Py.get_default].
  destruct (Py.contains "(V.O.)" c) eqn:Ec; cbn.
  - repeat split. left. repeat split.
  - repeat split. right. repeat split.
    destruct Hopen as [Hopen|(bs & b & E & Hb)]; [discriminate|].
    exists bs, b. rewrite E, LineFacts.append_to_last_snoc, Hb. auto.
Qed.

(** X5 on a line after the cue JOHN. *)
Lemma X5_witness :
  exists c,
    l_current_character (fold_left (line_step "H") ["JOHN"; "Hi."] loop_start)
    = Some c /\
    l_current_character
      (line_step "H" (fold_left (line_step "H") ["JOHN"; "Hi."] loop_start)
                 "How are you?") = Some c.
Proof.
  destruct (X5_spoken_line_is_stored "H" ["JOHN"; "Hi."]%string "How are you?"
              ltac:(vm_compute; reflexivity)) as (c & H1 & H2 & _).
  exists c. split; [exact H1 | exact H2].
Defined.

(** X6.  Every string a processed scene stores is non-empty and stripped:
    each action block, the cue of each dialogue block, each line of a
    dialogue block and the text of each voice-over.  A dialogue block may
    have no line at all. *)
Theorem X6_stored_text_is_stripped order sd n tr vos full s :
  _process_scene order sd n tr vos full = Py.Ok s ->
  Forall LineLoop.stripped (action_blocks s) /\
  Forall (fun b => LineLoop.stripped (character b) /\
                   Forall LineLoop.stripped (lines b)) (dialogue_blocks s) /\
  Forall (fun vo => LineLoop.stripped (vo_text vo)) (voice_overs s).
Proof.
  intros H. apply SceneFacts.process_scene_inv in H. cbv zeta in H.
  destruct H as (_ & Ha & Hd & Hv & _). rewrite Ha, Hd, Hv.
  destruct (LineFacts.scan_lines_filled (d_heading sd) (d_text sd))
    as (Fa & _ & Fd & Fv).
  split; [|split].
  - eapply Forall_impl; [|exact Fa]. apply LineFacts.tidy_stripped.
  - eapply Forall_impl; [|exact Fd]. intros b [Hc Hl]. split.
    + apply LineFacts.tidy_stripped, Hc.
    + eapply Forall_impl; [|exact Hl]. apply LineFacts.tidy_stripped.
  - eapply Forall_impl; [|exact Fv]. intros vo. apply LineFacts.tidy_stripped.
Qed.

(** X6 on the scene of the four exchanges. *)
Lemma X6_witness :
  exists s,
    _process_scene forward_order MoreSamples.cafe 1 [] []
                   Samples.four_exchanges = Py.Ok s /\
    List.length (dialogue_blocks s) = 8 /\
    Forall (fun b => LineLoop.stripped (character b) /\
                     Forall LineLoop.stripped (lines b)) (dialogue_blocks s).
Proof.
  eexists. split; [vm_compute; reflexivity|].
  split; [vm_compute; reflexivity|].
  apply (X6_stored_text_is_stripped forward_order MoreSamples.cafe 1 [] []
           Samples.four_exchanges).
  vm_compute; reflexivity.
Defined.

(** * The advanced parser: what the shots of a scene carry *)

Module FrameFacts.
Import Re AdvancedScriptParser Invariants.

Lemma extracted_characters_NoDup order action :
  NoDup (_extract_characters_from_action order action).
Proof.
  unfold _extract_characters_from_action.
  eapply Permutation_NoDup.
  - apply Permutation_sym, Py.list_of_set_perm.
  - apply NoDup_nodup.
Qed.

Lemma extend_shot_NoDup s d :
  NoDup (characters_in_frame s) ->
  NoDup (characters_in_frame (extend_shot s d)).
Proof.
  intros H. cbn [extend_shot characters_in_frame].
  destruct (mem _ _) eqn:E; [exact H|].
  apply NoDup_app; [exact H | constructor; [intros [] | constructor] |].
  intros x Hx [<-|[]].
  apply GuardFacts.mem_In in Hx. congruence.
Qed.

Lemma establishing_shot_bare n k sd acts est :
  _create_establishing_shot n k sd acts = Py.Ok est ->
  characters_in_frame est = [] /\ dialogue est = [] /\
  shot_voice_overs est = [].
Proof.
  unfold _create_establishing_shot. destruct acts as [|a acts].
  - destruct (d_location sd); cbn; [|discriminate]. intros [= <-]. auto.
  - cbn. intros [= <-]. auto.
Qed.

Lemma closing_shot_bare n k sd s :
  _create_closing_shot n k sd = Py.Ok s ->
  characters_in_frame s = [] /\ dialogue s = [] /\ shot_voice_overs s = [].
Proof.
  unfold _create_closing_shot. destruct (d_location sd); cbn; [|discriminate].
  intros [= <-]. auto.
Qed.

(** A property of every shot of a scene, the establishing shot included. *)
Lemma every_shot order (Q : VideoShot -> Prop) n sd vos acts dlg shots :
  (forall k a, Q (action_shot order n k sd vos a (_detect_shot_type a)
                              (_detect_camera_movement a))) ->
  (forall k c d, Q (dialogue_shot n k c sd d)) ->
  (forall s d, Q s -> Q (extend_shot s d)) ->
  (forall k vo, In vo vos -> vo_timing vo = "transitional"%string ->
                Q (voice_over_shot n k vo)) ->
  (forall k s, _create_closing_shot n k sd = Py.Ok s -> Q s) ->
  (forall s, _create_establishing_shot n 1 sd acts = Py.Ok s -> Q s) ->
  _generate_video_shots order n sd acts dlg vos = Py.Ok shots ->
  Forall Q shots.
Proof.
  intros Qa Qd Qe Qv Qc Qs H.
  apply (ShotFacts.generated_shots order Q) in H; auto.
  destruct (is_continuation (d_text sd)); [exact H|].
  destruct H as (est & rest & He & -> & Hr). constructor; auto.
Qed.

Lemma filter_during_scene vos :
  Forall during_scene vos ->
  filter (fun vo => String.eqb (vo_timing vo) "during_scene") vos = vos.
Proof.
  induction 1 as [|vo vos H _ IH]; [reflexivity|].
  cbn [filter]. rewrite H, IH. reflexivity.
Qed.

(** ** Transitions *)

Lemma rstrip_no_trailing p c : forall s x,
  p c = true -> Py.rstrip_by p s <> (x ++ String c "")%string.
Proof.
  induction s as [|a s IH]; intros x Hc; cbn [Py.rstrip_by].
  - destruct x; discriminate.
  - destruct (Py.is_empty (Py.rstrip_by p s) && p a) eqn:E.
    + destruct x; discriminate.
    + destruct x as [|b x]; cbn [String.append].
      * intros [= -> Hr]. rewrite Hr, Hc in E. discriminate.
      * intros [= _ Hr]. exact (IH x Hc Hr).
Qed.

(** ** The order of the shots *)

Section Order.
Import ShotOrder.
Variable order : Py.SetOrder.
Variables (n : nat) (sd : SceneData) (vos : list VoiceOver).

Lemma action_fold_shots : forall acts shots0 k,
  exists new,
    fst (fold_left (action_step order n sd vos) acts (shots0, k))
    = shots0 ++ new /\
    map shot_description new = map (Py.take 200) (filter gets_own_shot acts) /\
    Forall (fun shot =>
              dialogue shot = [] /\
              shot_voice_overs shot
              = filter (fun vo => String.eqb (vo_timing vo) "during_scene") vos)
           new.
Proof.
  induction acts as [|a acts IH]; intros shots0 k; cbn [fold_left filter].
  - exists []. rewrite app_nil_r. auto.
  - unfold action_step at 2. fold (gets_own_shot a).
    destruct (gets_own_shot a).
    + destruct (IH (shots0 ++ [action_shot order n k sd vos a
                                  (_detect_shot_type a)
                                  (_detect_camera_movement a)]) (S k))
        as (new & E & Hd & Hn).
      exists (action_shot order n k sd vos a (_detect_shot_type a)
                          (_detect_camera_movement a) :: new).
      rewrite E, <- app_assoc. split; [reflexivity|].
      split; [cbn [map]; rewrite Hd; reflexivity|].
      constructor; [split; reflexivity | exact Hn].
    + apply IH.
Qed.

Lemma dialogue_fold_shots shots0 : forall blocks new k cur said,
  Forall speaks new ->
  match cur with Some shot => speaks shot | None => True end ->
  flat_map dialogue new ++ open_dialogue cur = said ->
  exists new' k' cur',
    fold_left (dialogue_step n sd) blocks (shots0 ++ new, k, cur)
    = (shots0 ++ new', k', cur') /\
    Forall speaks new' /\
    match cur' with Some shot => speaks shot | None => True end /\
    flat_map dialogue new' ++ open_dialogue cur'
    = said ++ map entry_of blocks.
Proof.
  induction blocks as [|d blocks IH]; intros new k cur said Hn Hc Hs;
    cbn [fold_left map].
  - exists new, k, cur. rewrite app_nil_r. auto.
  - unfold dialogue_step at 2.
    replace (said ++ entry_of d :: map entry_of blocks)
      with ((said ++ [entry_of d]) ++ map entry_of blocks)
      by (rewrite <- app_assoc; reflexivity).
    destruct (_needs_new_shot cur (character d)) eqn:E.
    + destruct cur as [shot|]; cbn [close_shot].
      * rewrite <- app_assoc. apply IH.
        -- apply Forall_app. split; [exact Hn | constructor; auto].
        -- split; [discriminate | reflexivity].
        -- rewrite flat_map_app. cbn [flat_map open_dialogue dialogue_shot
                                       dialogue] in *.
           rewrite app_nil_r, <- Hs. reflexivity.
      * apply IH; [exact Hn | split; [discriminate | reflexivity] |].
        cbn [open_dialogue dialogue_shot dialogue] in *.
        rewrite app_nil_r in Hs. rewrite Hs. reflexivity.
    + destruct cur as [shot|]; [|discriminate E].
      apply IH; [exact Hn | |].
      * destruct Hc as [H1 H2]. split; [|exact H2].
        cbn [extend_shot dialogue]. destruct (dialogue shot); discriminate.
      * cbn [open_dialogue extend_shot dialogue] in *.
        rewrite app_assoc, Hs. reflexivity.
Qed.

Lemma dialogue_rule_shots blocks shots0 k :
  exists new,
    fst (dialogue_rule n sd blocks (shots0, k)) = shots0 ++ new /\
    Forall speaks new /\
    flat_map dialogue new = map entry_of blocks.
Proof.
  destruct (dialogue_fold_shots shots0 blocks [] k None [])
    as (new & k' & cur & E & Hn & Hc & Hs); [constructor | exact I | reflexivity|].
  rewrite app_nil_r in E. unfold dialogue_rule. cbn [fst snd]. rewrite E.
  cbn [app] in Hs. destruct cur as [shot|]; cbn [close_shot fst open_dialogue] in *.
  - exists (new ++ [shot]). rewrite app_assoc. split; [reflexivity|].
    split; [apply Forall_app; split; [exact Hn | constructor; auto]|].
    rewrite flat_map_app. cbn [flat_map]. rewrite app_nil_r. exact Hs.
  - exists new. rewrite app_nil_r in Hs. auto.
Qed.

Lemma closing_rule_shots shots0 k shots :
  closing_rule n sd (shots0, k) = Py.Ok shots ->
  exists cl, shots = shots0 ++ cl /\ List.length cl <= 1 /\
             Forall (fun shot => shot_type shot = "WIDE"%string /\ bare shot) cl.
Proof.
  unfold closing_rule. destruct (_ && _).
  - destruct (_create_closing_shot n k sd) as [shot|] eqn:E; cbn [Py.bind];
      [|discriminate].
    intros [= <-]. exists [shot]. split; [reflexivity|]. split; [cbn; lia|].
    constructor; [|constructor]. split.
    + apply SceneFacts.closing_shot_fields in E. apply E.
    + apply closing_shot_bare in E. exact E.
  - intros [= <-]. exists []. rewrite app_nil_r. split; [reflexivity|].
    split; [cbn; lia | constructor].
Qed.

Lemma establishing_rule_shots acts e :
  establishing_rule n sd acts ([], 1) = Py.Ok e ->
  List.length (fst e) <= 1 /\
  Forall (fun shot => shot_type shot = "WIDE ESTABLISHING"%string /\ bare shot)
         (fst e).
Proof.
  unfold establishing_rule. destruct (negb _).
  - destruct (_create_establishing_shot n 1 sd acts) as [shot|] eqn:E;
      cbn [Py.bind]; [|discriminate].
    intros [= <-]. cbn [fst app]. split; [cbn; lia|].
    constructor; [|constructor]. split.
    + apply SceneFacts.establishing_shot_fields in E. apply E.
    + apply establishing_shot_bare in E. exact E.
  - intros [= <-]. cbn. split; [lia | constructor].
Qed.

End Order.

End FrameFacts.

Import Re AdvancedScriptParser Invariants.

(** X7.  No shot of a processed scene lists a character twice in
    [characters_in_frame], whatever the order in which sets are iterated. *)
Theorem X7_frame_has_no_duplicates order sd n tr vos full s :
  _process_scene order sd n tr vos full = Py.Ok s ->
  Forall (fun shot => NoDup (characters_in_frame shot)) (shots s).
Proof.
  intros H. apply SceneFacts.process_scene_inv in H. cbv zeta in H.
  destruct H as (H & _).
  apply (FrameFacts.every_shot order
           (fun shot => NoDup (characters_in_frame shot))) in H; auto.
  - intros k a. apply FrameFacts.extracted_characters_NoDup.
  - intros k c d. cbn. constructor; [intros [] | constructor].
  - intros shot d. apply FrameFacts.extend_shot_NoDup.
  - intros k vo _ _. constructor.
  - intros k shot E. apply FrameFacts.closing_shot_bare in E as (-> & _).
    constructor.
  - intros shot E. apply FrameFacts.establishing_shot_bare in E as (-> & _).
    constructor.
Qed.

(** X7 on the scene of the four exchanges. *)
Lemma X7_witness :
  exists s,
    _process_scene forward_order MoreSamples.cafe 1 [] []
                   Samples.four_exchanges = Py.Ok s /\
    Forall (fun shot => NoDup (characters_in_frame shot)) (shots s).
Proof.
  eexists. split; [vm_compute; reflexivity|].
  apply (X7_frame_has_no_duplicates forward_order MoreSamples.cafe 1 [] []
           Samples.four_exchanges).
  vm_compute; reflexivity.
Defined.

(** X8.  The shots of a processed scene come in the order of the rules, not
    of the script: at most one establishing shot, then one shot for each
    action block that names a shot type or a camera movement or is longer
    than 100 characters, in the order of the blocks, then the shots of
    dialogue coverage, whose entries are the dialogue blocks in order, then
    at most one closing shot.  The action shots carry every voice-over of the
    scene, all other shots none. *)
Theorem X8_shots_follow_the_rules order sd n tr vos full s :
  _process_scene order sd n tr vos full = Py.Ok s ->
  exists est acts dlgs cl,
    shots s = est ++ acts ++ dlgs ++ cl /\
    List.length est <= 1 /\
    Forall (fun shot => shot_type shot = "WIDE ESTABLISHING"%string /\
                        ShotOrder.bare shot) est /\
    map shot_description acts
    = map (Py.take 200) (filter ShotOrder.gets_own_shot (action_blocks s)) /\
    Forall (fun shot => dialogue shot = [] /\
                        shot_voice_overs shot = voice_overs s) acts /\
    flat_map dialogue dlgs = map ShotOrder.entry_of (dialogue_blocks s) /\
    Forall ShotOrder.speaks dlgs /\
    List.length cl <= 1 /\
    Forall (fun shot => shot_type shot = "WIDE"%string /\ ShotOrder.bare shot)
           cl.
Proof.
  intros H. apply SceneFacts.process_scene_inv in H. cbv zeta in H.
  destruct H as (H & Ha & Hd & Hv & _). rewrite Ha, Hd, Hv.
  pose proof (VoiceOverFacts.scan_lines_during_scene (d_heading sd) (d_text sd))
    as Hds.
  set (st := scan_lines (d_heading sd) (d_text sd)) in *.
  unfold _generate_video_shots in H.
  destruct (establishing_rule n sd (l_action_blocks st) ([], 1))
    as [[est k1]|] eqn:E1; cbn [Py.bind] in H; [|discriminate].
  apply FrameFacts.establishing_rule_shots in E1 as [L1 F1]. cbn [fst] in *.
  rewrite (VoiceOverFacts.voice_over_rule_idle n _ Hds) in H.
  destruct (FrameFacts.action_fold_shots order n sd (l_scene_voice_overs st)
              (l_action_blocks st) est k1) as (acts & E2 & D2 & F2).
  destruct (fold_left (action_step order n sd (l_scene_voice_overs st))
                      (l_action_blocks st) (est, k1)) as [shots2 k2].
  cbn [fst] in E2. subst shots2.
  destruct (FrameFacts.dialogue_rule_shots n sd (l_dialogue_blocks st)
              (est ++ acts) k2) as (dlgs & E3 & F3 & D3).
  destruct (dialogue_rule n sd (l_dialogue_blocks st) (est ++ acts, k2))
    as [shots3 k3].
  cbn [fst] in E3. subst shots3.
  apply FrameFacts.closing_rule_shots in H as (cl & -> & L4 & F4).
  exists est, acts, dlgs, cl. rewrite <- !app_assoc.
  split; [reflexivity|]. split; [exact L1|]. split; [exact F1|].
  split; [exact D2|]. split.
  { eapply Forall_impl; [|exact F2]. intros shot [Hx Hy]. split; [exact Hx|].
    rewrite Hy. apply FrameFacts.filter_during_scene, Hds. }
  split; [exact D3|]. split; [exact F3|]. split; [exact L4 | exact F4].
Qed.

(** X8 on the scene of the four exchanges. *)
Lemma X8_witness :
  exists s est acts dlgs cl,
    _process_scene forward_order MoreSamples.cafe 1 [] []
                   Samples.four_exchanges = Py.Ok s /\
    shots s = est ++ acts ++ dlgs ++ cl /\
    flat_map dialogue dlgs = map ShotOrder.entry_of (dialogue_blocks s).
Proof.
  eexists.
  destruct (X8_shots_follow_the_rules forward_order MoreSamples.cafe 1 [] []
              Samples.four_exchanges _ ltac:(vm_compute; reflexivity))
    as (est & acts & dlgs & cl & H1 & _ & _ & _ & _ & H2 & _).
  exists est, acts, dlgs, cl.
  split; [vm_compute; reflexivity|]. split; [exact H1 | exact H2].
Defined.

(** * The advanced parser: transitions of a scene *)

Module TransitionFacts.
Import Re AdvancedScriptParser.

Import Joins.

Section Windows.
Variables (before_text after_text : string) (n : nat).

Lemma transition_step_both acc pattern :
  both n acc -> both n (transition_step before_text after_text n acc pattern).
Proof.
  intros [Hi Ho]. unfold transition_step. split; cbn [fst snd].
  - destruct (search pattern before_text) as [m|]; [|exact Hi].
    intros t [= <-]. repeat split.
    intros x. apply FrameFacts.rstrip_no_trailing. reflexivity.
  - destruct (search pattern after_text) as [m|]; [|exact Ho].
    intros t [= <-]. repeat split.
    intros x. apply FrameFacts.rstrip_no_trailing. reflexivity.
Qed.

Lemma transitions_both patterns :
  both n (fold_left (transition_step before_text after_text n) patterns
                  (None, None)).
Proof.
  apply (fold_left_invariant (both n)).
  - intros; apply transition_step_both; assumption.
  - split; intros t; discriminate.
Qed.

End Windows.

End TransitionFacts.

Import Re AdvancedScriptParser.

(** X9.  A transition attached to a processed scene names the scenes it
    joins: the incoming one leads to this scene from the scene before it, or
    from "OPENING" for the first scene, the outgoing one leads from this
    scene to the next number; the type of either has no colon at its end. *)
Theorem X9_transitions_name_their_scenes order sd n tr vos full s :
  _process_scene order sd n tr vos full = Py.Ok s ->
  (forall t, transitions_in s = Some t ->
     tr_to_scene t = scene_number s /\
     tr_from_scene t = (if Nat.ltb 1 n then Py.str (n - 1) else "OPENING") /\
     forall x, tr_type t <> (x ++ ":")%string) /\
  (forall t, transitions_out s = Some t ->
     tr_from_scene t = scene_number s /\
     tr_to_scene t = Py.str (n + 1) /\
     forall x, tr_type t <> (x ++ ":")%string).
Proof.
  unfold _process_scene. intros H.
  destruct (_generate_video_shots order n sd _ _ _) as [shs|];
    cbn [Py.bind] in H; [|discriminate].
  match type of H with
  | context [fold_left (transition_step ?b ?a n) transition_patterns _] =>
      pose proof (TransitionFacts.transitions_both b a n transition_patterns)
        as [Hi Ho];
      destruct (fold_left (transition_step b a n) transition_patterns _)
        as [tin tout]
  end.
  destruct (d_location sd) as [loc|]; cbn [Py.getitem Py.bind] in H;
    [|discriminate].
  destruct (d_time sd) as [time|]; cbn [Py.getitem Py.bind] in H;
    [|discriminate].
  injection H as <-. cbn [transitions_in transitions_out scene_number fst snd] in *.
  split; [exact Hi | exact Ho].
Qed.

(** X9 on the second scene of a script with CUT TO: before it. *)
Lemma X9_witness :
  exists s t,
    _process_scene forward_order MoreSamples.street 2 [] []
                   MoreSamples.cut_script = Py.Ok s /\
    transitions_in s = Some t /\
    tr_type t = "CUT TO"%string /\
    tr_from_scene t = "1"%string /\ tr_to_scene t = scene_number s.
Proof.
  do 2 eexists. split; [vm_compute; reflexivity|].
  split; [vm_compute; reflexivity|].
  split; [vm_compute; reflexivity|].
  destruct (proj1 (X9_transitions_name_their_scenes forward_order
                     MoreSamples.street 2 [] [] MoreSamples.cut_script _
                     ltac:(vm_compute; reflexivity)) _
                  ltac:(vm_compute; reflexivity)) as (H1 & H2 & _).
  split; [exact H2 | exact H1].
Defined.

(** * The advanced parser: statistics *)

Module StatisticsFacts.
Import Re AdvancedScriptParser Statistics.

Lemma bump_keys key x : forall c,
  In x (map fst (bump key c)) -> x = key \/ In x (map fst c).
Proof.
  induction c as [|[k v] c IH]; cbn [bump map fst].
  - intros [<-|[]]. left; reflexivity.
  - destruct (String.eqb k key); cbn [map fst In]; [tauto|].
    intros [H|H]; [tauto|]. apply IH in H. tauto.
Qed.

Lemma bump_NoDup key : forall c,
  NoDup (map fst c) -> NoDup (map fst (bump key c)).
Proof.
  induction c as [|[k v] c IH]; cbn [bump map fst]; intros H.
  - constructor; [intros [] | constructor].
  - destruct (String.eqb_spec k key) as [E|E]; cbn [map fst]; [exact H|].
    inversion H as [|? ? Hn Hc]; subst. constructor; [|apply IH, Hc].
    intros Hin. apply bump_keys in Hin as [Hin|Hin]; auto.
Qed.

Lemma bump_total key : forall c, total (bump key c) = S (total c).
Proof.
  unfold total, list_sum. induction c as [|[k v] c IH]; [reflexivity|].
  cbn [bump]. destruct (String.eqb k key); cbn [map snd fold_right].
  - reflexivity.
  - rewrite IH. lia.
Qed.

Lemma bump_count key k : forall c,
  count_of k (bump key c)
  = count_of k c + (if string_dec key k then 1 else 0).
Proof.
  induction c as [|[k0 v] c IH]; cbn [bump count_of].
  - destruct (String.eqb_spec key k), (string_dec key k);
      try reflexivity; contradiction.
  - destruct (String.eqb_spec k0 key) as [->|Hne]; cbn [count_of].
    + destruct (String.eqb_spec key k), (string_dec key k);
        try contradiction; lia.
    + destruct (String.eqb_spec k0 k) as [->|Hk]; [|exact IH].
      destruct (string_dec key k); [congruence | lia].
Qed.

Lemma bump_counts keys key c :
  counts keys c -> counts (keys ++ [key]) (bump key c).
Proof.
  intros (Hn & Ht & Hc). split; [apply bump_NoDup, Hn|]. split.
  - rewrite bump_total, Ht, length_app. cbn. lia.
  - intros k. rewrite bump_count, Hc, count_occ_app. cbn [count_occ].
    destruct (string_dec key k); reflexivity.
Qed.

Lemma shots_fold : forall l st,
  let st' := fold_left shot_step l st in
  total_scenes st' = total_scenes st /\
  total_shots st' = total_shots st /\
  total_voice_overs st' = total_voice_overs st /\
  scene_types st' = scene_types st /\
  transitions st' = transitions st /\
  flashback_scenes st' = flashback_scenes st /\
  montage_scenes st' = montage_scenes st /\
  (forall keys, counts keys (shot_types st) ->
                counts (keys ++ map shot_type l) (shot_types st')) /\
  dialogue_shots st' = dialogue_shots st + List.length (filter speaking l) /\
  dialogue_shots st' + action_shots st'
  = dialogue_shots st + action_shots st + List.length l.
Proof.
  induction l as [|shot l IH]; intros st; cbn [fold_left].
  - cbn [map filter List.length]. do 7 (split; [reflexivity|]).
    split; [|split; lia]. intros keys H. rewrite app_nil_r. exact H.
  - specialize (IH (shot_step st shot)). cbv zeta in *.
    destruct IH as (H1 & H2 & H3 & H4 & H5 & H6 & H7 & H8 & H9 & H10).
    rewrite H1, H2, H3, H4, H5, H6, H7, H10, H9.
    cbn [shot_step total_scenes total_shots total_voice_overs scene_types
         transitions flashback_scenes montage_scenes].
    do 7 (split; [reflexivity|]). split; [|split].
    + intros keys H. cbn [map].
      replace (keys ++ shot_type shot :: map shot_type l)
        with ((keys ++ [shot_type shot]) ++ map shot_type l)
        by (rewrite <- app_assoc; reflexivity).
      apply H8. cbn [shot_step shot_types]. apply bump_counts, H.
    + cbn [shot_step dialogue_shots filter]. unfold speaking at 2.
      destruct (dialogue shot); cbn [List.length]; lia.
    + cbn [shot_step dialogue_shots action_shots List.length].
      destruct (dialogue shot); lia.
Qed.

Lemma count_transition_counts keys t c :
  counts keys c ->
  counts (keys ++ map tr_type (match t with Some t => [t] | None => [] end))
         (count_transition t c).
Proof.
  intros H. destruct t as [t|]; cbn [count_transition map].
  - apply bump_counts, H.
  - rewrite app_nil_r. exact H.
Qed.

Lemma all_shots_snoc seen scene :
  all_shots (seen ++ [scene]) = all_shots seen ++ shots scene.
Proof.
  unfold all_shots. rewrite flat_map_app. cbn. rewrite app_nil_r. reflexivity.
Qed.

Lemma all_transitions_snoc seen scene :
  all_transitions (seen ++ [scene])
  = all_transitions seen ++
    (match transitions_in scene with Some t => [t] | None => [] end ++
     match transitions_out scene with Some t => [t] | None => [] end).
Proof.
  unfold all_transitions. rewrite flat_map_app. cbn. rewrite app_nil_r.
  reflexivity.
Qed.

Lemma scene_step_counted seen st scene :
  counted seen st -> counted (seen ++ [scene]) (scene_step st scene).
Proof.
  intros (Hs & Hh & Ht & Hf & Hm & Hda & Hd). unfold scene_step.
  match goal with
  | |- context [fold_left shot_step (shots scene) ?s0] =>
      pose proof (shots_fold (shots scene) s0) as F; cbv zeta in F;
      destruct F as (_ & _ & _ & F4 & F5 & F6 & F7 & F8 & F9 & F10)
  end.
  cbn [total_scenes total_shots total_voice_overs scene_types shot_types
       transitions flashback_scenes montage_scenes dialogue_shots action_shots]
    in *.
  unfold counted.
  cbn [total_scenes total_shots total_voice_overs scene_types shot_types
       transitions flashback_scenes montage_scenes dialogue_shots action_shots].
  rewrite F4, F6, F7, F10, F9, all_shots_snoc, all_transitions_snoc.
  rewrite !map_app, !count_occ_app, filter_app, !length_app.
  cbn [map count_occ].
  split; [apply bump_counts, Hs|].
  split; [apply F8, Hh|].
  split.
  { rewrite app_assoc. apply count_transition_counts.
    rewrite F5. apply count_transition_counts, Ht. }
  split.
  { destruct (String.eqb_spec (scene_type scene) "FLASHBACK") as [E|E];
      destruct (string_dec (scene_type scene) "FLASHBACK");
      try contradiction; lia. }
  split.
  { destruct (String.eqb_spec (scene_type scene) "FLASHBACK") as [E|E];
      destruct (String.eqb_spec (scene_type scene) "MONTAGE") as [E'|E'];
      destruct (string_dec (scene_type scene) "MONTAGE");
      try contradiction; try lia.
    rewrite E in E'. discriminate. }
  split; [lia|]. fold speaking. fold speaking in Hd. lia.
Qed.

Lemma scenes_fold_counted : forall scenes seen st,
  counted seen st ->
  counted (seen ++ scenes) (fold_left scene_step scenes st).
Proof.
  induction scenes as [|scene scenes IH]; intros seen st H; cbn [fold_left].
  - rewrite app_nil_r. exact H.
  - replace (seen ++ scene :: scenes) with ((seen ++ [scene]) ++ scenes)
      by (rewrite <- app_assoc; reflexivity).
    apply IH, scene_step_counted, H.
Qed.

Lemma scene_step_totals st scene :
  total_scenes (scene_step st scene) = total_scenes st /\
  total_shots (scene_step st scene) = total_shots st /\
  total_voice_overs (scene_step st scene) = total_voice_overs st.
Proof.
  unfold scene_step.
  match goal with
  | |- context [fold_left shot_step (shots scene) ?s0] =>
      pose proof (shots_fold (shots scene) s0) as F; cbv zeta in F;
      destruct F as (F1 & F2 & F3 & _)
  end.
  cbn [total_scenes total_shots total_voice_overs] in *. auto.
Qed.

Lemma scenes_fold_totals : forall scenes st,
  total_scenes (fold_left scene_step scenes st) = total_scenes st /\
  total_shots (fold_left scene_step scenes st) = total_shots st /\
  total_voice_overs (fold_left scene_step scenes st) = total_voice_overs st.
Proof.
  induction scenes as [|scene scenes IH]; intros st; cbn [fold_left]; [auto|].
  destruct (IH (scene_step st scene)) as (-> & -> & ->).
  apply scene_step_totals.
Qed.

Lemma all_shots_length scenes :
  List.length (all_shots scenes)
  = list_sum (map (fun scene => List.length (shots scene)) scenes).
Proof.
  unfold all_shots. induction scenes as [|s scenes IH]; [reflexivity|].
  cbn [flat_map map]. rewrite length_app, IH. reflexivity.
Qed.

Lemma all_transitions_length scenes :
  List.length (all_transitions scenes) <= 2 * List.length scenes.
Proof.
  unfold all_transitions. induction scenes as [|s scenes IH]; [cbn; lia|].
  cbn [flat_map List.length]. rewrite !length_app.
  destruct (transitions_in s), (transitions_out s); cbn [List.length]; lia.
Qed.

Lemma generated_statistics scenes :
  counted scenes (_generate_statistics scenes).
Proof.
  unfold _generate_statistics.
  apply (scenes_fold_counted scenes []).
  unfold counted, counts. cbn. repeat split; auto; constructor.
Qed.

End StatisticsFacts.

Import Re AdvancedScriptParser Statistics.

(** X10.  The statistics of a list of scenes agree with one another and
    with the scenes: every shot is counted once as a dialogue shot or as an
    action shot, the counts by shot type and by scene type add up to the
    totals, each count is the number of shots (scenes) of that type, the
    flashback and montage counts are the entries of the scene-type table,
    and at most two transitions are counted for a scene. *)
Theorem X10_statistics_add_up (scenes : list EnhancedScene) :
  let stats := _generate_statistics scenes in
  total_scenes stats = List.length scenes /\
  dialogue_shots stats + action_shots stats = total_shots stats /\
  total (shot_types stats) = total_shots stats /\
  total (scene_types stats) = total_scenes stats /\
  (forall t, count_of t (shot_types stats)
             = count_occ string_dec (map shot_type (all_shots scenes)) t) /\
  (forall t, count_of t (scene_types stats)
             = count_occ string_dec (map scene_type scenes) t) /\
  flashback_scenes stats = count_of "FLASHBACK" (scene_types stats) /\
  montage_scenes stats = count_of "MONTAGE" (scene_types stats) /\
  total (transitions stats) <= 2 * total_scenes stats.
Proof.
  intros stats. subst stats.
  destruct (StatisticsFacts.generated_statistics scenes)
    as ((_ & Ts & Cs) & (_ & Th & Ch) & (_ & Tt & _) & Hf & Hm & Hda & _).
  destruct (StatisticsFacts.scenes_fold_totals scenes
              (mkStats (List.length scenes)
                 (list_sum (map (fun scene => List.length (shots scene)) scenes))
                 (list_sum (map (fun scene => List.length (voice_overs scene))
                                scenes))
                 [] [] [] 0 0 0 0)) as (E1 & E2 & _).
  cbn [total_scenes total_shots] in E1, E2.
  fold (_generate_statistics scenes) in E1, E2.
  rewrite E1, E2, Ts, Th, Tt, Hf, Hm, Hda, !Cs, !length_map.
  rewrite <- StatisticsFacts.all_shots_length.
  repeat split; auto. apply StatisticsFacts.all_transitions_length.
Qed.

(** * The basic parser: shots and lines *)

Module BasicShotFacts.
Import Re ScriptParser FormatFacts.









End BasicShotFacts.

Module EnhancedLineFacts.
Import Re EnhancedScriptParser.







End EnhancedLineFacts.

Module OrchestratorFacts.
Import AgentOrchestrator BasicLines.

Lemma orchestrator_mem_In s l : mem s l = true <-> In s l.
Proof.
  unfold mem. rewrite existsb_exists. split.
  - intros (x & Hx & E). apply String.eqb_eq in E. subst. exact Hx.
  - intros H. exists s. split; [exact H | apply String.eqb_refl].
Qed.

Lemma character_step_named l d : named l -> named (character_step l d).
Proof.
  intros [Hn Hf]. unfold character_step.
  destruct (Py.is_empty (char_name d)) eqn:E; [split; assumption|].
  destruct (mem (char_name d) l) eqn:M; [split; assumption|].
  cbn [negb andb]. split.
  - apply NoDup_app; [exact Hn | constructor; [intros [] | constructor] |].
    intros x Hx [<-|[]]. apply orchestrator_mem_In in Hx. congruence.
  - apply Forall_app. split; [exact Hf|]. constructor; [|constructor].
    intros F. rewrite F in E. discriminate.
Qed.

Lemma character_step_from l d x :
  In x (character_step l d) -> In x l \/ x = char_name d.
Proof.
  unfold character_step. destruct (_ && _); [|auto].
  intros H. apply in_app_or in H as [H|[<-|[]]]; auto.
Qed.

Lemma characters_from : forall ds l x,
  In x (fold_left character_step ds l) ->
  In x l \/ In x (map char_name ds).
Proof.
  induction ds as [|d ds IH]; intros l x; cbn [fold_left map In]; [auto|].
  intros H. apply IH in H as [H|H]; [|auto].
  apply character_step_from in H as [H|H]; auto.
Qed.

Lemma filter_twice {A : Type} (p q r : A -> bool) :
  (forall x, r x = q x && p x) ->
  forall l, filter p (filter q l) = filter r l.
Proof.
  intros H. induction l as [|x l IH]; [reflexivity|]. cbn [filter].
  rewrite H. destruct (q x); cbn [filter andb]; rewrite IH; reflexivity.
Qed.

Lemma first_occurrences_In x : forall l,
  In x (first_occurrences l) <-> In x l.
Proof.
  induction l as [|y l IH]; cbn [first_occurrences In]; [tauto|].
  rewrite filter_In, IH, negb_true_iff. split.
  - tauto.
  - intros [H|H]; [auto|].
    destruct (String.eqb_spec x y) as [->|N]; auto.
Qed.

Lemma mem_snoc y acc name :
  mem y (acc ++ [name]) = mem y acc || String.eqb y name.
Proof.
  unfold mem. rewrite existsb_app. cbn. rewrite orb_false_r. reflexivity.
Qed.

(** The loop lists the non-empty names where they occur first. *)
Lemma characters_fold : forall ds acc,
  fold_left character_step ds acc
  = acc ++ filter (fun y => negb (mem y acc))
             (first_occurrences
                (filter (fun name => negb (Py.is_empty name))
                        (map char_name ds))).
Proof.
  induction ds as [|d ds IH]; intros acc; cbn [fold_left map filter].
  - cbn. rewrite app_nil_r. reflexivity.
  - rewrite IH. unfold character_step.
    destruct (Py.is_empty (char_name d)); cbn [negb andb]; [reflexivity|].
    cbn [first_occurrences filter].
    destruct (mem (char_name d) acc) eqn:M; cbn [negb].
    + f_equal. symmetry. apply filter_twice. intros y.
      destruct (String.eqb_spec y (char_name d)) as [->|N]; cbn [negb andb];
        [rewrite M|]; reflexivity.
    + rewrite <- app_assoc. cbn [app]. do 2 f_equal. symmetry.
      apply filter_twice. intros y. rewrite mem_snoc, negb_orb.
      apply andb_comm.
Qed.

Lemma filter_all {A : Type} (l : list A) : filter (fun _ => true) l = l.
Proof. induction l as [|x l IH]; cbn; [|rewrite IH]; reflexivity. Qed.

Lemma extracted_characters shot :
  _extract_characters shot
  = match first_occurrences (speaker_names shot) with
    | [] => ["SUBJECT"%string]
    | names => names
    end.
Proof.
  unfold _extract_characters, speaker_names. rewrite characters_fold.
  cbn [app mem existsb negb]. rewrite filter_all.
  destruct (first_occurrences _); reflexivity.
Qed.

End OrchestratorFacts.

Import Re.




(** The same lines in a whole scene. *)
Example action_after_dialogue_is_spoken :
  let scene :=
    ScriptParser._parse_scene 1
      (Py.text ["INT. OFFICE - DAY"; "JOHN"; "Hello."; "";
                "He leaves the room."]%string) in
  ScriptParser.action_blocks scene = [] /\
  ScriptParser.dialogue_blocks scene
  = [ScriptParser.mkDialogueBlock "JOHN"
       ["Hello."; "He leaves the room."]%string].
Proof. split; vm_compute; reflexivity. Qed.

(** X13.  [AgentOrchestrator._extract_characters] returns exactly the
    non-empty speaker names of the shot, parentheticals cut off, each once
    and in the order of its first entry, and ["SUBJECT"] alone when there is
    no such name.  So the list is never empty, has no duplicate and no empty
    name, and every non-empty speaker name of the shot is in it. *)
Theorem X13_orchestrator_characters (shot : ScriptParser.Shot) :
  let characters := AgentOrchestrator._extract_characters shot in
  characters
  = match BasicLines.first_occurrences (BasicLines.speaker_names shot) with
    | [] => ["SUBJECT"%string]
    | names => names
    end /\
  characters <> [] /\ NoDup characters /\
  Forall (fun name => name <> ""%string) characters /\
  (characters = ["SUBJECT"%string] \/
   forall name, In name characters ->
                In name (map AgentOrchestrator.char_name
                             (ScriptParser.dialogue shot))) /\
  (forall name,
      name <> ""%string ->
      In name (map AgentOrchestrator.char_name (ScriptParser.dialogue shot)) ->
      In name characters) /\
  ((forall entry, In entry (ScriptParser.dialogue shot) ->
                  AgentOrchestrator.char_name entry = ""%string) ->
   characters = ["SUBJECT"%string]).
Proof.
  intros characters. subst characters.
  split; [apply OrchestratorFacts.extracted_characters|].
  assert (Old : AgentOrchestrator._extract_characters shot <> [] /\
                NoDup (AgentOrchestrator._extract_characters shot) /\
                Forall (fun name => name <> ""%string)
                       (AgentOrchestrator._extract_characters shot) /\
                (AgentOrchestrator._extract_characters shot
                 = ["SUBJECT"%string] \/
                 forall name,
                   In name (AgentOrchestrator._extract_characters shot) ->
                   In name (map AgentOrchestrator.char_name
                                (ScriptParser.dialogue shot)))).
  { unfold AgentOrchestrator._extract_characters.
    assert (H : BasicLines.named
                  (fold_left AgentOrchestrator.character_step
                             (ScriptParser.dialogue shot) [])).
    { apply (fold_left_invariant BasicLines.named).
      - intros; apply OrchestratorFacts.character_step_named; assumption.
      - split; constructor. }
    pose proof (OrchestratorFacts.characters_from
                  (ScriptParser.dialogue shot) []) as F.
    destruct (fold_left AgentOrchestrator.character_step
                        (ScriptParser.dialogue shot) []) as [|c cs].
    - split; [discriminate|]. split; [repeat constructor; intros []|].
      split; [repeat constructor; discriminate | left; reflexivity].
    - split; [discriminate|]. destruct H as [Hn Hf].
      split; [exact Hn|]. split; [exact Hf|]. right.
      intros name Hin. destruct (F name Hin) as [[]|H]. exact H. }
  destruct Old as (O1 & O2 & O3 & O4).
  split; [exact O1|]. split; [exact O2|]. split; [exact O3|].
  split; [exact O4|].
  rewrite OrchestratorFacts.extracted_characters. split.
  - intros name Hne Hin.
    assert (Hs : In name (BasicLines.first_occurrences
                            (BasicLines.speaker_names shot))).
    { apply OrchestratorFacts.first_occurrences_In.
      unfold BasicLines.speaker_names. apply filter_In. split; [exact Hin|].
      destruct name; [congruence | reflexivity]. }
    destruct (BasicLines.first_occurrences (BasicLines.speaker_names shot));
      [destruct Hs | exact Hs].
  - intros Hall.
    assert (G : forall ds,
               (forall e, In e ds -> AgentOrchestrator.char_name e = ""%string) ->
               filter (fun name => negb (Py.is_empty name))
                      (map AgentOrchestrator.char_name ds) = []).
    { induction ds as [|d ds IH]; intros Hds; [reflexivity|].
      cbn [map filter]. rewrite (Hds d) by (left; reflexivity).
      cbn [Py.is_empty negb]. apply IH. intros e He. apply Hds. right.
      exact He. }
    unfold BasicLines.speaker_names. rewrite (G _ Hall). reflexivity.
Qed.

(** * The enhanced parser: shots, scene numbers, agents *)

Module EnhancedShotFacts.
Import Re EnhancedScriptParser FormatFacts.

Lemma sall_app p : forall a b,
  Py.sall p (a ++ b)%string = Py.sall p a && Py.sall p b.
Proof.
  induction a as [|c a IH]; intros b; cbn [String.append Py.sall];
    [reflexivity|]. rewrite IH. apply andb_assoc.
Qed.

Lemma letter_is_no_digit r :
  r < 26 -> Py.isdigit_c (ascii_of_nat (65 + r)) = false.
Proof.
  intros H. unfold Py.isdigit_c, Py.in_range.
  rewrite nat_ascii_embedding by lia.
  apply andb_false_iff. right. apply Nat.leb_gt. lia.
Qed.

Lemma lettered q r :
  (Py.str q ++ Py.chr (65 + r))%string
  = (Py.str q ++ String (ascii_of_nat (65 + r)) "")%string.
Proof. reflexivity. Qed.

Lemma scene_num_str_inj n m : scene_num_str n = scene_num_str m -> n = m.
Proof.
  unfold scene_num_str.
  pose proof (Nat.mod_upper_bound n 26 ltac:(lia)) as Rn.
  pose proof (Nat.mod_upper_bound m 26 ltac:(lia)) as Rm.
  destruct (Nat.ltb_spec 26 n) as [Hn|Hn]; destruct (Nat.ltb_spec 26 m) as [Hm|Hm].
  - rewrite !lettered. intros H.
    apply split_after_digits in H;
      auto using str_digits, letter_is_no_digit.
    destruct H as (Hq & Hc & _). apply str_inj in Hq.
    apply (f_equal nat_of_ascii) in Hc.
    rewrite !nat_ascii_embedding in Hc by lia.
    rewrite (Nat.div_mod_eq n 26), (Nat.div_mod_eq m 26). lia.
  - rewrite lettered. intros H. apply (f_equal (Py.sall Py.isdigit_c)) in H.
    rewrite sall_app, !str_digits in H. cbn [Py.sall andb] in H.
    rewrite letter_is_no_digit in H by exact Rn. discriminate.
  - rewrite lettered. intros H. apply (f_equal (Py.sall Py.isdigit_c)) in H.
    rewrite sall_app, !str_digits in H. cbn [Py.sall andb] in H.
    rewrite letter_is_no_digit in H by exact Rm. discriminate.
  - apply str_inj.
Qed.

Lemma has_name_In n cs :
  has_name n cs = true <-> In n (map name cs).
Proof.
  unfold has_name. rewrite existsb_exists, in_map_iff. split.
  - intros (c & Hc & E). apply String.eqb_eq in E. eauto.
  - intros (c & E & Hc). exists c. split; [exact Hc|].
    apply String.eqb_eq. exact E.
Qed.

Lemma extract_characters_step cs d :
  NoDup (map name cs) ->
  NoDup (map name (if has_name (name (character_of d)) cs then cs
                   else cs ++ [character_of d])).
Proof.
  intros H. destruct (has_name _ cs) eqn:E; [exact H|].
  rewrite map_app. apply NoDup_app; [exact H | |].
  - constructor; [intros [] | constructor].
  - intros x Hx [<-|[]]. apply has_name_In in Hx. congruence.
Qed.

Lemma has_name_snoc n acc c :
  has_name n (acc ++ [c]) = has_name n acc || String.eqb (name c) n.
Proof.
  unfold has_name. rewrite existsb_app. cbn. rewrite orb_false_r.
  reflexivity.
Qed.

(** The loop lists the characters where their names occur first. *)
Lemma enhanced_characters_fold : forall ds acc,
  fold_left
    (fun characters d =>
       if has_name (name (character_of d)) characters then characters
       else characters ++ [character_of d]) ds acc
  = acc ++ filter (fun y => negb (has_name (name y) acc))
             (BasicLines.first_by_name (map character_of ds)).
Proof.
  induction ds as [|d ds IH]; intros acc; cbn [fold_left map].
  - cbn. rewrite app_nil_r. reflexivity.
  - rewrite IH. cbn [BasicLines.first_by_name filter].
    destruct (has_name (name (character_of d)) acc) eqn:M; cbn [negb].
    + f_equal. symmetry. apply OrchestratorFacts.filter_twice. intros y.
      destruct (String.eqb_spec (name y) (name (character_of d))) as [E|N];
        cbn [negb andb]; [rewrite E, M|]; reflexivity.
    + rewrite <- app_assoc. cbn [app]. do 2 f_equal. symmetry.
      apply OrchestratorFacts.filter_twice. intros y.
      rewrite has_name_snoc, negb_orb, (String.eqb_sym (name y)).
      apply andb_comm.
Qed.

Lemma first_by_name_names cs :
  map name (BasicLines.first_by_name cs)
  = BasicLines.first_occurrences (map name cs).
Proof.
  induction cs as [|c cs IH]; [reflexivity|].
  cbn [BasicLines.first_by_name BasicLines.first_occurrences map].
  f_equal. rewrite <- IH. clear IH.
  induction (BasicLines.first_by_name cs) as [|y l IHl]; [reflexivity|].
  cbn [map filter]. destruct (negb _); cbn [map]; rewrite IHl; reflexivity.
Qed.

End EnhancedShotFacts.

Import Re.

(** X14.  [_generate_enhanced_shots] returns the establishing shot, then one
    shot for each of the first three dialogue blocks, then one for the second
    and for the third action block: at most six shots, numbered 001, 002, ...
    in this order.  Further dialogue and action blocks reach no shot. *)
Theorem X14_enhanced_shots (n : nat) (heading location time_of_day : string)
    (acts : list string) (dlg : list EnhancedScriptParser.DialogueBlock) :
  let shots :=
    EnhancedScriptParser._generate_enhanced_shots n heading location
      time_of_day acts dlg in
  map (fun shot => ScriptBreakdownAgent.dict_get "type"
                     (EnhancedScriptParser.metadata shot) "") shots
  = EnhancedShots.kinds (List.length dlg) (List.length acts) /\
  map EnhancedScriptParser.shot_number shots
  = map Py.fmt03d (seq 1 (List.length shots)) /\
  List.length shots <= 6 /\
  flat_map EnhancedScriptParser.dialogue shots
  = map EnhancedScriptParser.character (firstn 3 dlg) /\
  map EnhancedScriptParser.action shots
  = (Py.join " " (firstn 1 acts) ::
     map (fun _ => ""%string) (firstn 3 dlg) ++ firstn 2 (skipn 1 acts)).
Proof.
  intros shots. subst shots.
  unfold EnhancedScriptParser._generate_enhanced_shots, EnhancedShots.kinds.
  destruct acts as [|a1 [|a2 [|a3 acts]]];
    destruct dlg as [|d1 [|d2 [|d3 dlg]]];
    cbn [List.length Nat.ltb Nat.leb firstn skipn Py.enumerate_from fold_left
         EnhancedScriptParser.dialogue_step EnhancedScriptParser.action_step
         fst snd app map flat_map seq Nat.min Nat.sub repeat
         EnhancedScriptParser.metadata EnhancedScriptParser.shot_number
         EnhancedScriptParser.dialogue EnhancedScriptParser.action
         ScriptBreakdownAgent.dict_get String.eqb Ascii.eqb Bool.eqb];
    (split; [reflexivity|]); (split; [reflexivity|]); (split; [lia|]);
    split; reflexivity.
Qed.

(** X15.  The scene numbers of the enhanced parser are distinct: the string
    given to ordinal [n] determines [n], also above 26 where it is a
    quotient followed by a letter, and no two scenes of a parsed script
    have the same scene number. *)
Theorem X15_enhanced_scene_numbers_are_distinct :
  (forall n m,
      EnhancedScriptParser.scene_num_str n = EnhancedScriptParser.scene_num_str m ->
      n = m) /\
  (forall content,
      NoDup (map EnhancedScriptParser.scene_number
                 (EnhancedScriptParser.parse content))).
Proof.
  split; [exact EnhancedShotFacts.scene_num_str_inj|].
  intros content.
  destruct (finditer EnhancedScriptParser.scene_pattern content) eqn:Em.
  - unfold EnhancedScriptParser.parse. rewrite Em. cbn [map].
    constructor; [intros [] | constructor].
  - rewrite EnhancedFacts.enhanced_parse_numbers_scenes
      by (rewrite Em; discriminate).
    apply ShotIdFacts.NoDup_map_inj;
      [exact EnhancedShotFacts.scene_num_str_inj | apply seq_NoDup].
Qed.

(** X15 on the ordinals 27 and 53 and on Scenario 1. *)
Lemma X15_witness :
  EnhancedScriptParser.scene_num_str 27 = "1B"%string /\
  EnhancedScriptParser.scene_num_str 53 = "2B"%string /\
  NoDup (map EnhancedScriptParser.scene_number
             (EnhancedScriptParser.parse Samples.scenario1)).
Proof.
  split; [reflexivity|]. split; [reflexivity|].
  apply (proj2 X15_enhanced_scene_numbers_are_distinct Samples.scenario1).
Defined.

(** X16.  For the shots the enhanced parser generates, the script breakdown
    agent finds the narrative function from the kind of the shot:
    the first shot establishes the setting, the dialogue shots are character
    interaction, the action shots advance the plot, and none is a
    "transition".  The emotional beat of a shot is never the empty string. *)
Theorem X16_breakdown_of_generated_shots (n : nat)
    (heading location time_of_day : string) (acts : list string)
    (dlg : list EnhancedScriptParser.DialogueBlock) :
  let shots :=
    EnhancedScriptParser._generate_enhanced_shots n heading location
      time_of_day acts dlg in
  map ScriptBreakdownAgent._determine_narrative_function shots
  = EnhancedShots.functions (List.length dlg) (List.length acts) /\
  Forall (fun shot =>
            ScriptBreakdownAgent._determine_narrative_function shot
            <> "transition"%string) shots /\
  (forall shot : EnhancedScriptParser.Shot,
      ScriptBreakdownAgent._extract_emotional_beat shot <> ""%string).
Proof.
  intros shots.
  assert (H : map ScriptBreakdownAgent._determine_narrative_function shots
              = EnhancedShots.functions (List.length dlg) (List.length acts)).
  { subst shots.
    unfold EnhancedScriptParser._generate_enhanced_shots,
      EnhancedShots.functions.
    destruct acts as [|a1 [|a2 [|a3 acts]]];
      destruct dlg as [|d1 [|d2 [|d3 dlg]]]; reflexivity. }
  split; [exact H|]. split.
  - apply Forall_forall. intros shot Hin.
    apply (in_map ScriptBreakdownAgent._determine_narrative_function) in Hin.
    rewrite H in Hin. unfold EnhancedShots.functions in Hin.
    intros E. rewrite E in Hin.
    destruct Hin as [Hin|Hin]; [discriminate|].
    apply in_app_or in Hin as [Hin|Hin]; apply repeat_spec in Hin;
      discriminate.
  - intros shot. unfold ScriptBreakdownAgent._extract_emotional_beat.
    destruct (EnhancedScriptParser.characters shot) as [|c cs];
      [discriminate|].
    set (l := EnhancedScriptParser.emotional_state c ::
              map EnhancedScriptParser.emotional_state cs).
    change (map EnhancedScriptParser.emotional_state (c :: cs)) with l.
    pose proof (filter_In (fun e => negb (Py.is_empty e))) as F.
    destruct (filter (fun e => negb (Py.is_empty e)) l) as [|e es] eqn:E;
      [discriminate|].
    assert (He : e <> ""%string).
    { destruct (proj1 (F e l) ltac:(rewrite E; left; reflexivity)) as [_ Hn].
      intros ->. discriminate. }
    unfold Py.join. destruct es as [|e' es]; cbn [String.concat];
      [exact He|].
    destruct e; [congruence | discriminate].
Qed.

(** X17.  [_extract_characters] of the enhanced parser returns exactly one
    character for each name among the cues, the character of the first
    block with that name, in the order of first speech: every name of a cue
    is listed, and listed once; a second cue of the same name, also with
    another parenthetical, adds no character. *)
Theorem X17_enhanced_characters_are_distinct
    (dlg : list EnhancedScriptParser.DialogueBlock) :
  EnhancedScriptParser._extract_characters dlg
  = BasicLines.first_by_name (map EnhancedScriptParser.character_of dlg) /\
  map EnhancedScriptParser.name (EnhancedScriptParser._extract_characters dlg)
  = BasicLines.first_occurrences
      (map (fun d => EnhancedScriptParser.name
                       (EnhancedScriptParser.character_of d)) dlg) /\
  NoDup (map EnhancedScriptParser.name
             (EnhancedScriptParser._extract_characters dlg)) /\
  (forall c, In c (EnhancedScriptParser._extract_characters dlg) ->
             In c (map EnhancedScriptParser.character_of dlg)) /\
  (forall d, In d dlg ->
             In (EnhancedScriptParser.name (EnhancedScriptParser.character_of d))
                (map EnhancedScriptParser.name
                     (EnhancedScriptParser._extract_characters dlg))).
Proof.
  assert (E : EnhancedScriptParser._extract_characters dlg
              = BasicLines.first_by_name
                  (map EnhancedScriptParser.character_of dlg)).
  { unfold EnhancedScriptParser._extract_characters.
    rewrite EnhancedShotFacts.enhanced_characters_fold.
    cbn [app EnhancedScriptParser.has_name existsb negb].
    apply OrchestratorFacts.filter_all. }
  assert (N : map EnhancedScriptParser.name
                  (EnhancedScriptParser._extract_characters dlg)
              = BasicLines.first_occurrences
                  (map (fun d => EnhancedScriptParser.name
                                   (EnhancedScriptParser.character_of d)) dlg)).
  { rewrite E, EnhancedShotFacts.first_by_name_names, map_map. reflexivity. }
  split; [exact E|]. split; [exact N|]. split; [|split].
  - unfold EnhancedScriptParser._extract_characters.
    apply (fold_left_invariant
             (fun cs => NoDup (map EnhancedScriptParser.name cs))).
    + intros cs d. apply EnhancedShotFacts.extract_characters_step.
    + constructor.
  - clear E N. unfold EnhancedScriptParser._extract_characters.
    assert (H : forall ds cs c,
               In c (fold_left
                       (fun characters d =>
                          if EnhancedScriptParser.has_name
                               (EnhancedScriptParser.name
                                  (EnhancedScriptParser.character_of d))
                               characters
                          then characters
                          else characters ++
                               [EnhancedScriptParser.character_of d])
                       ds cs) ->
               In c cs \/ In c (map EnhancedScriptParser.character_of ds)).
    { induction ds as [|d ds IH]; intros cs c; cbn [fold_left map In];
        [auto|].
      intros Hin. apply IH in Hin as [Hin|Hin]; [|auto].
      destruct (EnhancedScriptParser.has_name _ cs); [auto|].
      apply in_app_or in Hin as [Hin|[<-|[]]]; auto. }
    intros c Hin. apply H in Hin as [[]|Hin]. exact Hin.
  - intros d Hd. rewrite N.
    apply OrchestratorFacts.first_occurrences_In.
    apply (in_map (fun d => EnhancedScriptParser.name
                              (EnhancedScriptParser.character_of d))) in Hd.
    exact Hd.
Qed.

(** * The advanced processor: the files of a script *)

Module FileFacts.
Import Re AdvancedScriptParser AdvancedFilmCrewProcessor FormatFacts.

Lemma zeros_digits k : Py.sall Py.isdigit_c (Py.zeros k) = true.
Proof. induction k; cbn [Py.zeros Py.sall]; auto. Qed.

Lemma fmt03d_digits n : Py.sall Py.isdigit_c (Py.fmt03d n) = true.
Proof.
  unfold Py.fmt03d. rewrite EnhancedShotFacts.sall_app, zeros_digits, str_digits.
  reflexivity.
Qed.

Lemma file_name_inj script_name c suffix p q :
  Py.isdigit_c c = false ->
  file_name script_name (String c suffix) p
  = file_name script_name (String c suffix) q ->
  p = q.
Proof.
  destruct p as [n j], q as [m k]. unfold file_name. cbn [fst snd].
  intros Hc H. apply append_cancel_l in H.
  apply (append_cancel_l "_scene") in H.
  change ("_shot" ++ Py.fmt03d j ++ String c suffix)%string
    with (String "_" ("shot" ++ Py.fmt03d j ++ String c suffix)) in H.
  change ("_shot" ++ Py.fmt03d k ++ String c suffix)%string
    with (String "_" ("shot" ++ Py.fmt03d k ++ String c suffix)) in H.
  apply split_after_digits in H; auto using str_digits.
  destruct H as (Hn & _ & H). apply str_inj in Hn.
  apply (append_cancel_l "shot") in H.
  apply split_after_digits in H; auto using fmt03d_digits.
  destruct H as (Hj & _). apply fmt03d_inj in Hj. congruence.
Qed.

Lemma places_NoDup : forall scenes i,
  NoDup (places i scenes) /\
  forall p, In p (places i scenes) -> i < fst p.
Proof.
  unfold places. induction scenes as [|s scenes IH]; intros i;
    cbn [Py.enumerate_from flat_map fst snd].
  - split; [constructor | intros p []].
  - destruct (IH (S i)) as [Hn Hb]. split.
    + apply NoDup_app; [| exact Hn |].
      * apply ShotIdFacts.NoDup_map_inj; [|apply seq_NoDup]. congruence.
      * intros p H1 H2. apply in_map_iff in H1 as (j & <- & _).
        apply Hb in H2. cbn [fst] in H2. lia.
    + intros p H. apply in_app_or in H as [H|H].
      * apply in_map_iff in H as (j & <- & _). cbn [fst]. lia.
      * apply Hb in H. lia.
Qed.

Lemma placed_files script_name suffix file :
  (forall scene shot,
      file scene shot
      = (script_name ++ "_scene" ++ scene_number scene ++ "_shot" ++
         shot_number shot ++ suffix)%string) ->
  forall scenes i,
    Forall placed (Py.enumerate_from i scenes) ->
    files_of file scenes = map (file_name script_name suffix) (places i scenes).
Proof.
  intros Hfile. unfold files_of, places.
  induction scenes as [|s scenes IH]; intros i H;
    cbn [Py.enumerate_from flat_map fst snd]; [reflexivity|].
  cbn [Py.enumerate_from] in H. inversion H as [|? ? [Hs Hn] Hr]; subst.
  cbn [fst snd] in Hs, Hn.
  rewrite map_app, (IH (S i) Hr). f_equal.
  rewrite map_map. unfold file_name. cbn [fst snd].
  rewrite <- (map_map Py.fmt03d
                (fun x => (script_name ++ "_scene" ++ Py.str (i + 1) ++
                           "_shot" ++ x ++ suffix)%string)).
  rewrite <- Hn, map_map. apply map_ext. intros shot.
  rewrite Hfile, Hs. reflexivity.
Qed.

Lemma processed_placed order content tr vos :
  forall sds i scenes,
    Py.mapM (fun '(i, scene_data) =>
               _process_scene order scene_data (i + 1) tr vos content)
            (Py.enumerate_from i sds) = Py.Ok scenes ->
    Forall placed (Py.enumerate_from i scenes).
Proof.
  induction sds as [|sd sds IH]; intros i scenes H;
    cbn [Py.enumerate_from Py.mapM] in H.
  - injection H as <-. constructor.
  - destruct (_process_scene order sd (i + 1) tr vos content) as [s|] eqn:Es;
      cbn [Py.bind] in H; [|discriminate].
    destruct (Py.mapM _ (Py.enumerate_from (S i) sds)) as [rest|] eqn:Er;
      cbn [Py.bind] in H; [|discriminate].
    injection H as <-. cbn [Py.enumerate_from].
    constructor; [|apply IH, Er].
    apply SceneFacts.process_scene_inv in Es. cbv zeta in Es.
    destruct Es as (Hg & _ & _ & _ & _ & Hn & _).
    apply NumberingFacts.generated_shots_numbered in Hg.
    split; cbn [fst snd]; [exact Hn|].
    unfold Labels.numbered in Hg.
    apply (f_equal (map (fun l : string * string * string => snd l))) in Hg.
    rewrite !map_map in Hg. exact Hg.
Qed.

End FileFacts.

Import Re AdvancedScriptParser AdvancedFilmCrewProcessor.

(** X18.  The files the advanced processor writes for the shots of a parsed
    script have distinct names, the shot files and the prompt files alike,
    and so have the directories of the scenes: no shot overwrites the file
    of another. *)
Theorem X18_output_files_are_distinct order content scenes script_name :
  parse order content = Py.Ok scenes ->
  NoDup (files_of (shot_file script_name) scenes) /\
  NoDup (files_of (veo3_file script_name) scenes) /\
  NoDup (map scene_dir scenes).
Proof.
  intros H. pose proof H as Hp. unfold parse in Hp.
  apply FileFacts.processed_placed in Hp.
  destruct (FileFacts.places_NoDup scenes 0) as [Hn _].
  split; [|split].
  - rewrite (FileFacts.placed_files script_name ".json" (shot_file script_name)
               ltac:(reflexivity) scenes 0 Hp).
    apply ShotIdFacts.NoDup_map_inj; [|exact Hn].
    intros p q. apply FileFacts.file_name_inj. reflexivity.
  - rewrite (FileFacts.placed_files script_name "_veo3.json"
               (veo3_file script_name) ltac:(reflexivity) scenes 0 Hp).
    apply ShotIdFacts.NoDup_map_inj; [|exact Hn].
    intros p q. apply FileFacts.file_name_inj. reflexivity.
  - assert (F : forall l i,
               Forall placed (Py.enumerate_from i l) ->
               map scene_dir l
               = map (fun k => ("Scene_" ++ Py.str (k + 1))%string)
                     (seq i (List.length l))).
    { induction l as [|s l IH]; intros i F; [reflexivity|].
      cbn [Py.enumerate_from] in F. inversion F as [|? ? [Hs _] Hr]; subst.
      cbn [map List.length seq]. rewrite (IH (S i) Hr).
      unfold scene_dir at 1. cbn [fst snd] in Hs. rewrite Hs. reflexivity. }
    rewrite (F scenes 0 Hp).
    apply ShotIdFacts.NoDup_map_inj; [|apply seq_NoDup].
    intros a b E. apply (FormatFacts.append_cancel_l "Scene_") in E.
    apply FormatFacts.str_inj in E. lia.
Qed.

(** X18 on Scenario 1. *)
Lemma X18_witness :
  exists scenes,
    parse forward_order Samples.scenario1 = Py.Ok scenes /\
    NoDup (files_of (shot_file "script") scenes).
Proof.
  eexists. split; [vm_compute; reflexivity|].
  apply (X18_output_files_are_distinct forward_order Samples.scenario1 _
           "script").
  vm_compute; reflexivity.
Defined.
